(** * SmartHome web portal: the persistence model of [DB/models.py]

    A shallow embedding of the entity helper layer ([HelperMixin]), the
    default columns ([DefaultMixin]), the JSON field codec ([JSONEncoded])
    and the table declarations, with the properties the specification
    states about them.

    The program is Python 2 on SQLAlchemy: [basestring], [long] and
    [iteritems] are used, so [int] and [long], and [str] and [unicode],
    are distinct runtime types, and [bool] is a subclass of [int]. *)

From stdpp Require Import gmap strings list fin_maps.
From Stdlib Require Import ZArith Ascii String.
From Stdlib Require Import DecimalString DecimalFacts DecimalPos DecimalZ.

#[local] Set Warnings "-register-all".
#[local] Open Scope string_scope.

(** ** Python runtime types and values *)

Module Py.

(** The type objects the helper layer can meet.  [t_entity] stands for the
    class of a mapped entity ([User], [Fan], ...): every one of them derives
    from [HelperMixin] and from no builtin type.  [t_class] is any other
    class, a direct subclass of [object]. *)
Inductive pytype :=
| t_object
| t_NoneType
| t_bool
| t_int
| t_long
| t_float
| t_basestring
| t_str
| t_unicode
| t_Decimal
| t_date
| t_datetime
| t_list
| t_dict
| t_entity
| t_class (name : string).

#[global] Instance pytype_eq_dec : EqDecision pytype.
Proof. solve_decision. Defined.

(** Identity of type objects, as in [column_python_type in [int, long]]. *)
Definition type_is (a b : pytype) : bool := bool_decide (a = b).

(** The direct base class; [object] has none. *)
Definition base (t : pytype) : option pytype :=
  match t with
  | t_object => None
  | t_bool => Some t_int
  | t_str | t_unicode => Some t_basestring
  | t_datetime => Some t_date
  | _ => Some t_object
  end.

(** [issubclass(a, b)]: [b] is [a] or an ancestor of it.  No chain of bases
    in [pytype] is longer than three. *)
Definition issubclass (a b : pytype) : bool :=
  type_is a b ||
  match base a with
  | None => false
  | Some a1 =>
      type_is a1 b ||
      match base a1 with
      | None => false
      | Some a2 =>
          type_is a2 b ||
          match base a2 with
          | None => false
          | Some a3 => type_is a3 b
          end
      end
  end.

(** A [datetime.datetime] value. *)
Record datetime := mk_datetime {
  year : Z; month : Z; day : Z;
  hour : Z; minute : Z; second : Z; microsecond : Z
}.

(** A binary floating-point number, mantissa times two to the exponent;
    only its being a [float] matters to this layer. *)
Inductive pyfloat :=
| F_finite (mantissa exponent : Z)
| F_inf (negative : bool)
| F_nan.

(** Object identity: the address of an entity instance in the store. *)
Definition loc := positive.

(** Runtime values.  [VInt] is a machine [int], [VLong] an unbounded [long];
    [VStr] is a byte string, [VUnicode] a text string.  An entity is held by
    reference, so that two attributes can share one instance and instances
    can refer to each other. *)
Inductive pyvalue :=
| VNone
| VBool (b : bool)
| VInt (n : Z)
| VLong (n : Z)
| VFloat (f : pyfloat)
| VStr (s : string)
| VUnicode (s : string)
| VDecimal (unscaled : Z) (scale : Z)
| VDatetime (d : datetime)
| VList (l : list pyvalue)
| VDict (d : gmap string pyvalue)
| VEntity (l : loc)
| VObject (cls : string).

(** [type(value)] *)
Definition type_of (v : pyvalue) : pytype :=
  match v with
  | VNone => t_NoneType
  | VBool _ => t_bool
  | VInt _ => t_int
  | VLong _ => t_long
  | VFloat _ => t_float
  | VStr _ => t_str
  | VUnicode _ => t_unicode
  | VDecimal _ _ => t_Decimal
  | VDatetime _ => t_datetime
  | VList _ => t_list
  | VDict _ => t_dict
  | VEntity _ => t_entity
  | VObject c => t_class c
  end.

(** [isinstance(value, t)]: subtype-inclusive. *)
Definition isinstance (v : pyvalue) (t : pytype) : bool :=
  issubclass (type_of v) t.

(** [value is None] *)
Definition is_None (v : pyvalue) : bool :=
  match v with VNone => true | _ => false end.

(** [type(value) in ts] *)
Definition type_in (v : pyvalue) (ts : list pytype) : bool :=
  existsb (type_is (type_of v)) ts.

(** The exceptions this file can raise or let through, and the two that
    the specification names for the JSON codec; nothing in the source
    defines or raises [SerializationError] or [DeserializationError]. *)
Inductive exn :=
| InvalidParameter (msg : string)
| IndexError
| TypeError
| ValueError
| SerializationError
| DeserializationError.

(** The outcome of a call: a value, or a raised exception. *)
Inductive result (A : Type) :=
| Ok (a : A)
| Raise (e : exn).
Arguments Ok {A} a.
Arguments Raise {A} e.

End Py.
Import Py.

(** ** Column types

    SQLAlchemy's type objects, as far as [models.py] and the helper layer
    use them.  [python_type] is the library's attribute of that name; a type
    that has no native counterpart (the library raises there, and Python 2's
    [hasattr] turns any exception into [False]) has [None].  [Float] is
    declared without [asdecimal], so it is a [float]; the MySQL [DOUBLE]
    defaults to [asdecimal=True] and is a [Decimal], like [Numeric].  A type
    decorator such as [JSONEncoded] answers with its [impl]'s attribute. *)

Inductive column_type :=
| Integer
| VARCHAR (length : nat)
| Text
| Boolean
| Float
| DOUBLE (precision scale : nat)
| Numeric
| DateTime
| NullType
| TypeDecorator (name : string) (impl : column_type)
| UserType (name : string) (native : option pytype).

Fixpoint python_type (t : column_type) : option pytype :=
  match t with
  | Integer => Some t_int
  | VARCHAR _ | Text => Some t_str
  | Boolean => Some t_bool
  | Float => Some t_float
  | DOUBLE _ _ | Numeric => Some t_Decimal
  | DateTime => Some t_datetime
  | NullType => None
  | TypeDecorator _ impl => python_type impl
  | UserType _ native => native
  end.

(** ** Tables, columns and instances *)

Module Schema.

(** The callables used as column defaults; [util.get_utc_now] is the only
    one. *)
Inductive default_callable := util_get_utc_now.

(** [ForeignKey(target, ondelete=..., onupdate=...)] *)
Record ForeignKey := mk_ForeignKey {
  fk_target : string;
  fk_ondelete : string;
  fk_onupdate : string
}.

(** [Column(type, ...)] under the attribute name it is assigned to.
    [nullable] is the declared keyword and defaults to [True]. *)
Record Column := mk_Column {
  name : string;
  type_ : column_type;
  primary_key : bool;
  nullable : bool;
  indexed : bool;
  default_ : option default_callable;
  foreign_key : option ForeignKey
}.

(** [relation(target, backref=..., lazy=False)] *)
Record Relation := mk_Relation {
  rel_name : string;
  rel_target : string;
  rel_backref : string
}.

(** [__mapper__]: the mapped table of a class. *)
Record Mapper := mk_Mapper {
  tablename : string;
  columns : list Column;
  relations : list Relation
}.

(** [__mapper__.columns.keys()] *)
Definition keys (m : Mapper) : list string := map name (columns m).

(** An entity instance: its class's mapper and its own [__dict__]. *)
Record instance := mk_instance {
  mapper : Mapper;
  attrs : gmap string pyvalue
}.

(** The object store: the live entity instances by identity. *)
Abbreviation store := (gmap loc instance).

(** [getattr(self, key)] for a mapped attribute: what [__dict__] holds, and
    [None] for an attribute that was never set. *)
Definition getattr (self : instance) (key : string) : pyvalue :=
  default VNone (attrs self !! key).

End Schema.
Import Schema.

(** ** The helper layer *)

Module HelperMixin.

(** [HelperMixin.type_compatible(value, column_type)], rule by rule. *)
Definition type_compatible (value : pyvalue) (column_type : column_type) : bool :=
  if is_None value then true
  else
    match python_type column_type with
    | None => true
    | Some column_python_type =>
        if isinstance value column_python_type then true
        else if type_is column_python_type t_Decimal then
          type_in value [t_float; t_int]
        else if issubclass column_python_type t_basestring then
          isinstance value t_basestring
        else if existsb (type_is column_python_type) [t_int; t_long] then
          type_in value [t_int; t_long]
        else if type_is column_python_type t_float then
          type_in value [t_float; t_int]
        else if type_is column_python_type t_bool then
          type_in value [t_bool]
        else false
    end.

(** [key.startswith('_')] *)
Definition startswith (pre s : string) : bool := String.prefix pre s.
#[global] Arguments startswith : simpl never.

(** [k[0]]: raises on the empty string. *)
Definition key0 (k : string) : result ascii :=
  match k with
  | EmptyString => Raise IndexError
  | String c _ => Ok c
  end.

(** The dict a comprehension builds, later items overriding earlier ones. *)
Definition dict_of_items (items : list (string * pyvalue)) : gmap string pyvalue :=
  foldl (fun d kv => <[kv.1 := kv.2]> d) ∅ items.

(** The state of a method call on [self]: the instance, read and written
    in place, and the outcome so far. *)
Definition M (A : Type) : Type := instance -> result A * instance.

Definition ret {A} (a : A) : M A := fun self => (Ok a, self).

Definition bind {A B} (m : M A) (f : A -> M B) : M B :=
  fun self =>
    match m self with
    | (Ok a, self') => f a self'
    | (Raise e, self') => (Raise e, self')
    end.

Definition raise {A} (e : exn) : M A := fun self => (Raise e, self).

Definition getattr_m (key : string) : M pyvalue :=
  fun self => (Ok (getattr self key), self).

Definition get_columns : M (list Column) :=
  fun self => (Ok (columns (mapper self)), self).

(** [HelperMixin.update] and [HelperMixin.initialize] *)
Definition update : M unit := ret tt.
Definition initialize : M unit := update.

(** [for x in l: body x] *)
Fixpoint for_each {A} (body : A -> M unit) (l : list A) : M unit :=
  match l with
  | [] => ret tt
  | x :: l' => bind (body x) (fun _ => for_each body l')
  end.

Section Methods.

(** [%r] of a value and [%s] of a column type, as Python and SQLAlchemy
    print them. *)
Variable repr : pyvalue -> string.
Variable type_str : column_type -> string.

(** Modelled from the spec: [util.format_datetime] ([utils/util.py] is not
    among the sources) is the canonical date-time formatting function; it
    renders a date-time as a string. *)
Variable format_datetime : datetime -> string.

(** ['column %s value %r type is unexpected: %s' % (name, value, type)] *)
Definition unexpected_type_message (column : Column) (value : pyvalue) : string :=
  "column " ++ name column ++ " value " ++ repr value
    ++ " type is unexpected: " ++ type_str (type_ column).

(** The body of the loop of [validate]. *)
Definition check_column (column : Column) : M unit :=
  bind (getattr_m (name column)) (fun value =>
    if negb (type_compatible value (type_ column)) then
      raise (InvalidParameter (unexpected_type_message column value))
    else ret tt).

(** [HelperMixin.validate] *)
Definition validate : M unit :=
  bind get_columns (fun columns => for_each check_column columns).

(** The value of a column passes the test of [validate]. *)
Definition column_ok (self : instance) (column : Column) : Prop :=
  type_compatible (getattr self (name column)) (type_ column) = true.

(** [if isinstance(value, datetime.datetime):
       value = util.format_datetime(value)]; only a [VDatetime] is an
    instance of [datetime.datetime]. *)
Definition render_datetime (value : pyvalue) : pyvalue :=
  match value with
  | VDatetime d => VStr (format_datetime d)
  | _ => value
  end.

(** The loops below keep a key when it is public and its value is not
    [None]. *)
Definition projected (self : instance) (k : string) : bool :=
  negb (startswith "_" k) && negb (is_None (getattr self k)).

(** [HelperMixin.to_dict] *)
Definition to_dict (self : instance) : gmap string pyvalue :=
  foldl (fun dict_info key =>
    if startswith "_" key then dict_info
    else
      let value := getattr self key in
      if is_None value then dict_info
      else <[key := render_datetime value]> dict_info)
    ∅ (keys (mapper self)).

(** [[(k, v) for k, v in self.__dict__.iteritems() if not k[0] == '_']] *)
Fixpoint public_items (items : list (string * pyvalue))
  : result (list (string * pyvalue)) :=
  match items with
  | [] => Ok []
  | (k, v) :: rest =>
      match key0 k with
      | Raise e => Raise e
      | Ok c =>
          match public_items rest with
          | Raise e => Raise e
          | Ok r => Ok (if negb (Ascii.eqb c "_") then (k, v) :: r else r)
          end
      end
  end.

(** [joined = dict([... ])] *)
Definition joined (self : instance) : result (gmap string pyvalue) :=
  match public_items (map_to_list (attrs self)) with
  | Raise e => Raise e
  | Ok items => Ok (dict_of_items items)
  end.

(** [joined.keys()] *)
Definition dict_keys (d : gmap string pyvalue) : list string :=
  (map_to_list d).*1.

(** What a join projection is to hold under [k], given how it expands a
    value: nothing for a private or absent attribute. *)
Definition joined_entry (expand : pyvalue -> pyvalue) (self : instance)
    (k : string) : option pyvalue :=
  match attrs self !! k with
  | Some v =>
      if negb (startswith "_" k) && negb (is_None v)
      then Some (expand (render_datetime v))
      else None
  | None => None
  end.

Section WithStore.

(** The instances that entity references denote.  A reference always
    denotes a live instance; one that is not in the store is left as it
    is. *)
Variable h : store.

(** [if isinstance(value, HelperMixin): value = value.to_dict()] *)
Definition expand_once (value : pyvalue) : pyvalue :=
  match value with
  | VEntity l =>
      match h !! l with
      | Some related => VDict (to_dict related)
      | None => value
      end
  | _ => value
  end.

(** [HelperMixin.join_to_dict] *)
Definition join_to_dict (self : instance) : result (gmap string pyvalue) :=
  match joined self with
  | Raise e => Raise e
  | Ok joined =>
      Ok (foldl (fun dict_info key =>
            if startswith "_" key then dict_info
            else
              let value := getattr self key in
              if is_None value then dict_info
              else <[key := expand_once (render_datetime value)]> dict_info)
            ∅ (dict_keys joined))
  end.

(** [if isinstance(value, HelperMixin):
       value = value.join_to_dict_recurse()], given the recursive call;
    [None] when that call has not returned. *)
Definition expand_deep
    (rec : instance -> option (result (gmap string pyvalue)))
    (value : pyvalue) : option (result pyvalue) :=
  match value with
  | VEntity l =>
      match h !! l with
      | Some related =>
          match rec related with
          | Some (Ok d) => Some (Ok (VDict d))
          | Some (Raise e) => Some (Raise e)
          | None => None
          end
      | None => Some (Ok value)
      end
  | _ => Some (Ok value)
  end.

(** The expanded value, once the recursive call has returned it. *)
Definition settled
    (rec : instance -> option (result (gmap string pyvalue)))
    (value : pyvalue) : pyvalue :=
  match expand_deep rec value with
  | Some (Ok v) => v
  | _ => value
  end.

(** What the recursive call makes of the value under [key]. *)
Definition expansion
    (rec : instance -> option (result (gmap string pyvalue)))
    (self : instance) (key : string) : option (result pyvalue) :=
  expand_deep rec (render_datetime (getattr self key)).

(** The mapping the loop builds when every recursive call returns one. *)
Definition settled_fold
    (rec : instance -> option (result (gmap string pyvalue)))
    (self : instance) (d0 : gmap string pyvalue) (ks : list string)
  : gmap string pyvalue :=
  foldl (fun d key =>
           if projected self key
           then <[key := settled rec (render_datetime (getattr self key))]> d
           else d) d0 ks.

(** One pass of the loop body of [join_to_dict_recurse]. *)
Definition recurse_step
    (rec : instance -> option (result (gmap string pyvalue)))
    (self : instance)
    (acc : option (result (gmap string pyvalue))) (key : string)
  : option (result (gmap string pyvalue)) :=
  match acc with
  | Some (Ok dict_info) =>
      if startswith "_" key then acc
      else
        let value := getattr self key in
        if is_None value then acc
        else
          match expand_deep rec (render_datetime value) with
          | Some (Ok value) => Some (Ok (<[key := value]> dict_info))
          | Some (Raise e) => Some (Raise e)
          | None => None
          end
  | _ => acc
  end.

(** [HelperMixin.join_to_dict_recurse], with the depth of nested calls
    bounded by [depth]: [None] means that the calls nest deeper than that,
    and [None] at every [depth] that the call never returns. *)
Fixpoint join_to_dict_recurse (depth : nat) (self : instance)
  : option (result (gmap string pyvalue)) :=
  match depth with
  | O => None
  | S depth' =>
      match joined self with
      | Raise e => Some (Raise e)
      | Ok joined =>
          foldl (recurse_step (join_to_dict_recurse depth') self)
            (Some (Ok ∅)) (dict_keys joined)
      end
  end.

(** *** The graph of the instances

    [holds self k l]: the public attribute [k] of [self] holds the live
    instance at [l]; these are the values the join projections expand.
    [refers self l]: some attribute does. *)
Definition holds (self : instance) (k : string) (l : loc) : Prop :=
  attrs self !! k = Some (VEntity l) /\ startswith "_" k = false /\
  is_Some (h !! l).

Definition refers (self : instance) (l : loc) : Prop :=
  exists k : string, holds self k l.

Definition edge (a b : loc) : Prop :=
  exists self : instance, h !! a = Some self /\ refers self b.

(** No instance reaches itself. *)
Definition acyclic : Prop := forall l : loc, ~ tc edge l l.

(** [self] refers to an instance from which a cycle can be reached. *)
Definition reaches_cycle (self : instance) : Prop :=
  exists l c : loc, refers self l /\ rtc edge l c /\ tc edge c c.

(** Every chain of references from [self] has at most [n] steps. *)
Fixpoint shallow (n : nat) (self : instance) : Prop :=
  match n with
  | O => forall l, ~ refers self l
  | S n' =>
      forall l related, refers self l -> h !! l = Some related ->
        shallow n' related
  end.

(** There is a chain of [n] references from [self]. *)
Fixpoint deep (n : nat) (self : instance) : Prop :=
  match n with
  | O => True
  | S n' =>
      exists l related, refers self l /\ h !! l = Some related /\
        deep n' related
  end.

(** No attribute of a stored instance has the empty name. *)
Definition store_names_ok : Prop :=
  forall l self, h !! l = Some self -> attrs self !! "" = None.

End WithStore.
End Methods.
End HelperMixin.

(** ** The declared tables *)

Module Models.

(** The classes a model derives from. *)
Inductive base_class := cls_Base | cls_HelperMixin | cls_DefaultMixin.

#[global] Instance base_class_eq_dec : EqDecision base_class.
Proof. solve_decision. Defined.

(** [Column(t)] with every keyword at its default. *)
Definition plain (n : string) (t : column_type) : Column :=
  mk_Column n t false true false None None.

(** [Column(t, ForeignKey(target, ondelete='CASCADE', onupdate='CASCADE'),
    nullable=False)] *)
Definition cascade (n : string) (t : column_type) (target : string) : Column :=
  mk_Column n t false false false None
    (Some (mk_ForeignKey target "CASCADE" "CASCADE")).

(** [DefaultMixin] *)
Definition DefaultMixin_id : Column :=
  mk_Column "id" Integer true true false None None.
Definition DefaultMixin_created_at : Column :=
  mk_Column "created_at" DateTime false true false (Some util_get_utc_now) None.

(** The columns a base class contributes to the classes deriving from it. *)
Definition inherited (b : base_class) : list Column :=
  match b with
  | cls_DefaultMixin => [DefaultMixin_id; DefaultMixin_created_at]
  | _ => []
  end.

Inductive model :=
| User | Fan | Button | Temperature | Rgbled | Led | Buzzer | Illuminance
| Motion | Gas | Solar | Power | Energy | EventLog | SmsHistroy | Gateway
| Resource | SensorType.

#[global] Instance model_eq_dec : EqDecision model.
Proof. solve_decision. Defined.

Definition all_models : list model :=
  [User; Fan; Button; Temperature; Rgbled; Led; Buzzer; Illuminance;
   Motion; Gas; Solar; Power; Energy; EventLog; SmsHistroy; Gateway;
   Resource; SensorType].

(** [class M(Base, HelperMixin, DefaultMixin)], and
    [class SensorType(Base, HelperMixin)]. *)
Definition bases (m : model) : list base_class :=
  match m with
  | SensorType => [cls_Base; cls_HelperMixin]
  | _ => [cls_Base; cls_HelperMixin; cls_DefaultMixin]
  end.

Definition table_name (m : model) : string :=
  match m with
  | User => "user" | Fan => "fan" | Button => "button"
  | Temperature => "temperature" | Rgbled => "rgbled" | Led => "led"
  | Buzzer => "buzzer" | Illuminance => "illuminance" | Motion => "motion"
  | Gas => "gas" | Solar => "solar" | Power => "power" | Energy => "energy"
  | EventLog => "eventlog" | SmsHistroy => "sms_history"
  | Gateway => "gateway" | Resource => "resource"
  | SensorType => "sensor_type"
  end.

Definition uuid_fk : Column := cascade "uuid" (VARCHAR 40) "resource.uuid".
Definition gateway_fk : Column := cascade "gateway_id" Integer "gateway.id".

(** The columns of a class body, in the order they are written. *)
Definition declared (m : model) : list Column :=
  match m with
  | User =>
      [plain "username" (VARCHAR 20); plain "password" (VARCHAR 64);
       plain "phone" (VARCHAR 15); gateway_fk]
  | Fan | Button | Led | Buzzer | Motion | Gas =>
      [uuid_fk; plain "status" Boolean; gateway_fk]
  | Temperature =>
      [uuid_fk; plain "temperature" (DOUBLE 20 15); plain "units" (VARCHAR 10);
       plain "range" (VARCHAR 20); gateway_fk]
  | Rgbled =>
      [uuid_fk; plain "rgbvalue" (VARCHAR 20); plain "range" (VARCHAR 20);
       gateway_fk]
  | Illuminance =>
      [uuid_fk; plain "illuminance" Float; gateway_fk]
  | Solar =>
      [uuid_fk; plain "status" Boolean; gateway_fk;
       plain "tiltpercentage" Float; plain "lcd_first" (VARCHAR 30);
       plain "lcd_second" (VARCHAR 30)]
  | Power | Energy =>
      [uuid_fk; plain "value" Integer; gateway_fk]
  | EventLog =>
      [plain "type" (VARCHAR 10); plain "data" (VARCHAR 100);
       plain "response_code" Integer]
  | SmsHistroy => [gateway_fk; uuid_fk]
  | Gateway =>
      [plain "name" (VARCHAR 30); plain "url" (VARCHAR 30);
       plain "address" (VARCHAR 50); plain "latitude" (VARCHAR 20);
       plain "longitude" (VARCHAR 20); plain "status" Boolean]
  | Resource =>
      [mk_Column "uuid" (VARCHAR 40) false false true None None;
       cascade "sensor_type_id" Integer "sensor_type.id";
       plain "status" Boolean; gateway_fk;
       mk_Column "path" (VARCHAR 60) false false false None None]
  | SensorType =>
      [mk_Column "id" Integer true true false None None;
       mk_Column "type" (VARCHAR 20) false false false None None]
  end.

Definition declared_relations (m : model) : list Relation :=
  match m with
  | User => [mk_Relation "gateway" "Gateway" "user"]
  | Resource => [mk_Relation "sensor_type" "SensorType" "resource"]
  | _ => []
  end.

(** The mapped table of a class: the columns of its mixins, which were
    created first, then its own. *)
Definition mapper_of (m : model) : Mapper :=
  mk_Mapper (table_name m)
    (flat_map inherited (bases m) ++ declared m)
    (declared_relations m).

(** A column of that name in the table of [m]. *)
Definition column_named (m : model) (n : string) : option Column :=
  find (fun c => String.eqb (name c) n) (columns (mapper_of m)).

Section Defaults.

(** Modelled from the spec: [util.get_utc_now] ([utils/util.py] is not
    among the sources) returns the current UTC instant. *)
Variable utc_now : datetime.

Definition call_default (f : default_callable) : pyvalue :=
  match f with
  | util_get_utc_now => VDatetime utc_now
  end.

(** What the mapper does with column defaults when a new instance is
    stored: a column that has a default and whose attribute holds no value
    receives the result of the callable; a supplied value is kept. *)
Definition apply_defaults (self : instance) : instance :=
  mk_instance (mapper self)
    (foldl (fun d c =>
        match default_ c with
        | Some f =>
            if is_None (getattr self (name c)) then <[name c := call_default f]> d
            else d
        | None => d
        end)
      (attrs self) (columns (mapper self))).

End Defaults.

End Models.

(** ** The JSON field codec

    [JSONEncoded] hands its work to Python's [json.dumps] and [json.loads].
    [Json] embeds the two on the values of the JSON data model, called with
    their default arguments: output in ASCII, [', '] and [': '] as
    separators, strict string parsing.  Text is a sequence of 16-bit code
    units; [str] and [unicode] texts are one [Str], [int] and [long] are one
    [Int], which is how Python's [==] sees them.  [Opaque] is any object
    that [json] cannot serialise (a date-time, a [Decimal], an entity). *)

Module Json.

Abbreviation text := (list N).

Inductive value :=
| Null
| Bool (b : bool)
| Int (z : Z)
| Float (f : pyfloat)
| Str (s : text)
| Arr (items : list value)
| Obj (members : list (text * value))
| Opaque (cls : string).

Inductive token :=
| T_lbrace | T_rbrace | T_lbracket | T_rbracket | T_comma | T_colon
| T_null | T_true | T_false
| T_int (z : Z)
| T_float (lexeme : string)
| T_str (s : text).

Definition dquote : ascii := "034"%char.
Definition backslash : ascii := "\"%char.

(** *** Writing *)

(** The digit of a value below sixteen: [0] to [9], then [a] to [f]. *)
Definition hex_digit (n : N) : ascii :=
  if (n <? 10)%N then ascii_of_N (48 + n) else ascii_of_N (87 + n).

(** [\uXXXX], four lower-case hexadecimal digits. *)
Definition hex4 (n : N) : string :=
  String (hex_digit (n / 4096 mod 16))
    (String (hex_digit (n / 256 mod 16))
       (String (hex_digit (n / 16 mod 16))
          (String (hex_digit (n mod 16)) EmptyString))).

(** How one code unit is written inside a string literal. *)
Definition escape_unit (n : N) : string :=
  if (n =? 34)%N then String backslash (String dquote EmptyString)
  else if (n =? 92)%N then String backslash (String backslash EmptyString)
  else if (n =? 8)%N then "\b"
  else if (n =? 12)%N then "\f"
  else if (n =? 10)%N then "\n"
  else if (n =? 13)%N then "\r"
  else if (n =? 9)%N then "\t"
  else if ((32 <=? n) && (n <=? 126))%N then String (ascii_of_N n) EmptyString
  else "\u" ++ hex4 n.

Fixpoint escape (s : text) : string :=
  match s with
  | [] => EmptyString
  | n :: s' => escape_unit n ++ escape s'
  end.

Definition quote (s : text) : string :=
  String dquote (escape s ++ String dquote EmptyString).

Definition print_int (z : Z) : string :=
  DecimalString.NilZero.string_of_int (Z.to_int z).

Definition render_token (t : token) : string :=
  match t with
  | T_lbrace => "{" | T_rbrace => "}"
  | T_lbracket => "[" | T_rbracket => "]"
  | T_comma => ", " | T_colon => ": "
  | T_null => "null" | T_true => "true" | T_false => "false"
  | T_int z => print_int z
  | T_float lexeme => lexeme
  | T_str s => quote s
  end.

Fixpoint render (ts : list token) : string :=
  match ts with
  | [] => EmptyString
  | t :: ts' => render_token t ++ render ts'
  end.

(** *** Reading *)

Definition is_ws (c : ascii) : bool :=
  (Ascii.eqb c " " || Ascii.eqb c "009" || Ascii.eqb c "010"
   || Ascii.eqb c "013")%char.

Fixpoint skip_ws (s : string) : string :=
  match s with
  | String c r => if is_ws c then skip_ws r else s
  | EmptyString => s
  end.

Fixpoint strip_prefix (p s : string) : option string :=
  match p, s with
  | EmptyString, _ => Some s
  | String a p', String b s' =>
      if Ascii.eqb a b then strip_prefix p' s' else None
  | String _ _, EmptyString => None
  end.

Definition digit_of (c : ascii) : option (Decimal.uint -> Decimal.uint) :=
  match c with
  | "0" => Some Decimal.D0 | "1" => Some Decimal.D1 | "2" => Some Decimal.D2
  | "3" => Some Decimal.D3 | "4" => Some Decimal.D4 | "5" => Some Decimal.D5
  | "6" => Some Decimal.D6 | "7" => Some Decimal.D7 | "8" => Some Decimal.D8
  | "9" => Some Decimal.D9 | _ => None
  end%char.

Definition is_digit (c : ascii) : bool :=
  match digit_of c with Some _ => true | None => false end.

(** The longest run of digits at the head of [s]. *)
Fixpoint take_digits (s : string) : Decimal.uint * string :=
  match s with
  | String c r =>
      match digit_of c with
      | Some d => let '(u, r') := take_digits r in (d u, r')
      | None => (Decimal.Nil, s)
      end
  | EmptyString => (Decimal.Nil, s)
  end.

Definition digits_text (u : Decimal.uint) : string :=
  DecimalString.NilEmpty.string_of_uint u.

(** The integer part: [0|[1-9]\d*]. *)
Definition lex_int_part (s : string) : option (Decimal.uint * string) :=
  match s with
  | String c r =>
      if Ascii.eqb c "0" then Some (Decimal.D0 Decimal.Nil, r)
      else if is_digit c then Some (take_digits s)
      else None
  | EmptyString => None
  end.

(** The optional fraction [(\.\d+)?]: its text and what follows. *)
Definition lex_frac (s : string) : string * string :=
  match s with
  | String "." (String c r) =>
      if is_digit c then
        let '(u, r') := take_digits (String c r) in
        (String "." (digits_text u), r')
      else (EmptyString, s)
  | _ => (EmptyString, s)
  end.

(** The optional exponent [([eE][-+]?\d+)?]. *)
Definition lex_exp (s : string) : string * string :=
  match s with
  | String e r =>
      if (Ascii.eqb e "e" || Ascii.eqb e "E")%char then
        match r with
        | String c r1 =>
            if (Ascii.eqb c "-" || Ascii.eqb c "+")%char then
              match r1 with
              | String c1 _ =>
                  if is_digit c1 then
                    let '(u, r') := take_digits r1 in
                    (String e (String c (digits_text u)), r')
                  else (EmptyString, s)
              | EmptyString => (EmptyString, s)
              end
            else if is_digit c then
              let '(u, r') := take_digits r in
              (String e (digits_text u), r')
            else (EmptyString, s)
        | EmptyString => (EmptyString, s)
        end
      else (EmptyString, s)
  | EmptyString => (EmptyString, s)
  end.

(** A number: an integer when it has neither fraction nor exponent, a
    floating-point literal otherwise. *)
Definition lex_number (s : string) : option (token * string) :=
  let '(negative, s1) :=
    match s with
    | String "-" r => (true, r)
    | _ => (false, s)
    end in
  match lex_int_part s1 with
  | None => None
  | Some (u, s2) =>
      let '(frac, s3) := lex_frac s2 in
      let '(exp, s4) := lex_exp s3 in
      if (String.eqb frac EmptyString && String.eqb exp EmptyString)%bool then
        Some (T_int (if negative then - Z.of_uint u else Z.of_uint u)%Z, s4)
      else
        Some (T_float ((if negative then "-" else EmptyString)
                         ++ digits_text u ++ frac ++ exp), s4)
  end.

(** The value of a hexadecimal digit, in either case. *)
Definition hex_value (c : ascii) : option N :=
  let n := N_of_ascii c in
  if ((48 <=? n) && (n <=? 57))%N then Some (n - 48)%N
  else if ((97 <=? n) && (n <=? 102))%N then Some (n - 87)%N
  else if ((65 <=? n) && (n <=? 70))%N then Some (n - 55)%N
  else None.

Definition unhex4 (a b c d : ascii) : option N :=
  match hex_value a, hex_value b, hex_value c, hex_value d with
  | Some x, Some y, Some z, Some w => Some (((x * 16 + y) * 16 + z) * 16 + w)%N
  | _, _, _, _ => None
  end.

(** The code unit a one-letter escape stands for. *)
Definition unescape (c : ascii) : option N :=
  if Ascii.eqb c dquote then Some 34%N
  else if Ascii.eqb c backslash then Some 92%N
  else if Ascii.eqb c "/" then Some 47%N
  else if Ascii.eqb c "b" then Some 8%N
  else if Ascii.eqb c "f" then Some 12%N
  else if Ascii.eqb c "n" then Some 10%N
  else if Ascii.eqb c "r" then Some 13%N
  else if Ascii.eqb c "t" then Some 9%N
  else None.

(** The rest of a string literal, after its opening quote. *)
Fixpoint lex_string (s : string) : option (text * string) :=
  match s with
  | EmptyString => None
  | String c r =>
      if Ascii.eqb c dquote then Some ([], r)
      else if Ascii.eqb c backslash then
        match r with
        | String e r' =>
            if Ascii.eqb e "u" then
              match r' with
              | String x1 (String x2 (String x3 (String x4 r''))) =>
                  match unhex4 x1 x2 x3 x4, lex_string r'' with
                  | Some n, Some (u, rest) => Some (n :: u, rest)
                  | _, _ => None
                  end
              | _ => None
              end
            else
              match unescape e, lex_string r' with
              | Some n, Some (u, rest) => Some (n :: u, rest)
              | _, _ => None
              end
        | EmptyString => None
        end
      else if (N_of_ascii c <? 32)%N then None
      else
        match lex_string r with
        | Some (u, rest) => Some (N_of_ascii c :: u, rest)
        | None => None
        end
  end.

(** One token at the head of [s], which does not start with blank space. *)
Definition lex_token (s : string) : option (token * string) :=
  match s with
  | EmptyString => None
  | String c r =>
      if Ascii.eqb c "{" then Some (T_lbrace, r)
      else if Ascii.eqb c "}" then Some (T_rbrace, r)
      else if Ascii.eqb c "[" then Some (T_lbracket, r)
      else if Ascii.eqb c "]" then Some (T_rbracket, r)
      else if Ascii.eqb c "," then Some (T_comma, r)
      else if Ascii.eqb c ":" then Some (T_colon, r)
      else if Ascii.eqb c dquote then
        match lex_string r with
        | Some (u, rest) => Some (T_str u, rest)
        | None => None
        end
      else
        match strip_prefix "null" s, strip_prefix "true" s,
              strip_prefix "false" s with
        | Some rest, _, _ => Some (T_null, rest)
        | _, Some rest, _ => Some (T_true, rest)
        | _, _, Some rest => Some (T_false, rest)
        | None, None, None =>
            match lex_number s with
            | Some found => Some found
            | None =>
                match strip_prefix "NaN" s, strip_prefix "Infinity" s,
                      strip_prefix "-Infinity" s with
                | Some rest, _, _ => Some (T_float "NaN", rest)
                | _, Some rest, _ => Some (T_float "Infinity", rest)
                | _, _, Some rest => Some (T_float "-Infinity", rest)
                | None, None, None => None
                end
            end
        end
  end.

(** All the tokens of [s]; [fuel] bounds their number. *)
Fixpoint lex (fuel : nat) (s : string) : option (list token) :=
  match fuel with
  | O => None
  | S fuel' =>
      match skip_ws s with
      | EmptyString => Some []
      | s' =>
          match lex_token s' with
          | Some (t, rest) =>
              match lex fuel' rest with
              | Some ts => Some (t :: ts)
              | None => None
              end
          | None => None
          end
      end
  end.

(** [d[k] = v] on a dict kept as the list of its items. *)
Fixpoint dict_set (k : text) (v : value) (d : list (text * value))
  : list (text * value) :=
  match d with
  | [] => [(k, v)]
  | (k', v') :: d' =>
      if bool_decide (k = k') then (k, v) :: d' else (k', v') :: dict_set k v d'
  end.

Definition dict_of (pairs : list (text * value)) : list (text * value) :=
  foldl (fun d kv => dict_set kv.1 kv.2 d) [] pairs.

(** The values the round trip is stated for: built from [None], booleans,
    integers, text, lists, and dicts with text keys, each key once. *)
Definition text_ok (s : text) : bool := forallb (fun n => (n <? 65536)%N) s.

Fixpoint keys_distinct (ks : list text) : bool :=
  match ks with
  | [] => true
  | k :: ks' => negb (bool_decide (k ∈ ks')) && keys_distinct ks'
  end.

Fixpoint representable (v : value) : bool :=
  match v with
  | Null | Bool _ | Int _ => true
  | Float _ | Opaque _ => false
  | Str s => text_ok s
  | Arr items => forallb representable items
  | Obj members =>
      keys_distinct (map fst members)
      && forallb (fun kv => text_ok kv.1 && representable kv.2) members
  end.

(** *** What the round trip rests on

    A number is read back whole when what follows it ends it; in the output
    of [dumps] that is a comma, a closing bracket or brace, or the end. *)
Definition ends_number (r : string) : bool :=
  match r with
  | EmptyString => true
  | String c _ => (Ascii.eqb c "," || Ascii.eqb c "]" || Ascii.eqb c "}")%char
  end.

Definition closing (next : option token) : bool :=
  match next with
  | None | Some T_comma | Some T_rbracket | Some T_rbrace => true
  | _ => false
  end.

(** A token that the lexer reads back from its rendering, given the token
    after it, or the text after it. *)
Definition tok_ok (t : token) (next : option token) : bool :=
  match t with
  | T_int _ => closing next
  | T_float _ => false
  | T_str s => text_ok s
  | _ => true
  end.

Fixpoint well_delimited (ts : list token) : bool :=
  match ts with
  | [] => true
  | t :: ts' => tok_ok t (head ts') && well_delimited ts'
  end.

Definition token_ok (t : token) (r : string) : Prop :=
  match t with
  | T_int _ => ends_number r = true
  | T_float _ => False
  | T_str s => text_ok s = true
  | _ => True
  end.

(** The first token of a value. *)
Definition starts_value (ts : list token) : bool :=
  match ts with
  | [] | T_rbracket :: _ | T_rbrace :: _ | T_comma :: _ | T_colon :: _ => false
  | _ => true
  end.

(** No object in the value is beyond [json]. *)
Fixpoint serialisable (v : value) : bool :=
  match v with
  | Opaque _ => false
  | Arr items => forallb serialisable items
  | Obj members => forallb (fun kv => serialisable kv.2) members
  | _ => true
  end.

(** The items of a list, a comma between two, and the closing bracket. *)
Definition elements_with (tokens : value -> option (list token))
  : list value -> option (list token) :=
  fix elements (l : list value) : option (list token) :=
    match l with
    | [] => Some [T_rbracket]
    | x :: l' =>
        match tokens x, elements l' with
        | Some tx, Some tl =>
            Some (tx ++ match l' with [] => tl | _ => T_comma :: tl end)%list
        | _, _ => None
        end
    end.

(** The members of a dict, likewise, each a key, a colon and a value. *)
Definition pairs_with (tokens : value -> option (list token))
  : list (text * value) -> option (list token) :=
  fix pairs (l : list (text * value)) : option (list token) :=
    match l with
    | [] => Some [T_rbrace]
    | (k, x) :: l' =>
        match tokens x, pairs l' with
        | Some tx, Some tl =>
            Some (T_str k :: T_colon :: tx
                    ++ match l' with [] => tl | _ => T_comma :: tl end)%list
        | _, _ => None
        end
    end.

Section Floats.

(** How [json] writes a [float] ([repr], or [NaN] and [Infinity]) and how
    it reads a floating-point literal ([float(...)]). *)
Variable float_repr : pyfloat -> string.
Variable float_of_literal : string -> pyfloat.

(** The tokens of a value; [None] when an object in it is not
    serialisable. *)
Fixpoint tokens (v : value) : option (list token) :=
  match v with
  | Null => Some [T_null]
  | Bool true => Some [T_true]
  | Bool false => Some [T_false]
  | Int z => Some [T_int z]
  | Float f => Some [T_float (float_repr f)]
  | Str s => Some [T_str s]
  | Arr items =>
      match elements_with tokens items with
      | Some ts => Some (T_lbracket :: ts)
      | None => None
      end
  | Obj members =>
      match pairs_with tokens members with
      | Some ts => Some (T_lbrace :: ts)
      | None => None
      end
  | Opaque _ => None
  end.

(** [json.dumps(value)] *)
Definition dumps (v : value) : result string :=
  match tokens v with
  | Some ts => Ok (render ts)
  | None => Raise TypeError
  end.

(** A value at the head of [ts], and the tokens after it; [fuel] bounds the
    number of nested and successive calls. *)
Fixpoint parse_value (fuel : nat) (ts : list token)
  : option (value * list token) :=
  match fuel with
  | O => None
  | S fuel' =>
      match ts with
      | T_null :: r => Some (Null, r)
      | T_true :: r => Some (Bool true, r)
      | T_false :: r => Some (Bool false, r)
      | T_int z :: r => Some (Int z, r)
      | T_float s :: r => Some (Float (float_of_literal s), r)
      | T_str s :: r => Some (Str s, r)
      | T_lbracket :: T_rbracket :: r => Some (Arr [], r)
      | T_lbracket :: r =>
          match parse_elements fuel' r with
          | Some (l, r') => Some (Arr l, r')
          | None => None
          end
      | T_lbrace :: T_rbrace :: r => Some (Obj [], r)
      | T_lbrace :: r =>
          match parse_members fuel' r with
          | Some (l, r') => Some (Obj (dict_of l), r')
          | None => None
          end
      | _ => None
      end
  end
with parse_elements (fuel : nat) (ts : list token)
  : option (list value * list token) :=
  match fuel with
  | O => None
  | S fuel' =>
      match parse_value fuel' ts with
      | Some (v, T_comma :: r) =>
          match parse_elements fuel' r with
          | Some (l, r') => Some (v :: l, r')
          | None => None
          end
      | Some (v, T_rbracket :: r) => Some ([v], r)
      | _ => None
      end
  end
with parse_members (fuel : nat) (ts : list token)
  : option (list (text * value) * list token) :=
  match fuel with
  | O => None
  | S fuel' =>
      match ts with
      | T_str k :: T_colon :: r =>
          match parse_value fuel' r with
          | Some (v, T_comma :: r') =>
              match parse_members fuel' r' with
              | Some (l, r'') => Some ((k, v) :: l, r'')
              | None => None
              end
          | Some (v, T_rbrace :: r') => Some ([(k, v)], r')
          | _ => None
          end
      | _ => None
      end
  end.

(** [json.loads(s)]: one value, and nothing after it. *)
Definition loads (s : string) : result value :=
  match lex (S (String.length s)) s with
  | None => Raise ValueError
  | Some ts =>
      match parse_value (S (List.length ts)) ts with
      | Some (v, []) => Ok v
      | _ => Raise ValueError
      end
  end.

(** A run of a parser that consumes some tokens [used] of [ts] to give [a],
    and gives it with any fuel above their number. *)
Definition enough {A : Type}
    (parse : nat -> list token -> option (A * list token))
    (ts : list token) (a : A) (r : list token) : Prop :=
  exists used : list token,
    ts = (used ++ r)%list /\ 0 < List.length used /\
    forall f', List.length used < f' -> parse f' ts = Some (a, r).

(** The text holds one JSON value and nothing else: some run of the lexer
    and of the parser reads it.  Text that is not well formed is
    malformed. *)
Definition well_formed (s : string) : Prop :=
  exists (f1 f2 : nat) (ts : list token) (v : value),
    lex f1 s = Some ts /\ parse_value f2 ts = Some (v, []).

(** [ts] are tokens of [v]: they keep a token list well delimited, and the
    parser reads [v] back from them. *)
Definition parses (v : value) (ts : list token) : Prop :=
  starts_value ts = true /\
  (forall next, closing (head next) = true -> well_delimited next = true ->
     well_delimited (ts ++ next) = true) /\
  (forall fuel r, List.length ts < fuel ->
     parse_value fuel (ts ++ r)%list = Some (v, r)).

Definition roundtrips (v : value) : Prop :=
  representable v = true ->
  exists ts, tokens v = Some ts /\ parses v ts.

End Floats.


End Json.

(** [JSONEncoded]: the stored column value is a text or [NULL]. *)
Module JSONEncoded.
Section Codec.

Variable float_repr : pyfloat -> string.
Variable float_of_literal : string -> pyfloat.

(** The SQL dialect in use; both methods ignore it. *)
Variable dialect : Type.

(** [impl = Text] *)
Definition impl : column_type := Text.
Definition column_type_ : column_type := TypeDecorator "JSONEncoded" impl.

(** [JSONEncoded.process_bind_param(value, dialect)] *)
Definition process_bind_param (value : Json.value) (_ : dialect)
  : result (option string) :=
  match value with
  | Json.Null => Ok None
  | _ =>
      match Json.dumps float_repr value with
      | Ok s => Ok (Some s)
      | Raise e => Raise e
      end
  end.

(** [JSONEncoded.process_result_value(value, dialect)] *)
Definition process_result_value (value : option string) (_ : dialect)
  : result Json.value :=
  match value with
  | None => Ok Json.Null
  | Some s => Json.loads float_of_literal s
  end.

End Codec.
End JSONEncoded.

(** ** Sample instances

    The instances the examples of the specification speak of. *)

Module Samples.
Import Models.

Definition uuid40 : string := "aaaaaaaaaaaaaaaaaaaaaaaaaaaaaaaaaaaaaaaa".

(** [Fan(status=True, uuid='a'*40, gateway_id=7)], not yet stored. *)
Definition fan_on : instance :=
  mk_instance (mapper_of Fan)
    (<["status" := VBool true]>
       (<["uuid" := VStr uuid40]> (<["gateway_id" := VInt 7]> ∅))).

(** The same with [status] wrongly set to the integer [1]. *)
Definition fan_bad : instance :=
  mk_instance (mapper_of Fan)
    (<["status" := VInt 1]>
       (<["uuid" := VStr uuid40]> (<["gateway_id" := VInt 7]> ∅))).

(** 2024-01-15 10:30:00 UTC *)
Definition instant : datetime := mk_datetime 2024 1 15 10 30 0 0.

(** A stored sensor type, resource and user; the user holds its resource
    in an attribute of its own, the resource its sensor type. *)
Definition sensor_type_1 : instance :=
  mk_instance (mapper_of SensorType)
    (<["id" := VInt 1]> (<["type" := VStr "fan"]> ∅)).

Definition resource_2 : instance :=
  mk_instance (mapper_of Resource)
    (<["id" := VInt 2]>
       (<["created_at" := VDatetime instant]>
          (<["path" := VStr "/a/fan"]>
             (<["sensor_type_id" := VInt 1]>
                (<["sensor_type" := VEntity 1%positive]>
                   (<["_sa_instance_state" := VObject "InstanceState"]> ∅)))))).

Definition user_3 : instance :=
  mk_instance (mapper_of User)
    (<["id" := VInt 3]>
       (<["username" := VStr "ann"]>
          (<["resource" := VEntity 2%positive]>
             (<["_sa_instance_state" := VObject "InstanceState"]> ∅)))).

(** The store of the chain [user_3] to [resource_2] to [sensor_type_1]. *)
Definition chain_store : store :=
  <[1%positive := sensor_type_1]>
    (<[2%positive := resource_2]> (<[3%positive := user_3]> ∅)).

(** Two instances that hold each other. *)
Definition gateway_4 : instance :=
  mk_instance (mapper_of Gateway)
    (<["name" := VStr "home"]> (<["owner" := VEntity 5%positive]> ∅)).

Definition user_5 : instance :=
  mk_instance (mapper_of User)
    (<["username" := VStr "bob"]> (<["gateway" := VEntity 4%positive]> ∅)).

Definition cycle_store : store :=
  <[4%positive := gateway_4]> (<[5%positive := user_5]> ∅).

Definition sample_repr (v : pyvalue) : string :=
  match v with
  | VInt 1 => "1"
  | _ => "<value>"
  end.

Definition sample_type_str (t : column_type) : string :=
  match t with
  | Boolean => "BOOLEAN"
  | _ => "<type>"
  end.

Definition sample_format (d : datetime) : string := "2024-01-15 10:30:00".

(** A structured value for a JSON field: a dict with the text
    [fan 1], the [1] in double quotes and a line feed after it, under
    [name], and the list [0, 12, -3, null, true] under [levels]; and a
    value that holds a date-time. *)
Definition payload : Json.value :=
  Json.Obj
    [([110; 97; 109; 101]%N,
      Json.Str [102; 97; 110; 32; 34; 49; 34; 10]%N);
     ([108; 101; 118; 101; 108; 115]%N,
      Json.Arr [Json.Int 0; Json.Int 12; Json.Int (-3); Json.Null;
                Json.Bool true])].

Definition payload_with_date : Json.value :=
  Json.Arr [Json.Int 1; Json.Opaque "datetime"].

Definition sample_float_repr (f : pyfloat) : string := "0.0".
Definition sample_float_of_literal (s : string) : pyfloat := F_finite 0 0.

Inductive sample_dialect := mysql.

End Samples.

(** ** Constructors

    Every model defines [__init__] with keyword parameters, all of them
    optional, and stores each argument in an attribute of [self]. *)

Module Constructors.
Import HelperMixin Models.

(** The parameters of [__init__] after [self], each with its default:
    [None], but [False] for [status] of [Gateway]. *)
Definition init_params (m : model) : list (string * pyvalue) :=
  match m with
  | User => [("username", VNone); ("password", VNone); ("gateway_id", VNone)]
  | Fan | Button | Led | Buzzer | Motion | Gas =>
      [("uuid", VNone); ("status", VNone); ("gateway_id", VNone)]
  | Temperature =>
      [("uuid", VNone); ("temperature", VNone); ("units", VNone);
       ("range", VNone); ("gateway_id", VNone)]
  | Rgbled =>
      [("uuid", VNone); ("rgbvalue", VNone); ("range", VNone);
       ("gateway_id", VNone)]
  | Illuminance =>
      [("uuid", VNone); ("illuminance", VNone); ("gateway_id", VNone)]
  | Solar =>
      [("uuid", VNone); ("status", VNone); ("gateway_id", VNone);
       ("tiltpercentage", VNone); ("lcd_first", VNone); ("lcd_second", VNone)]
  | Power | Energy =>
      [("uuid", VNone); ("value", VNone); ("gateway_id", VNone)]
  | EventLog =>
      [("type", VNone); ("data", VNone); ("response_code", VNone)]
  | SmsHistroy => [("uuid", VNone); ("gateway_id", VNone)]
  | Gateway =>
      [("name", VNone); ("url", VNone); ("address", VNone);
       ("latitude", VNone); ("longitude", VNone); ("status", VBool false)]
  | Resource =>
      [("uuid", VNone); ("sensor_type_id", VNone); ("path", VNone);
       ("status", VNone)]
  | SensorType => [("sensor_type", VNone)]
  end.

(** The body of [__init__]: the assignments [self.attribute = parameter],
    in the order they are written, as (attribute, parameter). *)
Definition init_body (m : model) : list (string * string) :=
  match m with
  | User =>
      [("username", "username"); ("password", "password");
       ("gateway_id", "gateway_id")]
  | Fan | Button | Led | Buzzer | Motion | Gas =>
      [("status", "status"); ("uuid", "uuid"); ("gateway_id", "gateway_id")]
  | Temperature =>
      [("temperature", "temperature"); ("units", "units"); ("range", "range");
       ("uuid", "uuid"); ("gateway_id", "gateway_id")]
  | Rgbled =>
      [("rgbvalue", "rgbvalue"); ("range", "range"); ("uuid", "uuid");
       ("gateway_id", "gateway_id")]
  | Illuminance =>
      [("illuminance", "illuminance"); ("uuid", "uuid");
       ("gateway_id", "gateway_id")]
  | Solar =>
      [("status", "status"); ("uuid", "uuid"); ("gateway_id", "gateway_id");
       ("tiltpercentage", "tiltpercentage"); ("lcd_first", "lcd_first");
       ("lcd_second", "lcd_second")]
  | Power | Energy =>
      [("value", "value"); ("uuid", "uuid"); ("gateway_id", "gateway_id")]
  | EventLog =>
      [("type", "type"); ("data", "data"); ("response_code", "response_code")]
  | SmsHistroy => [("uuid", "uuid"); ("gateway_id", "gateway_id")]
  | Gateway =>
      [("name", "name"); ("url", "url"); ("address", "address");
       ("latitude", "latitude"); ("longitude", "longitude");
       ("status", "status")]
  | Resource =>
      [("uuid", "uuid"); ("sensor_type_id", "sensor_type_id");
       ("path", "path"); ("status", "status")]
  | SensorType => [("type", "sensor_type")]
  end.

(** How Python binds the arguments of a call to parameters that all have
    a default: the positional arguments to the first parameters, in order;
    each keyword to the parameter of that name; the default to a parameter
    left without an argument.  [TypeError] when there are more positional
    arguments than parameters, and when a keyword names no parameter or one
    that a positional argument has taken. *)
Definition bind_arguments (params : list (string * pyvalue))
    (args : list pyvalue) (kwargs : gmap string pyvalue)
  : result (gmap string pyvalue) :=
  if Nat.ltb (List.length params) (List.length args) then Raise TypeError
  else
    let taken := zip params.*1 args in
    let free := drop (List.length args) params.*1 in
    if forallb (fun k => bool_decide (k ∈ free)) (dict_keys kwargs)
    then Ok (kwargs ∪ (list_to_map taken ∪ list_to_map params))
    else Raise TypeError.

(** [self.key = value] on a mapped instance: the value goes into
    [__dict__], also when it is [None]. *)
Definition setattr (self : instance) (key : string) (value : pyvalue)
  : instance :=
  mk_instance (mapper self) (<[key := value]> (attrs self)).

Definition setattr_m (key : string) (value : pyvalue) : M unit :=
  fun self => (Ok tt, setattr self key value).

(** [self.attribute = parameter], read in the bound arguments. *)
Definition assign (locals : gmap string pyvalue) (ap : string * string)
  : M unit :=
  setattr_m ap.1 (default VNone (locals !! ap.2)).

(** [M.__init__(self, *args, **kwargs)] *)
Definition __init__ (m : model) (args : list pyvalue)
    (kwargs : gmap string pyvalue) : M unit :=
  fun self =>
    match bind_arguments (init_params m) args kwargs with
    | Raise e => (Raise e, self)
    | Ok locals => for_each (assign locals) (init_body m) self
    end.

(** The argument a call gives to parameter [p], by keyword or by
    default. *)
Definition argument (m : model) (kwargs : gmap string pyvalue) (p : string)
  : pyvalue :=
  match kwargs !! p with
  | Some v => v
  | None => default VNone (list_to_map (M := gmap string pyvalue) (init_params m) !! p)
  end.

(** The parameter that the body stores in attribute [k]. *)
Definition stored_parameter (m : model) (k : string) : option string :=
  list_to_map (M := gmap string string) (init_body m) !! k.

(** The columns that the body of [__init__] never assigns. *)
Definition unset_columns (m : model) : list Column :=
  filter (fun c => name c ∉ (init_body m).*1) (columns (mapper_of m)).

(** An object [__init__] has not run on yet: [__dict__] holds at most
    private entries, such as the mapper's [_sa_instance_state]. *)
Definition fresh (self : instance) : Prop :=
  forall k : string, startswith "_" k = false -> attrs self !! k = None.

(** The object that [M(...)] hands to [M.__init__]. *)
Definition blank (m : model) : instance :=
  mk_instance (mapper_of m)
    (<["_sa_instance_state" := VObject "InstanceState"]> ∅).

End Constructors.

(** ** References between the tables *)

Module References.
Import Models.

(** The name of a class, as [relation('Gateway', ...)] writes it. *)
Definition class_name (m : model) : string :=
  match m with
  | User => "User" | Fan => "Fan" | Button => "Button"
  | Temperature => "Temperature" | Rgbled => "Rgbled" | Led => "Led"
  | Buzzer => "Buzzer" | Illuminance => "Illuminance" | Motion => "Motion"
  | Gas => "Gas" | Solar => "Solar" | Power => "Power" | Energy => "Energy"
  | EventLog => "EventLog" | SmsHistroy => "SmsHistroy"
  | Gateway => "Gateway" | Resource => "Resource"
  | SensorType => "SensorType"
  end.

(** ['table.column'] cut at its first dot. *)
Fixpoint cut_at_dot (s : string) : option (string * string) :=
  match s with
  | EmptyString => None
  | String c rest =>
      if Ascii.eqb c "." then Some (EmptyString, rest)
      else
        match cut_at_dot rest with
        | Some (t, col) => Some (String c t, col)
        | None => None
        end
  end.

Definition model_of_table (t : string) : option model :=
  find (fun m => String.eqb (table_name m) t) all_models.

Definition model_of_class (c : string) : option model :=
  find (fun m => String.eqb (class_name m) c) all_models.

(** The table and the column a foreign key points to. *)
Definition referenced (fk : ForeignKey) : option (model * Column) :=
  match cut_at_dot (fk_target fk) with
  | Some (t, col) =>
      match model_of_table t with
      | Some m =>
          match column_named m col with
          | Some c => Some (m, c)
          | None => None
          end
      | None => None
      end
  | None => None
  end.

(** The attributes [m] has through [relation]: those it declares, and the
    [backref] of every relation whose target it is. *)
Definition relation_attributes (m : model) : list string :=
  (map rel_name (declared_relations m) ++
   flat_map (fun m' =>
      map rel_backref
        (filter (fun r => rel_target r = class_name m) (declared_relations m')))
     all_models)%list.

End References.

(** ** More sample instances *)

Module Scenarios.
Import Models.

(** A fan after [setattr(fan, '', 0)]: an attribute with the empty name. *)
Definition nameless : instance :=
  mk_instance (mapper_of Fan)
    (<["" := VInt 0]> (<["status" := VBool true]> ∅)).

(** A gateway that holds its users in a list, as the [backref] of
    [User.gateway] does, and the one user in it, which holds the gateway. *)
Definition gateway_6 : instance :=
  mk_instance (mapper_of Gateway)
    (<["name" := VStr "lab"]> (<["user" := VList [VEntity 7%positive]]> ∅)).

Definition user_7 : instance :=
  mk_instance (mapper_of User)
    (<["username" := VStr "eve"]> (<["gateway" := VEntity 6%positive]> ∅)).

Definition list_store : store :=
  <[6%positive := gateway_6]> (<[7%positive := user_7]> ∅).

(** A user whose gateway has an attribute with the empty name. *)
Definition gateway_8 : instance :=
  mk_instance (mapper_of Gateway)
    (<["" := VInt 0]> (<["name" := VStr "attic"]> ∅)).

Definition user_9 : instance :=
  mk_instance (mapper_of User)
    (<["username" := VStr "dan"]> (<["gateway" := VEntity 8%positive]> ∅)).

Definition broken_store : store :=
  <[8%positive := gateway_8]> (<[9%positive := user_9]> ∅).

End Scenarios.

(** * Properties *)

(** ** Type compatibility *)

Section TypeCompatible.
Import HelperMixin.

Lemma type_compatible_None (T : column_type) :
  type_compatible VNone T = true.
Proof. reflexivity. Qed.

Lemma type_compatible_no_python_type (T : column_type) (v : pyvalue) :
  python_type T = None -> type_compatible v T = true.
Proof.
  intros HT. unfold type_compatible. rewrite HT.
  by destruct (is_None v).
Qed.

(** The rules after the first two, on the native type itself. *)
Lemma type_compatible_native (T : column_type) (cpt : pytype) (v : pyvalue) :
  python_type T = Some cpt -> is_None v = false ->
  type_compatible v T =
    if isinstance v cpt then true
    else if type_is cpt t_Decimal then type_in v [t_float; t_int]
    else if issubclass cpt t_basestring then isinstance v t_basestring
    else if existsb (type_is cpt) [t_int; t_long] then type_in v [t_int; t_long]
    else if type_is cpt t_float then type_in v [t_float; t_int]
    else if type_is cpt t_bool then type_in v [t_bool]
    else false.
Proof.
  intros HT Hv. unfold type_compatible. by rewrite Hv, HT.
Qed.

Lemma type_is_true (a b : pytype) : type_is a b = true <-> a = b.
Proof. unfold type_is. apply bool_decide_eq_true. Qed.

Lemma type_is_false (a b : pytype) : type_is a b = false <-> a <> b.
Proof. unfold type_is. apply bool_decide_eq_false. Qed.

Lemma is_None_false (v : pyvalue) : is_None v = false <-> v <> VNone.
Proof. destruct v; simpl; split; congruence. Qed.

(** [issubclass] is the reflexive and transitive closure of the direct base
    class. *)
Lemma issubclass_refl (a : pytype) : issubclass a a = true.
Proof. unfold issubclass, type_is. by rewrite bool_decide_eq_true_2. Qed.

Lemma issubclass_base (a a1 b : pytype) :
  base a = Some a1 -> issubclass a1 b = true -> issubclass a b = true.
Proof.
  intros Ha Hb. unfold issubclass in *. rewrite Ha.
  apply orb_true_iff. right.
  destruct a; try discriminate Ha; injection Ha as <-;
    cbn [base] in *; unfold type_is in *;
    repeat (case_bool_decide; subst; try done); simpl in *; try done.
Qed.

Lemma issubclass_rtc (a b : pytype) :
  issubclass a b = true <-> rtc (fun x y => base x = Some y) a b.
Proof.
  split.
  - unfold issubclass, type_is. intros H.
    apply orb_true_iff in H as [->%bool_decide_eq_true|H]; [apply rtc_refl|].
    destruct (base a) as [a1|] eqn:Ha; [|done].
    apply rtc_l with a1; [done|].
    apply orb_true_iff in H as [->%bool_decide_eq_true|H]; [apply rtc_refl|].
    destruct (base a1) as [a2|] eqn:Ha1; [|done].
    apply rtc_l with a2; [done|].
    apply orb_true_iff in H as [->%bool_decide_eq_true|H]; [apply rtc_refl|].
    destruct (base a2) as [a3|] eqn:Ha2; [|done].
    apply rtc_l with a3; [done|].
    apply bool_decide_eq_true in H as ->. apply rtc_refl.
  - induction 1 as [x|x y z Hxy _ IH]; [apply issubclass_refl|].
    by apply (issubclass_base x y z).
Qed.

(** A value of exactly the type [t] passes the test [type(value) in ts]
    when [t] is listed. *)
Ltac by_type v :=
  destruct v; simpl in *; try discriminate; try congruence; try reflexivity.

(** C2. [None] is compatible with every declared type, and a declared type
    without a native Python type accepts every value. *)
Theorem type_compatible_permissive :
  (forall T : column_type, type_compatible VNone T = true) /\
  (forall (T : column_type) (v : pyvalue),
     python_type T = None -> type_compatible v T = true).
Proof.
  split.
  - apply type_compatible_None.
  - apply type_compatible_no_python_type.
Qed.

Lemma type_compatible_permissive_witness :
  type_compatible (VInt 1) NullType = true /\
  type_compatible (VStr "x") (UserType "Opaque" None) = true.
Proof.
  split; apply (proj2 type_compatible_permissive); reflexivity.
Defined.

(** C1, as stated, fails: a [long] is an integer, and a decimal or
    floating-point column rejects it. *)
Lemma long_rejected_by_decimal_and_float :
  type_of (VLong 3) = t_long /\
  python_type (DOUBLE 20 15) = Some t_Decimal /\
  type_compatible (VLong 3) (DOUBLE 20 15) = false /\
  python_type Float = Some t_float /\
  type_compatible (VLong 3) Float = false.
Proof. repeat split. Qed.

(** C1, amended.  A decimal or floating-point column accepts a value whose
    type is exactly [int] or [float], and rejects a [long] and a [bool]; an
    integer column rejects a [float]; a boolean column accepts a [bool] and
    nothing else but [None]; and a value that none of the rules 1 to 8
    accepts is incompatible. *)
Theorem type_compatible_leniency :
  (forall (T : column_type) (v : pyvalue),
     python_type T = Some t_Decimal ->
     type_of v = t_int \/ type_of v = t_float ->
     type_compatible v T = true) /\
  (forall (T : column_type) (n : Z) (b : bool),
     python_type T = Some t_Decimal ->
     type_compatible (VLong n) T = false /\
     type_compatible (VBool b) T = false) /\
  (forall (T : column_type) (v : pyvalue),
     python_type T = Some t_float ->
     type_of v = t_int \/ type_of v = t_float ->
     type_compatible v T = true) /\
  (forall (T : column_type) (n : Z) (b : bool),
     python_type T = Some t_float ->
     type_compatible (VLong n) T = false /\
     type_compatible (VBool b) T = false) /\
  (type_compatible (VInt 3) Float = true /\
   type_compatible (VFloat (F_finite 7 (-1))) Float = true) /\
  (forall (T : column_type) (f : pyfloat),
     python_type T = Some t_int -> type_compatible (VFloat f) T = false) /\
  (type_compatible (VFloat (F_finite 3 0)) Integer = false /\
   type_compatible (VInt 3) Integer = true) /\
  (forall (T : column_type) (v : pyvalue),
     python_type T = Some t_bool -> v <> VNone ->
     (type_compatible v T = true <-> exists b, v = VBool b)) /\
  (type_compatible (VInt 1) Boolean = false /\
   type_compatible (VBool true) Boolean = true) /\
  (forall (T : column_type) (cpt : pytype) (v : pyvalue),
     python_type T = Some cpt ->
     v <> VNone ->
     isinstance v cpt = false ->
     (cpt = t_Decimal -> type_in v [t_float; t_int] = false) ->
     (issubclass cpt t_basestring = true -> isinstance v t_basestring = false) ->
     (cpt = t_int \/ cpt = t_long -> type_in v [t_int; t_long] = false) ->
     (cpt = t_float -> type_in v [t_float; t_int] = false) ->
     (cpt = t_bool -> type_in v [t_bool] = false) ->
     type_compatible v T = false).
Proof.
  repeat apply conj; try reflexivity.
  - intros T v HT Hv. unfold type_compatible. rewrite HT.
    destruct Hv; by_type v.
  - intros T n b HT. unfold type_compatible. rewrite HT. by split.
  - intros T v HT Hv. unfold type_compatible. rewrite HT.
    destruct Hv; by_type v.
  - intros T n b HT. unfold type_compatible. rewrite HT. by split.
  - intros T f HT. unfold type_compatible. by rewrite HT.
  - intros T v HT Hv. unfold type_compatible. rewrite HT. split.
    + intros H. destruct v; simpl in H; try discriminate; try congruence.
      by eexists.
    + by intros [b ->].
  - intros T cpt v HT Hv Hinst Hdec Hstr Hint Hflt Hbool.
    apply is_None_false in Hv.
    rewrite (type_compatible_native T cpt v HT Hv), Hinst.
    destruct (type_is cpt t_Decimal) eqn:E1.
    { apply Hdec. by apply type_is_true. }
    destruct (issubclass cpt t_basestring) eqn:E2.
    { by apply Hstr. }
    destruct (existsb (type_is cpt) [t_int; t_long]) eqn:E3.
    { apply Hint. simpl in E3. rewrite orb_false_r in E3.
      apply orb_true_iff in E3 as [E3|E3]; apply type_is_true in E3; auto. }
    destruct (type_is cpt t_float) eqn:E4.
    { apply Hflt. by apply type_is_true. }
    destruct (type_is cpt t_bool) eqn:E5.
    { apply Hbool. by apply type_is_true. }
    reflexivity.
Qed.

Lemma type_compatible_leniency_witness :
  type_compatible (VInt 3) (DOUBLE 20 15) = true /\
  type_compatible (VLong 3) Numeric = false /\
  type_compatible (VFloat (F_finite 7 (-1))) Float = true /\
  type_compatible (VBool true) Float = false /\
  type_compatible (VFloat (F_finite 3 0)) Integer = false /\
  (type_compatible (VBool false) Boolean = true <-> exists b, VBool false = VBool b) /\
  type_compatible (VStr "on") Boolean = false.
Proof.
  pose proof type_compatible_leniency
    as (Hdec & Hdec' & Hflt & Hflt' & _ & Hint & _ & Hbool & _ & Hrest).
  split; [apply Hdec; [reflexivity | left; reflexivity]|].
  split; [apply (Hdec' Numeric 3%Z true); reflexivity|].
  split; [apply Hflt; [reflexivity | right; reflexivity]|].
  split; [apply (Hflt' Float 0%Z true); reflexivity|].
  split; [apply Hint; reflexivity|].
  split; [apply Hbool; [reflexivity | discriminate]|].
  apply (Hrest Boolean t_bool); try reflexivity; discriminate.
Defined.

(** C10. An integer column accepts a [bool]: the exact-type step uses
    [isinstance], and [bool] is a subclass of [int].  The separation that a
    boolean column enforces does not hold the other way round. *)
Theorem type_compatible_bool_on_integer :
  type_compatible (VBool true) Integer = true /\
  issubclass t_bool t_int = true /\
  (forall (T : column_type) (b : bool),
     python_type T = Some t_int ->
     isinstance (VBool b) t_int = true /\ type_compatible (VBool b) T = true) /\
  (forall n : Z, type_compatible (VInt n) Boolean = false).
Proof.
  repeat apply conj; try reflexivity.
  intros T b HT. unfold type_compatible. by rewrite HT.
Qed.

Lemma type_compatible_bool_on_integer_witness :
  isinstance (VBool false) t_int = true /\
  type_compatible (VBool false) Integer = true.
Proof.
  apply (proj1 (proj2 (proj2 type_compatible_bool_on_integer)) Integer false).
  reflexivity.
Defined.

End TypeCompatible.

(** ** Validation *)

Section Validation.
Import HelperMixin.

Variable repr : pyvalue -> string.
Variable type_str : column_type -> string.

#[local] Abbreviation check_column := (HelperMixin.check_column repr type_str).

Lemma validate_unfold (self : instance) :
  validate repr type_str self = for_each check_column (columns (mapper self)) self.
Proof. reflexivity. Qed.

Lemma check_column_state (self : instance) (column : Column) :
  (check_column column self).2 = self.
Proof.
  unfold check_column, bind, getattr_m, raise, ret. simpl.
  by destruct (type_compatible _ _).
Qed.

Lemma check_column_ok (self : instance) (column : Column) :
  column_ok self column -> check_column column self = (Ok tt, self).
Proof.
  unfold column_ok, check_column, bind, getattr_m, ret. simpl.
  by intros ->.
Qed.

Lemma check_column_raise (self : instance) (column : Column) :
  type_compatible (getattr self (name column)) (type_ column) = false ->
  check_column column self =
    (Raise (InvalidParameter
       (unexpected_type_message repr type_str column (getattr self (name column)))),
     self).
Proof.
  unfold check_column, bind, getattr_m, raise. simpl.
  by intros ->.
Qed.

Lemma for_each_state (self : instance) (cols : list Column) :
  (for_each check_column cols self).2 = self.
Proof.
  induction cols as [|c cols IH]; [reflexivity|].
  simpl. unfold bind.
  pose proof (check_column_state self c) as Hc.
  destruct (check_column c self) as [[[]|e] self']; simpl in Hc; subst self'.
  - apply IH.
  - reflexivity.
Qed.

Lemma for_each_all_ok (self : instance) (cols : list Column) :
  Forall (column_ok self) cols ->
  for_each check_column cols self = (Ok tt, self).
Proof.
  induction 1 as [|c cols Hc _ IH]; [reflexivity|].
  simpl. unfold bind. by rewrite (check_column_ok _ _ Hc).
Qed.

Lemma for_each_first_bad (self : instance) (pre post : list Column) (c : Column) :
  Forall (column_ok self) pre ->
  type_compatible (getattr self (name c)) (type_ c) = false ->
  for_each check_column (pre ++ c :: post)%list self =
    (Raise (InvalidParameter
       (unexpected_type_message repr type_str c (getattr self (name c)))),
     self).
Proof.
  intros Hpre Hc. induction Hpre as [|c0 pre Hc0 _ IH]; simpl; unfold bind.
  - by rewrite (check_column_raise _ _ Hc).
  - by rewrite (check_column_ok _ _ Hc0).
Qed.

(** C5. [validate] tests the columns in order.  When every value is
    compatible it returns; otherwise it raises [InvalidParameter] for the
    first column whose value is not, with a message made of that column's
    name, the value and the declared type.  Either way the instance is left
    as it was. *)
Theorem validate_first_incompatible (self : instance) :
  (validate repr type_str self).2 = self /\
  (Forall (column_ok self) (columns (mapper self)) ->
   (validate repr type_str self).1 = Ok tt) /\
  (forall (pre post : list Column) (c : Column),
     columns (mapper self) = (pre ++ c :: post)%list ->
     Forall (column_ok self) pre ->
     type_compatible (getattr self (name c)) (type_ c) = false ->
     (validate repr type_str self).1 =
       Raise (InvalidParameter
         ("column " ++ name c ++ " value " ++ repr (getattr self (name c))
            ++ " type is unexpected: " ++ type_str (type_ c)))).
Proof.
  rewrite validate_unfold. repeat apply conj.
  - apply for_each_state.
  - intros Hall. by rewrite for_each_all_ok.
  - intros pre post c -> Hpre Hc. by rewrite for_each_first_bad.
Qed.

End Validation.

Lemma validate_first_incompatible_witness :
  (HelperMixin.validate Samples.sample_repr Samples.sample_type_str Samples.fan_on).1
    = Ok tt /\
  (HelperMixin.validate Samples.sample_repr Samples.sample_type_str Samples.fan_bad).1
    = Raise (InvalidParameter
        "column status value 1 type is unexpected: BOOLEAN").
Proof.
  split.
  - apply (validate_first_incompatible
             Samples.sample_repr Samples.sample_type_str Samples.fan_on).
    repeat constructor.
  - apply (proj2 (proj2 (validate_first_incompatible
             Samples.sample_repr Samples.sample_type_str Samples.fan_bad))
             [Models.DefaultMixin_id; Models.DefaultMixin_created_at;
              Models.uuid_fk]
             [Models.gateway_fk]
             (Models.plain "status" Boolean)).
    + reflexivity.
    + repeat constructor.
    + reflexivity.
Defined.

(** ** The flat projection *)

Section Projection.
Import HelperMixin.

Variable format_datetime : datetime -> string.

#[local] Abbreviation render_datetime := (HelperMixin.render_datetime format_datetime).
#[local] Abbreviation to_dict := (HelperMixin.to_dict format_datetime).

(** A loop that sets [val key] under each [key] that [cond] keeps. *)
Lemma foldl_insert_lookup {V : Type}
    (step : gmap string V -> string -> gmap string V)
    (cond : string -> bool) (val : string -> V) :
  (forall d key, step d key = if cond key then <[key := val key]> d else d) ->
  forall (ks : list string) (d0 : gmap string V) (k : string),
    foldl step d0 ks !! k =
      if bool_decide (k ∈ ks) && cond k then Some (val k) else d0 !! k.
Proof.
  intros Hstep. induction ks as [|a ks IH]; intros d0 k; simpl.
  - reflexivity.
  - rewrite IH, Hstep.
    rewrite (bool_decide_ext _ _ (elem_of_cons ks k a)), bool_decide_or.
    destruct (bool_decide (k ∈ ks)); simpl;
      rewrite ?orb_true_r, ?orb_false_r; simpl;
      (destruct (decide (k = a)) as [->|Hk];
       [ rewrite ?bool_decide_eq_true_2 by done; simpl;
         destruct (cond a); by rewrite ?lookup_insert_eq
       | rewrite ?bool_decide_eq_false_2 by done; simpl;
         destruct (cond a), (cond k); by rewrite ?lookup_insert_ne ]).
Qed.

(** [isinstance(value, datetime.datetime)] singles out the date-times. *)
Lemma isinstance_datetime (v : pyvalue) :
  isinstance v t_datetime = true <-> exists d, v = VDatetime d.
Proof.
  split.
  - destruct v; try discriminate; eauto.
  - by intros [d ->].
Qed.

Lemma render_datetime_not_None (v : pyvalue) :
  v <> VNone -> render_datetime v <> VNone.
Proof. by destruct v. Qed.

Lemma to_dict_lookup (self : instance) (k : string) :
  to_dict self !! k =
    if bool_decide (k ∈ keys (mapper self)) && projected self k
    then Some (render_datetime (getattr self k))
    else None.
Proof.
  unfold HelperMixin.to_dict.
  rewrite (foldl_insert_lookup _ (projected self)
             (fun key => render_datetime (getattr self key))).
  - by rewrite lookup_empty.
  - intros d key. unfold projected.
    destruct (startswith "_" key); [reflexivity|].
    by destruct (is_None (getattr self key)).
Qed.

(** C6. [to_dict] is a mapping over the declared columns: a column whose
    value is absent is left out, and so is one whose name starts with an
    underscore; a date-time is rendered by the formatting function; every
    other value appears as it is under its name. *)
Theorem to_dict_projection (self : instance) :
  (forall k : string,
     to_dict self !! k =
       if bool_decide (k ∈ keys (mapper self))
          && negb (startswith "_" k) && negb (is_None (getattr self k))
       then Some (render_datetime (getattr self k))
       else None) /\
  (forall k : string, k ∉ keys (mapper self) -> to_dict self !! k = None) /\
  (forall k : string, getattr self k = VNone -> to_dict self !! k = None) /\
  (forall k : string, to_dict self !! k <> Some VNone) /\
  (forall k : string, startswith "_" k = true -> to_dict self !! k = None) /\
  (forall (k : string) (d : datetime),
     k ∈ keys (mapper self) -> startswith "_" k = false ->
     getattr self k = VDatetime d ->
     to_dict self !! k = Some (VStr (format_datetime d))) /\
  (forall (k : string) (v : pyvalue),
     k ∈ keys (mapper self) -> startswith "_" k = false ->
     getattr self k = v -> v <> VNone -> isinstance v t_datetime = false ->
     to_dict self !! k = Some v).
Proof.
  repeat apply conj.
  - intros k. rewrite to_dict_lookup. unfold projected.
    by rewrite andb_assoc.
  - intros k Hk. rewrite to_dict_lookup.
    by rewrite (bool_decide_eq_false_2 _ Hk).
  - intros k Hk. rewrite to_dict_lookup. unfold projected.
    rewrite Hk. simpl. by rewrite !andb_false_r.
  - intros k. rewrite to_dict_lookup. unfold projected.
    destruct (bool_decide _); simpl; [|done].
    destruct (startswith "_" k); simpl; [done|].
    destruct (getattr self k) eqn:E; simpl; try done.
  - intros k Hk. rewrite to_dict_lookup. unfold projected.
    rewrite Hk. simpl. by rewrite andb_false_r.
  - intros k d Hin Hpub Hv. rewrite to_dict_lookup. unfold projected.
    rewrite (bool_decide_eq_true_2 _ Hin), Hpub, Hv. reflexivity.
  - intros k v Hin Hpub Hv Hnn Hnd. rewrite to_dict_lookup. unfold projected.
    rewrite (bool_decide_eq_true_2 _ Hin), Hpub, Hv.
    destruct v; simpl; try done.
Qed.

End Projection.

Lemma to_dict_projection_witness :
  HelperMixin.to_dict Samples.sample_format Samples.fan_on !! "sensor_type" = None /\
  HelperMixin.to_dict Samples.sample_format Samples.fan_on !! "id" = None /\
  HelperMixin.to_dict Samples.sample_format Samples.resource_2 !! "_sa_instance_state"
    = None /\
  HelperMixin.to_dict Samples.sample_format Samples.resource_2 !! "created_at"
    = Some (VStr "2024-01-15 10:30:00") /\
  HelperMixin.to_dict Samples.sample_format Samples.fan_on !! "status"
    = Some (VBool true).
Proof.
  pose proof (to_dict_projection Samples.sample_format Samples.fan_on)
    as (_ & Hcol & Habs & _ & _ & _ & Hval).
  pose proof (to_dict_projection Samples.sample_format Samples.resource_2)
    as (_ & _ & _ & _ & Hpriv & Hdate & _).
  repeat apply conj.
  - apply Hcol. vm_compute. intros H.
    repeat (apply elem_of_cons in H as [H|H]; [discriminate H|]).
    by apply elem_of_nil in H.
  - apply Habs. reflexivity.
  - apply Hpriv. reflexivity.
  - apply (Hdate "created_at" Samples.instant).
    + vm_compute. do 1 right. left.
    + reflexivity.
    + reflexivity.
  - apply Hval.
    + vm_compute. do 3 right. left.
    + reflexivity.
    + reflexivity.
    + discriminate.
    + reflexivity.
Defined.

(** The scenario of the specification: a fan that is switched on, before it
    is stored. *)
Example to_dict_fan_on :
  HelperMixin.to_dict Samples.sample_format Samples.fan_on =
    <["status" := VBool true]>
      (<["uuid" := VStr Samples.uuid40]> (<["gateway_id" := VInt 7]> ∅)).
Proof. vm_compute. reflexivity. Qed.

(** ** The joined projections *)

Section Joined.
Import HelperMixin.

Variable format_datetime : datetime -> string.

#[local] Abbreviation render_datetime := (HelperMixin.render_datetime format_datetime).
#[local] Abbreviation to_dict := (HelperMixin.to_dict format_datetime).

(** [k[0] == '_'] and [k.startswith('_')] agree on a name that is not
    empty. *)
Lemma key0_startswith (c : ascii) (k : string) :
  Ascii.eqb c "_" = startswith "_" (String c k).
Proof.
  unfold startswith. cbn [String.prefix].
  destruct (ascii_dec "_" c) as [<-|Hne].
  - by destruct k.
  - apply Ascii.eqb_neq. congruence.
Qed.

Lemma public_items_filter (items : list (string * pyvalue)) :
  Forall (fun kv => kv.1 <> "") items ->
  public_items items =
    Ok (filter (fun kv => startswith "_" kv.1 = false) items).
Proof.
  induction 1 as [|[k v] items Hk _ IH]; [reflexivity|].
  simpl in *. destruct k as [|c k]; [done|]. simpl.
  rewrite IH, (key0_startswith c k).
  rewrite filter_cons. simpl.
  by destruct (startswith "_" (String c k)).
Qed.

Lemma public_items_empty_name (items : list (string * pyvalue)) :
  "" ∈ items.*1 -> public_items items = Raise IndexError.
Proof.
  induction items as [|[k v] items IH]; simpl.
  - intros H. by apply elem_of_nil in H.
  - intros H. apply elem_of_cons in H as [H|H].
    + by subst k.
    + destruct k as [|c k]; [reflexivity|]. simpl. by rewrite IH.
Qed.

(** A comprehension over items with distinct keys builds the map of those
    items. *)
Lemma dict_of_items_list_to_map (items : list (string * pyvalue)) :
  NoDup items.*1 -> dict_of_items items = list_to_map items.
Proof.
  intros Hnd. unfold dict_of_items.
  enough (forall d0 : gmap string pyvalue,
            foldl (fun d kv => <[kv.1 := kv.2]> d) d0 items
            = list_to_map items ∪ d0) as Hgen.
  { rewrite Hgen. by rewrite (right_id_L ∅ (∪)). }
  induction items as [|[k v] items IH]; intros d0.
  - simpl. by rewrite (left_id_L ∅ (∪)).
  - rewrite fmap_cons in Hnd. apply NoDup_cons in Hnd as [Hk Hnd].
    cbn [foldl]. rewrite (IH Hnd). rewrite list_to_map_cons.
    apply map_eq. intros i. simpl in Hk.
    rewrite !lookup_union. destruct (decide (i = k)) as [->|Hne].
    + rewrite !lookup_insert_eq.
      rewrite (not_elem_of_list_to_map_1 _ k) by done.
      by destruct (d0 !! k).
    + rewrite !lookup_insert_ne by done. reflexivity.
Qed.

Lemma joined_lookup (self : instance) :
  attrs self !! "" = None ->
  exists j : gmap string pyvalue,
    joined self = Ok j /\
    forall k, j !! k = if startswith "_" k then None else attrs self !! k.
Proof.
  intros Hname. unfold joined.
  assert (Forall (fun kv : string * pyvalue => kv.1 <> "")
            (map_to_list (attrs self))) as Hall.
  { apply Forall_forall. intros [k v] Hkv%elem_of_map_to_list. simpl.
    intros ->. congruence. }
  rewrite (public_items_filter _ Hall). eexists. split; [reflexivity|].
  intros k.
  set (items := filter _ _).
  assert (NoDup items.*1) as Hnd.
  { apply NoDup_fmap_fst.
    - intros k' v1 v2 [_ H1%elem_of_map_to_list]%list_elem_of_filter
        [_ H2%elem_of_map_to_list]%list_elem_of_filter. congruence.
    - apply NoDup_filter, NoDup_map_to_list. }
  rewrite (dict_of_items_list_to_map _ Hnd).
  apply option_eq. intros v.
  rewrite <- (elem_of_list_to_map _ _ _ Hnd).
  unfold items. rewrite list_elem_of_filter, elem_of_map_to_list. simpl.
  destruct (startswith "_" k); intuition congruence.
Qed.

Lemma joined_empty_name (self : instance) :
  is_Some (attrs self !! "") -> joined self = Raise IndexError.
Proof.
  intros [v Hv]. unfold joined. rewrite public_items_empty_name; [done|].
  apply list_elem_of_fmap. exists ("", v). split; [done|].
  by apply elem_of_map_to_list.
Qed.

Lemma elem_of_dict_keys (d : gmap string pyvalue) (k : string) :
  k ∈ dict_keys d <-> is_Some (d !! k).
Proof.
  unfold dict_keys. rewrite list_elem_of_fmap. split.
  - intros [[k' v] [-> H%elem_of_map_to_list]]. by exists v.
  - intros [v Hv]. exists (k, v). split; [done|]. by apply elem_of_map_to_list.
Qed.

Section WithStore.

Variable h : store.

#[local] Abbreviation join_to_dict := (HelperMixin.join_to_dict format_datetime h).

#[local] Abbreviation joined_entry := (HelperMixin.joined_entry format_datetime).

Lemma joined_fold_lookup (self : instance) (j : gmap string pyvalue)
    (step : gmap string pyvalue -> string -> gmap string pyvalue)
    (expand : pyvalue -> pyvalue) (k : string) :
  (forall k, j !! k = if startswith "_" k then None else attrs self !! k) ->
  (forall d key,
     step d key =
       if projected self key
       then <[key := expand (render_datetime (getattr self key))]> d
       else d) ->
  foldl step ∅ (dict_keys j) !! k = joined_entry expand self k.
Proof.
  intros Hj Hstep.
  rewrite (foldl_insert_lookup _ (projected self)
             (fun key => expand (render_datetime (getattr self key)))) by done.
  rewrite lookup_empty. unfold HelperMixin.joined_entry, projected, getattr.
  destruct (attrs self !! k) as [v|] eqn:Hk; simpl.
  - destruct (startswith "_" k) eqn:Hs; simpl.
    + by rewrite andb_false_r.
    + rewrite bool_decide_eq_true_2; [done|].
      apply elem_of_dict_keys. rewrite Hj, Hs, Hk. by eexists.
  - by rewrite !andb_false_r.
Qed.

Lemma join_to_dict_lookup (self : instance) :
  attrs self !! "" = None ->
  exists d : gmap string pyvalue,
    join_to_dict self = Ok d /\
    forall k, d !! k = joined_entry (expand_once format_datetime h) self k.
Proof.
  intros Hname. destruct (joined_lookup self Hname) as (j & Hj & Hlook).
  unfold HelperMixin.join_to_dict. rewrite Hj. eexists. split; [reflexivity|].
  intros k. apply joined_fold_lookup; [done|].
  intros d key. unfold projected.
  destruct (startswith "_" key); [reflexivity|].
  by destruct (is_None (getattr self key)).
Qed.

(** C7. [join_to_dict] projects every public attribute the instance holds,
    whether a column or not, and an attribute that holds an entity appears
    as the [to_dict] of that entity: its columns only, each with the value
    the entity holds, so that what the related entity refers to is not
    expanded in turn. *)
Theorem join_to_dict_one_level (self : instance) :
  attrs self !! "" = None ->
  exists d : gmap string pyvalue,
    join_to_dict self = Ok d /\
    (forall k : string,
       d !! k =
         match attrs self !! k with
         | Some v =>
             if negb (startswith "_" k) && negb (is_None v)
             then Some (expand_once format_datetime h (render_datetime v))
             else None
         | None => None
         end) /\
    (forall (k : string) (v : pyvalue),
       attrs self !! k = Some v -> startswith "_" k = false ->
       v <> VNone -> (forall l, v <> VEntity l) ->
       d !! k = Some (render_datetime v)) /\
    (forall (k : string) (l : loc) (related : instance),
       attrs self !! k = Some (VEntity l) -> startswith "_" k = false ->
       h !! l = Some related ->
       d !! k = Some (VDict (to_dict related)) /\
       (forall (k' : string) (v' : pyvalue),
          to_dict related !! k' = Some v' ->
          k' ∈ keys (mapper related) /\
          v' = render_datetime (getattr related k')) /\
       (forall (k' : string) (l' : loc),
          k' ∈ keys (mapper related) -> startswith "_" k' = false ->
          attrs related !! k' = Some (VEntity l') ->
          to_dict related !! k' = Some (VEntity l'))).
Proof.
  intros Hname. destruct (join_to_dict_lookup self Hname) as (d & Hd & Hlook).
  exists d. split; [done|]. repeat apply conj.
  - intros k. apply Hlook.
  - intros k v Hk Hs Hv Hne. rewrite Hlook. unfold HelperMixin.joined_entry.
    rewrite Hk, Hs. destruct v; simpl; try done. by destruct (Hne l).
  - intros k l related Hk Hs Hl. repeat apply conj.
    + rewrite Hlook. unfold HelperMixin.joined_entry. rewrite Hk, Hs. simpl.
      by rewrite Hl.
    + intros k' v'. rewrite to_dict_lookup.
      destruct (bool_decide _) eqn:E; simpl; [|done].
      apply bool_decide_eq_true in E.
      destruct (projected related k'); [|done]. intros [= <-]. by split.
    + intros k' l' Hin Hs' Hk'. rewrite to_dict_lookup.
      rewrite (bool_decide_eq_true_2 _ Hin). unfold projected, getattr.
      rewrite Hs', Hk'. reflexivity.
Qed.

(** *** The recursive projection *)

#[local] Abbreviation join_to_dict_recurse :=
  (HelperMixin.join_to_dict_recurse format_datetime h).
#[local] Abbreviation recurse_step := (HelperMixin.recurse_step format_datetime h).

Lemma join_to_dict_recurse_unfold (depth : nat) (self : instance) :
  join_to_dict_recurse (S depth) self =
    match joined self with
    | Raise e => Some (Raise e)
    | Ok j =>
        foldl (recurse_step (join_to_dict_recurse depth) self)
          (Some (Ok ∅)) (dict_keys j)
    end.
Proof. reflexivity. Qed.

Section Loop.

Variable rec : instance -> option (result (gmap string pyvalue)).
Variable self : instance.

#[local] Abbreviation expansion := (HelperMixin.expansion format_datetime h rec self).
#[local] Abbreviation settled_fold :=
  (HelperMixin.settled_fold format_datetime h rec self).

Lemma recurse_step_skip (d : gmap string pyvalue) (key : string) :
  projected self key = false ->
  recurse_step rec self (Some (Ok d)) key = Some (Ok d).
Proof.
  unfold HelperMixin.recurse_step, projected.
  destruct (startswith "_" key); [done|].
  by destruct (is_None (getattr self key)).
Qed.

Lemma recurse_step_keep (d : gmap string pyvalue) (key : string) :
  projected self key = true ->
  recurse_step rec self (Some (Ok d)) key =
    match expansion key with
    | Some (Ok v) => Some (Ok (<[key := v]> d))
    | Some (Raise e) => Some (Raise e)
    | None => None
    end.
Proof.
  unfold HelperMixin.recurse_step, projected, HelperMixin.expansion.
  destruct (startswith "_" key); [done|].
  by destruct (is_None (getattr self key)).
Qed.

Lemma recurse_fold_stuck (ks : list string)
    (acc : option (result (gmap string pyvalue))) :
  (forall d, acc <> Some (Ok d)) ->
  foldl (recurse_step rec self) acc ks = acc.
Proof.
  intros Hacc. induction ks as [|a ks IH]; [reflexivity|].
  simpl. destruct acc as [[d|e]|]; [by destruct (Hacc d)|apply IH..].
Qed.

(** The loop returns a mapping when every expansion does, and otherwise
    ends as the first expansion that does not. *)
Lemma recurse_fold_outcome (ks : list string) (d0 : gmap string pyvalue) :
  match foldl (recurse_step rec self) (Some (Ok d0)) ks with
  | Some (Ok d) =>
      (forall key, key ∈ ks -> projected self key = true ->
         exists v, expansion key = Some (Ok v)) /\
      d = settled_fold d0 ks
  | Some (Raise e) =>
      exists key, key ∈ ks /\ projected self key = true /\
        expansion key = Some (Raise e)
  | None =>
      exists key, key ∈ ks /\ projected self key = true /\
        expansion key = None
  end.
Proof.
  revert d0. induction ks as [|a ks IH]; intros d0.
  - simpl. split; [|reflexivity]. intros key Hkey. by apply elem_of_nil in Hkey.
  - cbn [foldl]. unfold HelperMixin.settled_fold. cbn [foldl].
    fold (settled_fold).
    destruct (projected self a) eqn:Ha.
    + rewrite (recurse_step_keep _ _ Ha).
      unfold settled. fold (expansion a).
      destruct (expansion a) as [[v|e]|] eqn:Hexp.
      * specialize (IH (<[a := v]> d0)).
        destruct (foldl _ _ ks) as [[d|e]|].
        -- destruct IH as [Hall ->]. split; [|reflexivity].
           intros key [->|Hkey]%elem_of_cons Hp; eauto.
        -- destruct IH as (key & Hkey & Hp & He). exists key.
           split; [by apply elem_of_cons; right|done].
        -- destruct IH as (key & Hkey & Hp & He). exists key.
           split; [by apply elem_of_cons; right|done].
      * rewrite recurse_fold_stuck by done. exists a.
        split; [by apply elem_of_cons; left|done].
      * rewrite recurse_fold_stuck by done. exists a.
        split; [by apply elem_of_cons; left|done].
    + rewrite (recurse_step_skip _ _ Ha). specialize (IH d0).
      destruct (foldl _ _ ks) as [[d|e]|].
      * destruct IH as [Hall ->]. split; [|reflexivity].
        intros key [->|Hkey]%elem_of_cons Hp; [congruence|eauto].
      * destruct IH as (key & Hkey & Hp & He). exists key.
        split; [by apply elem_of_cons; right|done].
      * destruct IH as (key & Hkey & Hp & He). exists key.
        split; [by apply elem_of_cons; right|done].
Qed.

End Loop.

Lemma getattr_entity (self : instance) (key : string) (l : loc) :
  render_datetime (getattr self key) = VEntity l ->
  attrs self !! key = Some (VEntity l).
Proof.
  unfold getattr. destruct (attrs self !! key) as [v|]; simpl; [|done].
  destruct v; simpl; congruence.
Qed.

Lemma projected_public (self : instance) (key : string) :
  projected self key = true -> startswith "_" key = false.
Proof. unfold projected. by destruct (startswith "_" key). Qed.

(** An expansion that does not return a value comes from a recursive call
    on a stored instance. *)
Lemma expansion_not_ok
    (rec : instance -> option (result (gmap string pyvalue)))
    (self : instance) (key : string) :
  projected self key = true ->
  (forall v, HelperMixin.expansion format_datetime h rec self key <> Some (Ok v)) ->
  exists l related,
    refers h self l /\ h !! l = Some related /\
    HelperMixin.expansion format_datetime h rec self key =
      match rec related with
      | Some (Ok d) => Some (Ok (VDict d))
      | Some (Raise e) => Some (Raise e)
      | None => None
      end.
Proof.
  intros Hp Hno. unfold HelperMixin.expansion, expand_deep in *.
  destruct (render_datetime (getattr self key)) eqn:Hv;
    try (by destruct (Hno _ eq_refl)).
  destruct (h !! l) as [related|] eqn:Hl; [|by destruct (Hno _ eq_refl)].
  exists l, related. split; [|by split].
  exists key. split; [by apply getattr_entity|].
  split; [by apply (projected_public self)|by rewrite Hl].
Qed.

Lemma expansion_refers
    (rec : instance -> option (result (gmap string pyvalue)))
    (self : instance) (key : string) (l : loc) (related : instance) :
  attrs self !! key = Some (VEntity l) -> h !! l = Some related ->
  HelperMixin.expansion format_datetime h rec self key =
    match rec related with
    | Some (Ok d) => Some (Ok (VDict d))
    | Some (Raise e) => Some (Raise e)
    | None => None
    end.
Proof.
  intros Hk Hl. unfold HelperMixin.expansion, expand_deep, getattr.
  rewrite Hk. simpl. by rewrite Hl.
Qed.

(** From an expansion that is known not to return a value, the recursive
    call it made. *)
Tactic Notation "failing_expansion" hyp(Hp) hyp(Hexp)
    "as" simple_intropattern(pat) :=
  match type of Hexp with
  | HelperMixin.expansion _ _ ?rec ?self ?key = _ =>
      destruct (expansion_not_ok rec self key Hp) as pat;
      [intros ?v; rewrite Hexp; discriminate|]
  end.

Section Names.

Hypothesis Hstore : store_names_ok h.

(** With no empty attribute name about, the projection does not raise. *)
Lemma join_to_dict_recurse_no_raise (depth : nat) (self : instance) (e : exn) :
  attrs self !! "" = None ->
  join_to_dict_recurse depth self <> Some (Raise e).
Proof.
  revert self e. induction depth as [|depth IH]; intros self e Hname; [done|].
  rewrite join_to_dict_recurse_unfold.
  destruct (joined_lookup self Hname) as (j & -> & _).
  pose proof (recurse_fold_outcome (join_to_dict_recurse depth) self
                (dict_keys j) ∅) as Hout.
  destruct (foldl _ _ _) as [[d|e']|]; try done.
  intros [= ->]. destruct Hout as (key & _ & Hp & Hexp).
  failing_expansion Hp Hexp as (l & related & _ & Hl & Heq).
  rewrite Hexp in Heq.
  destruct (join_to_dict_recurse depth related) as [[d|e']|] eqn:Hrec;
    try done.
  injection Heq as ->. by apply (IH related e' (Hstore _ _ Hl)).
Qed.

(** Chains of at most [n] references: [n + 1] nested calls are enough. *)
Lemma join_to_dict_recurse_shallow (n : nat) (self : instance) :
  attrs self !! "" = None -> shallow h n self ->
  exists d, join_to_dict_recurse (S n) self = Some (Ok d).
Proof.
  revert self. induction n as [|n IH]; intros self Hname Hsh;
    rewrite join_to_dict_recurse_unfold;
    destruct (joined_lookup self Hname) as (j & -> & _);
    match goal with
    | |- context [foldl (recurse_step ?rec self) _ ?ks] =>
        pose proof (recurse_fold_outcome rec self ks ∅) as Hout
    end;
    destruct (foldl _ _ _) as [[d|e]|]; eauto; exfalso.
  - destruct Hout as (key & _ & Hp & Hexp).
    failing_expansion Hp Hexp as (l & related & Hr & _).
    by apply (Hsh l).
  - destruct Hout as (key & _ & Hp & Hexp).
    failing_expansion Hp Hexp as (l & related & Hr & _).
    by apply (Hsh l).
  - destruct Hout as (key & _ & Hp & Hexp).
    failing_expansion Hp Hexp as (l & related & Hr & Hl & Heq).
    destruct (IH related (Hstore _ _ Hl) (Hsh l related Hr Hl)) as [d Hd].
    rewrite Hexp, Hd in Heq. done.
  - destruct Hout as (key & _ & Hp & Hexp).
    failing_expansion Hp Hexp as (l & related & Hr & Hl & Heq).
    destruct (IH related (Hstore _ _ Hl) (Hsh l related Hr Hl)) as [d Hd].
    rewrite Hexp, Hd in Heq. done.
Qed.

(** A chain of [n] references: [n] nested calls are not enough. *)
Lemma join_to_dict_recurse_deep (n : nat) (self : instance) :
  attrs self !! "" = None -> deep h n self ->
  join_to_dict_recurse n self = None.
Proof.
  revert self. induction n as [|n IH]; intros self Hname Hdeep; [done|].
  destruct Hdeep as (l & related & Hr & Hl & Hdeep).
  specialize (IH related (Hstore _ _ Hl) Hdeep).
  rewrite join_to_dict_recurse_unfold.
  destruct (joined_lookup self Hname) as (j & -> & Hj).
  pose proof (recurse_fold_outcome (join_to_dict_recurse n) self
                (dict_keys j) ∅) as Hout.
  destruct (foldl _ _ _) as [[d|e]|]; [exfalso..|done].
  - destruct Hout as [Hall _]. destruct Hr as (key & Hkey & Hs & _).
    destruct (Hall key) as [v Hv].
    + apply elem_of_dict_keys. rewrite Hj, Hs, Hkey. by eexists.
    + unfold projected, getattr. by rewrite Hs, Hkey.
    + rewrite (expansion_refers _ self key l related Hkey Hl), IH in Hv. done.
  - destruct Hout as (key & _ & Hp & Hexp).
    failing_expansion Hp Hexp as (l' & related' & _ & Hl' & Heq).
    rewrite Hexp in Heq.
    destruct (join_to_dict_recurse n related') as [[d|e']|] eqn:Hrec; try done.
    by apply (join_to_dict_recurse_no_raise n related' e' (Hstore _ _ Hl')).
Qed.

(** Where no cycle can be reached, no chain of references is longer than
    the store. *)
Lemma acyclic_shallow (n : nat) :
  forall (vis : gset loc) (l : loc) (self : instance),
    h !! l = Some self ->
    (forall y, rtc (edge h) l y -> ~ tc (edge h) y y) ->
    (forall x, x ∈ vis -> tc (edge h) x l) ->
    size (dom h ∖ vis) <= n ->
    shallow h n self.
Proof.
  induction n as [|n IH]; intros vis l self Hl Hacyc Hvis Hsize.
  - intros l' Hr.
    assert (l ∈ dom h ∖ vis) as Hin.
    { apply elem_of_difference. split; [by apply elem_of_dom|].
      intros Hx. by apply (Hacyc l), Hvis. }
    assert (size (dom h ∖ vis) = 0) as Hz by lia.
    apply size_empty_inv in Hz. by apply Hz in Hin.
  - intros l' related Hr Hl'.
    assert (edge h l l') as He by (by exists self).
    assert (l ∉ vis) as Hnot.
    { intros Hx. by apply (Hacyc l), Hvis. }
    apply (IH (vis ∪ {[l]}) l' related Hl').
    + intros y Hy. apply Hacyc. by eapply rtc_l.
    + intros x [Hx| ->%elem_of_singleton]%elem_of_union.
      * eapply tc_r; [by apply Hvis|done].
      * by apply tc_once.
    + assert (dom h ∖ (vis ∪ {[l]}) ⊂ dom h ∖ vis) as Hsub.
      { split.
        - intros x [Hx Hnx]%elem_of_difference. apply elem_of_difference.
          split; [done|]. intros Hv. apply Hnx, elem_of_union. by left.
        - intros Hsup.
          assert (l ∈ dom h ∖ vis) as Hin.
          { apply elem_of_difference. split; [by apply elem_of_dom|done]. }
          apply Hsup, elem_of_difference in Hin as [_ Hin].
          apply Hin, elem_of_union. right. by apply elem_of_singleton. }
      apply subset_size in Hsub. lia.
Qed.

Lemma acyclic_reaches_no_cycle (self : instance) :
  acyclic h -> ~ reaches_cycle h self.
Proof. intros Hacyc (l & c & _ & _ & Hc). by apply (Hacyc c). Qed.

(** From an instance that leads to a cycle there are chains of every
    length. *)
Lemma cycle_deep (c : loc) :
  tc (edge h) c c ->
  forall (n : nat) (l : loc) (self : instance),
    rtc (edge h) l c -> h !! l = Some self -> deep h n self.
Proof.
  intros Hcyc. induction n as [|n IH]; intros l self Hreach Hl; [done|].
  assert (exists y, edge h l y /\ rtc (edge h) y c) as (y & He & Hy).
  { apply rtc_inv in Hreach as [->|Hstep]; [|done].
    inversion Hcyc as [x y He|x y z He Hy]; subst.
    - exists c. by split.
    - exists y. split; [done|]. by apply tc_rtc. }
  destruct He as (self' & Hl' & Hr). rewrite Hl in Hl'. injection Hl' as <-.
  pose proof Hr as (k & _ & _ & [related Hrel]).
  exists y, related. split; [done|]. split; [done|]. by apply (IH y).
Qed.

Lemma reaches_cycle_deep (self : instance) (n : nat) :
  reaches_cycle h self -> deep h n self.
Proof.
  intros (l & c & Hr & Hreach & Hcyc). destruct n as [|n]; [done|].
  pose proof Hr as (k & _ & _ & [related Hrel]).
  exists l, related. split; [done|]. split; [done|].
  by apply (cycle_deep c Hcyc n l).
Qed.

(** More nested calls do not change a result. *)
Lemma recurse_step_mono
    (rec rec' : instance -> option (result (gmap string pyvalue)))
    (self : instance) (acc : option (result (gmap string pyvalue)))
    (key : string) (r : result (gmap string pyvalue)) :
  (forall o x, rec o = Some x -> rec' o = Some x) ->
  recurse_step rec self acc key = Some r ->
  recurse_step rec' self acc key = Some r.
Proof.
  intros Hrec. unfold HelperMixin.recurse_step.
  destruct acc as [[d|e]|]; try done.
  destruct (startswith "_" key); [done|].
  destruct (is_None (getattr self key)); [done|].
  unfold expand_deep.
  destruct (render_datetime (getattr self key)); try done.
  destruct (h !! l); [|done].
  destruct (rec i) as [x|] eqn:Hx; [|done].
  by rewrite (Hrec _ _ Hx).
Qed.

Lemma recurse_fold_mono
    (rec rec' : instance -> option (result (gmap string pyvalue)))
    (self : instance) (ks : list string)
    (acc : option (result (gmap string pyvalue)))
    (r : result (gmap string pyvalue)) :
  (forall o x, rec o = Some x -> rec' o = Some x) ->
  foldl (recurse_step rec self) acc ks = Some r ->
  foldl (recurse_step rec' self) acc ks = Some r.
Proof.
  intros Hrec. revert acc. induction ks as [|a ks IH]; intros acc; [done|].
  cbn [foldl]. destruct (recurse_step rec self acc a) as [x|] eqn:Hx.
  - rewrite (recurse_step_mono rec rec' self acc a x Hrec Hx). apply IH.
  - by rewrite recurse_fold_stuck.
Qed.

Lemma join_to_dict_recurse_mono (depth depth' : nat) (self : instance)
    (r : result (gmap string pyvalue)) :
  depth <= depth' ->
  join_to_dict_recurse depth self = Some r ->
  join_to_dict_recurse depth' self = Some r.
Proof.
  intros Hle. induction Hle as [|depth' _ IH]; [done|].
  intros Hr. specialize (IH Hr). clear Hr depth.
  revert self r IH. induction depth' as [|n IHn]; intros self r; [done|].
  rewrite !join_to_dict_recurse_unfold.
  destruct (joined self) as [j|e]; [|done].
  apply recurse_fold_mono. intros o x. apply IHn.
Qed.

(** What the recursive projection holds under each key. *)
Lemma join_to_dict_recurse_lookup (depth : nat) (self : instance)
    (d : gmap string pyvalue) :
  join_to_dict_recurse (S depth) self = Some (Ok d) ->
  attrs self !! "" = None /\
  (forall k, d !! k =
     joined_entry (settled h (join_to_dict_recurse depth)) self k) /\
  (forall k l related,
     holds h self k l -> h !! l = Some related ->
     exists d', join_to_dict_recurse depth related = Some (Ok d')).
Proof.
  rewrite join_to_dict_recurse_unfold. intros Hd.
  assert (attrs self !! "" = None) as Hname.
  { destruct (attrs self !! "") as [v|] eqn:Hv; [|done].
    rewrite joined_empty_name in Hd by (by rewrite Hv). done. }
  split; [done|].
  destruct (joined_lookup self Hname) as (j & Hj & Hlook).
  rewrite Hj in Hd.
  pose proof (recurse_fold_outcome (join_to_dict_recurse depth) self
                (dict_keys j) ∅) as Hout.
  rewrite Hd in Hout. destruct Hout as [Hall ->]. split.
  - intros k. by apply joined_fold_lookup.
  - intros k l related (Hk & Hs & _) Hl.
    destruct (Hall k) as [v Hv].
    + apply elem_of_dict_keys. rewrite Hlook, Hs, Hk. by eexists.
    + unfold projected, getattr. by rewrite Hs, Hk.
    + rewrite (expansion_refers _ self k l related Hk Hl) in Hv.
      destruct (join_to_dict_recurse depth related) as [[d'|e]|];
        try done. by exists d'.
Qed.

End Names.

End WithStore.

(** C8. [join_to_dict_recurse] is [join_to_dict] with the nested entities
    expanded by the recursive call instead of [to_dict].  When no cycle can
    be reached from the instance, as in a store without cycles, it returns a
    mapping, the same however many nested calls are allowed beyond some
    number; from an instance that leads to a cycle it returns at no
    depth.  On the chain from a user to its resource to
    the resource's sensor type, the sensor type appears expanded inside the
    resource. *)
Theorem join_to_dict_recurse_unbounded :
  (forall (h : store) (depth : nat) (self : instance)
          (d : gmap string pyvalue),
     HelperMixin.join_to_dict_recurse format_datetime h (S depth) self = Some (Ok d) ->
     exists d1 : gmap string pyvalue,
       HelperMixin.join_to_dict format_datetime h self = Ok d1 /\
       (forall k : string,
          (forall l, ~ holds h self k l) -> d !! k = d1 !! k) /\
       (forall (k : string) (l : loc) (related : instance),
          holds h self k l -> h !! l = Some related ->
          exists d' : gmap string pyvalue,
            HelperMixin.join_to_dict_recurse format_datetime h depth related
              = Some (Ok d') /\
            d !! k = Some (VDict d') /\
            d1 !! k = Some (VDict (to_dict related)))) /\
  (forall (h : store) (self : instance),
     acyclic h -> ~ reaches_cycle h self) /\
  (forall (h : store) (self : instance),
     store_names_ok h -> attrs self !! "" = None ->
     ~ reaches_cycle h self ->
     exists (depth : nat) (d : gmap string pyvalue),
       forall depth' : nat, depth <= depth' ->
         HelperMixin.join_to_dict_recurse format_datetime h depth' self
           = Some (Ok d)) /\
  (forall (h : store) (self : instance),
     store_names_ok h -> attrs self !! "" = None -> reaches_cycle h self ->
     forall depth : nat,
       HelperMixin.join_to_dict_recurse format_datetime h depth self = None) /\
  HelperMixin.join_to_dict_recurse format_datetime Samples.chain_store 3
      Samples.user_3
    = Some (Ok
        (<["id" := VInt 3]>
        (<["username" := VStr "ann"]>
        (<["resource" := VDict
            (<["id" := VInt 2]>
            (<["created_at" := VStr (format_datetime Samples.instant)]>
            (<["path" := VStr "/a/fan"]>
            (<["sensor_type_id" := VInt 1]>
            (<["sensor_type" := VDict
                (<["id" := VInt 1]> (<["type" := VStr "fan"]> ∅))]>
             ∅)))))]>
         ∅)))).
Proof.
  repeat apply conj.
  - intros h depth self d Hd.
    destruct (join_to_dict_recurse_lookup h depth self d Hd)
      as (Hname & Hlook & Hrec).
    destruct (join_to_dict_lookup h self Hname) as (d1 & Hd1 & Hlook1).
    exists d1. split; [done|]. split.
    + intros k Hnot. rewrite Hlook, Hlook1. unfold HelperMixin.joined_entry.
      destruct (attrs self !! k) as [v|] eqn:Hk; [|done].
      destruct (startswith "_" k) eqn:Hs; [done|].
      destruct (is_None v); [done|]. simpl. f_equal.
      unfold settled, expand_deep, expand_once.
      destruct v; try done. simpl.
      destruct (h !! l) as [related|] eqn:Hl; [|done].
      destruct (Hnot l). by repeat split.
    + intros k l related Hholds Hl.
      destruct (Hrec k l related Hholds Hl) as [d' Hd'].
      destruct Hholds as (Hk & Hs & _).
      exists d'. split; [done|].
      rewrite Hlook, Hlook1. unfold HelperMixin.joined_entry. rewrite Hk, Hs.
      simpl. unfold settled, expand_deep. by rewrite Hl, Hd'.
  - intros h self. apply acyclic_reaches_no_cycle.
  - intros h self Hstore Hname Hno.
    assert (shallow h (S (size h)) self) as Hsh.
    { intros l related Hr Hl.
      apply (acyclic_shallow h (size h) ∅ l related Hl).
      - intros y Hy Hcyc. apply Hno. by exists l, y.
      - intros x Hx. by apply not_elem_of_empty in Hx.
      - rewrite difference_empty_L, size_dom. done. }
    destruct (join_to_dict_recurse_shallow h Hstore _ self Hname Hsh)
      as [d Hd].
    exists (S (S (size h))), d. intros depth' Hle.
    by apply (join_to_dict_recurse_mono h (S (S (size h)))).
  - intros h self Hstore Hname Hcyc depth.
    apply (join_to_dict_recurse_deep h Hstore depth self Hname).
    by apply reaches_cycle_deep.
  - vm_compute. reflexivity.
Qed.

End Joined.


Lemma join_to_dict_one_level_witness :
  exists d : gmap string pyvalue,
    HelperMixin.join_to_dict Samples.sample_format Samples.chain_store
      Samples.user_3 = Ok d /\
    d !! "username" = Some (VStr "ann") /\
    d !! "resource" =
      Some (VDict (HelperMixin.to_dict Samples.sample_format Samples.resource_2)) /\
    HelperMixin.to_dict Samples.sample_format Samples.resource_2 !! "sensor_type_id"
      = Some (VInt 1).
Proof.
  destruct (join_to_dict_one_level Samples.sample_format Samples.chain_store
              Samples.user_3 eq_refl) as (d & Hd & _ & Hval & Hent).
  exists d. split; [exact Hd|]. split.
  - apply (Hval "username" (VStr "ann"));
      [reflexivity | reflexivity | discriminate | discriminate].
  - destruct (Hent "resource" 2%positive Samples.resource_2
                eq_refl eq_refl eq_refl) as (Hres & Hcols & _).
    split; [exact Hres|].
    destruct (Hcols "sensor_type_id" (VInt 1) eq_refl) as [_ _].
    reflexivity.
Defined.

(** The joined projection of the sample user: its resource as a mapping of
    the resource's columns, the resource's sensor type left out. *)
Example join_to_dict_user_3 :
  HelperMixin.join_to_dict Samples.sample_format Samples.chain_store Samples.user_3
    = Ok (<["id" := VInt 3]>
         (<["username" := VStr "ann"]>
         (<["resource" := VDict
             (<["id" := VInt 2]>
             (<["created_at" := VStr "2024-01-15 10:30:00"]>
             (<["path" := VStr "/a/fan"]>
             (<["sensor_type_id" := VInt 1]> ∅))))]>
          ∅))).
Proof. vm_compute. reflexivity. Qed.

(** *** The sample stores *)

(** Every hypothesis [m !! k = Some v] on a map written out as inserts is
    one of its entries. *)
Ltac inv_lookup H :=
  first
    [ rewrite lookup_empty in H; discriminate H
    | apply lookup_insert_Some in H as [[? ?]|[? H]];
      [subst | inv_lookup H] ].

Lemma chain_store_edge (a b : loc) :
  HelperMixin.edge Samples.chain_store a b -> (b < a)%positive.
Proof.
  intros (self & Hl & k & Hk & _ & _).
  unfold Samples.chain_store in Hl. inv_lookup Hl.
  - unfold Samples.sensor_type_1 in Hk. cbn [attrs] in Hk.
    inv_lookup Hk; discriminate.
  - unfold Samples.resource_2 in Hk. cbn [attrs] in Hk.
    inv_lookup Hk; try discriminate.
    match goal with H : VEntity _ = VEntity _ |- _ => injection H as <- end.
    reflexivity.
  - unfold Samples.user_3 in Hk. cbn [attrs] in Hk.
    inv_lookup Hk; try discriminate.
    match goal with H : VEntity _ = VEntity _ |- _ => injection H as <- end.
    reflexivity.
Qed.

Lemma chain_store_acyclic : HelperMixin.acyclic Samples.chain_store.
Proof.
  assert (forall a b, tc (HelperMixin.edge Samples.chain_store) a b ->
                      (b < a)%positive) as Hlt.
  { induction 1 as [a b He|a b c He _ IH].
    - by apply chain_store_edge.
    - apply chain_store_edge in He. lia. }
  intros l Hl. apply Hlt in Hl. lia.
Qed.

Lemma chain_store_names : HelperMixin.store_names_ok Samples.chain_store.
Proof.
  intros l self Hl. unfold Samples.chain_store in Hl.
  inv_lookup Hl; reflexivity.
Qed.

Lemma cycle_store_names : HelperMixin.store_names_ok Samples.cycle_store.
Proof.
  intros l self Hl. unfold Samples.cycle_store in Hl.
  inv_lookup Hl; reflexivity.
Qed.

Lemma cycle_store_cycle :
  HelperMixin.reaches_cycle Samples.cycle_store Samples.user_5.
Proof.
  exists 4%positive, 4%positive. split.
  { exists "gateway". repeat split. by eexists. }
  split; [apply rtc_refl|].
  apply tc_l with 5%positive; [|apply tc_once].
  - exists Samples.gateway_4. split; [reflexivity|].
    exists "owner". repeat split. by eexists.
  - exists Samples.user_5. split; [reflexivity|].
    exists "gateway". repeat split. by eexists.
Qed.

Lemma join_to_dict_recurse_unbounded_witness :
  (exists d1 : gmap string pyvalue,
     HelperMixin.join_to_dict Samples.sample_format Samples.chain_store
       Samples.user_3 = Ok d1 /\
     exists d' : gmap string pyvalue,
       HelperMixin.join_to_dict_recurse Samples.sample_format Samples.chain_store
         2 Samples.resource_2 = Some (Ok d') /\
       d1 !! "resource" =
         Some (VDict (HelperMixin.to_dict Samples.sample_format Samples.resource_2))) /\
  (exists (depth : nat) (d : gmap string pyvalue),
     forall depth' : nat, depth <= depth' ->
       HelperMixin.join_to_dict_recurse Samples.sample_format Samples.chain_store
         depth' Samples.user_3 = Some (Ok d)) /\
  (forall depth : nat,
     HelperMixin.join_to_dict_recurse Samples.sample_format Samples.cycle_store
       depth Samples.user_5 = None).
Proof.
  pose proof (join_to_dict_recurse_unbounded Samples.sample_format)
    as (Hsame & Hno & Hacyc & Hcyc & Hchain).
  repeat apply conj.
  - destruct (Hsame Samples.chain_store 2 Samples.user_3 _ Hchain)
      as (d1 & Hd1 & _ & Hent).
    exists d1. split; [exact Hd1|].
    destruct (Hent "resource" 2%positive Samples.resource_2) as (d' & Hd' & _ & Hd1').
    + repeat split. by eexists.
    + reflexivity.
    + exists d'. by split.
  - apply Hacyc.
    + exact chain_store_names.
    + reflexivity.
    + apply Hno. exact chain_store_acyclic.
  - apply Hcyc.
    + exact cycle_store_names.
    + reflexivity.
    + exact cycle_store_cycle.
Defined.

(** ** The default columns *)

Section DefaultColumns.
Import Models.

Lemma apply_defaults_attrs (utc_now : datetime) (m : model) (self : instance) :
  m <> SensorType -> mapper self = mapper_of m ->
  attrs (apply_defaults utc_now self) =
    if is_None (getattr self "created_at")
    then <["created_at" := VDatetime utc_now]> (attrs self)
    else attrs self.
Proof.
  intros Hm Hmap. unfold apply_defaults. rewrite Hmap.
  destruct m; try done; reflexivity.
Qed.

Lemma apply_defaults_sensor_type (utc_now : datetime) (self : instance) :
  mapper self = mapper_of SensorType ->
  apply_defaults utc_now self = self.
Proof.
  intros Hmap. destruct self as [table held]. simpl in Hmap. subst table.
  reflexivity.
Qed.

(** C9. Every model but [SensorType] derives from [DefaultMixin] and so
    has the integer primary key [id] and the date-time [created_at], whose
    default is [util.get_utc_now]: stored without a value, it receives the
    current UTC instant, and a supplied value is kept.  [SensorType] has an
    [id] primary key of its own, no [created_at] and no default at all. *)
Theorem default_columns :
  (forall m : model, m <> SensorType ->
     (cls_DefaultMixin ∈ bases m) /\
     column_named m "id" = Some DefaultMixin_id /\
     column_named m "created_at" = Some DefaultMixin_created_at) /\
  (type_ DefaultMixin_id = Integer /\ primary_key DefaultMixin_id = true /\
   type_ DefaultMixin_created_at = DateTime /\
   default_ DefaultMixin_created_at = Some util_get_utc_now) /\
  (forall (utc_now : datetime) (m : model) (self : instance),
     m <> SensorType -> mapper self = mapper_of m ->
     getattr self "created_at" = VNone ->
     getattr (apply_defaults utc_now self) "created_at" = VDatetime utc_now) /\
  (forall (utc_now : datetime) (m : model) (self : instance),
     m <> SensorType -> mapper self = mapper_of m ->
     getattr self "created_at" <> VNone ->
     getattr (apply_defaults utc_now self) "created_at"
       = getattr self "created_at") /\
  ((cls_DefaultMixin ∉ bases SensorType) /\
   (exists c : Column,
      column_named SensorType "id" = Some c /\
      type_ c = Integer /\ primary_key c = true /\ default_ c = None) /\
   column_named SensorType "created_at" = None /\
   Forall (fun c => default_ c = None) (columns (mapper_of SensorType)) /\
   forall (utc_now : datetime) (self : instance),
     mapper self = mapper_of SensorType ->
     apply_defaults utc_now self = self).
Proof.
  repeat apply conj; try reflexivity.
  - intros m Hm. destruct m; try done;
      (split; [|by split]); vm_compute; do 2 right; left.
  - intros utc_now m self Hm Hmap Hnone. unfold getattr at 1.
    rewrite (apply_defaults_attrs utc_now m self Hm Hmap), Hnone. simpl.
    by rewrite lookup_insert_eq.
  - intros utc_now m self Hm Hmap Hsome. unfold getattr at 1.
    rewrite (apply_defaults_attrs utc_now m self Hm Hmap).
    destruct (is_None (getattr self "created_at")) eqn:E; [|reflexivity].
    by destruct (getattr self "created_at").
  - vm_compute. intros H.
    repeat (apply elem_of_cons in H as [H|H]; [discriminate H|]).
    by apply elem_of_nil in H.
  - eexists. by repeat split.
  - by repeat constructor.
  - apply apply_defaults_sensor_type.
Qed.

Lemma default_columns_witness :
  column_named Fan "created_at" = Some DefaultMixin_created_at /\
  getattr (apply_defaults Samples.instant Samples.fan_on) "created_at"
    = VDatetime Samples.instant /\
  getattr (apply_defaults Samples.instant Samples.resource_2) "created_at"
    = VDatetime Samples.instant /\
  apply_defaults Samples.instant Samples.sensor_type_1 = Samples.sensor_type_1.
Proof.
  pose proof default_columns as (Hcols & _ & Hdef & Hkept & Hst).
  repeat apply conj.
  - apply (Hcols Fan). discriminate.
  - apply (Hdef Samples.instant Fan); [discriminate | reflexivity | reflexivity].
  - apply (Hkept Samples.instant Resource);
      [discriminate | reflexivity | discriminate].
  - apply Hst. reflexivity.
Defined.

End DefaultColumns.

(** ** The JSON field codec *)

Section JsonText.
Import Json.

(** *** String literals *)

Lemma append_cons (c : ascii) (s r : string) :
  String c s ++ r = String c (s ++ r).
Proof. reflexivity. Qed.

Lemma append_empty (r : string) : EmptyString ++ r = r.
Proof. reflexivity. Qed.

Lemma append_assoc (s r t : string) : (s ++ r) ++ t = s ++ (r ++ t).
Proof.
  induction s as [|c s IH]; [reflexivity|].
  by rewrite !append_cons, IH.
Qed.

Lemma hex_digit_value (k : N) : (k < 16)%N -> hex_value (hex_digit k) = Some k.
Proof.
  intros Hk. destruct k as [|p]; [reflexivity|].
  do 4 (destruct p as [p|p|]; try reflexivity); lia.
Qed.

Lemma unhex4_hex4 (n : N) :
  (n < 65536)%N ->
  unhex4 (hex_digit (n / 4096 mod 16)) (hex_digit (n / 256 mod 16))
         (hex_digit (n / 16 mod 16)) (hex_digit (n mod 16)) = Some n.
Proof.
  intros Hn. unfold unhex4.
  rewrite !hex_digit_value by (apply N.mod_lt; discriminate).
  f_equal. zify. Z.to_euclidean_division_equations. lia.
Qed.

Lemma lex_string_cons (c : ascii) (r : string) :
  Ascii.eqb c dquote = false -> Ascii.eqb c backslash = false ->
  (N_of_ascii c <? 32)%N = false ->
  lex_string (String c r) =
    match lex_string r with
    | Some (u, rest) => Some (N_of_ascii c :: u, rest)
    | None => None
    end.
Proof. intros H1 H2 H3. cbn [lex_string]. by rewrite H1, H2, H3. Qed.

Lemma lex_string_short (e : ascii) (n : N) (r : string) :
  Ascii.eqb e "u" = false -> unescape e = Some n ->
  lex_string (String backslash (String e r)) =
    match lex_string r with
    | Some (u, rest) => Some (n :: u, rest)
    | None => None
    end.
Proof.
  intros He Hn. cbn [lex_string]. rewrite He, Hn. reflexivity.
Qed.

Lemma lex_string_unicode (x1 x2 x3 x4 : ascii) (n : N) (r : string) :
  unhex4 x1 x2 x3 x4 = Some n ->
  lex_string
    (String backslash (String "u" (String x1 (String x2 (String x3 (String x4 r))))))
  = match lex_string r with
    | Some (u, rest) => Some (n :: u, rest)
    | None => None
    end.
Proof. intros Hn. cbn [lex_string]. rewrite Hn. reflexivity. Qed.

Lemma lex_string_unit (n : N) (tail : string) :
  (n < 65536)%N ->
  lex_string (escape_unit n ++ tail) =
    match lex_string tail with
    | Some (u, rest) => Some (n :: u, rest)
    | None => None
    end.
Proof.
  intros Hn. unfold escape_unit.
  destruct (n =? 34)%N eqn:E34.
  { apply N.eqb_eq in E34 as ->. by apply lex_string_short. }
  destruct (n =? 92)%N eqn:E92.
  { apply N.eqb_eq in E92 as ->. by apply lex_string_short. }
  destruct (n =? 8)%N eqn:E8.
  { apply N.eqb_eq in E8 as ->. by apply lex_string_short. }
  destruct (n =? 12)%N eqn:E12.
  { apply N.eqb_eq in E12 as ->. by apply lex_string_short. }
  destruct (n =? 10)%N eqn:E10.
  { apply N.eqb_eq in E10 as ->. by apply lex_string_short. }
  destruct (n =? 13)%N eqn:E13.
  { apply N.eqb_eq in E13 as ->. by apply lex_string_short. }
  destruct (n =? 9)%N eqn:E9.
  { apply N.eqb_eq in E9 as ->. by apply lex_string_short. }
  apply N.eqb_neq in E34, E92.
  destruct ((32 <=? n) && (n <=? 126))%N eqn:Eprint.
  - apply andb_true_iff in Eprint as [Hlo%N.leb_le Hhi%N.leb_le].
    assert (N_of_ascii (ascii_of_N n) = n) as Hemb
      by (apply N_ascii_embedding; lia).
    rewrite append_cons, append_empty, lex_string_cons.
    + by rewrite Hemb.
    + apply Ascii.eqb_neq. intros Heq. apply E34. rewrite <- Hemb, Heq. done.
    + apply Ascii.eqb_neq. intros Heq. apply E92. rewrite <- Hemb, Heq. done.
    + rewrite Hemb. apply N.ltb_ge. done.
  - unfold hex4. rewrite !append_cons, !append_empty, !append_cons, append_empty.
    by apply lex_string_unicode, unhex4_hex4.
Qed.

Lemma lex_string_escape (s : text) (r : string) :
  text_ok s = true ->
  lex_string (escape s ++ String dquote r) = Some (s, r).
Proof.
  induction s as [|n s IH]; intros Hs.
  - cbn [escape]. rewrite append_empty. cbn [lex_string].
    by rewrite Ascii.eqb_refl.
  - cbn [text_ok forallb] in Hs. apply andb_true_iff in Hs as [Hn%N.ltb_lt Hs].
    cbn [escape]. rewrite append_assoc, (lex_string_unit _ _ Hn).
    by rewrite (IH Hs).
Qed.

(** *** Numbers *)

Lemma ends_number_inv (r : string) :
  ends_number r = true ->
  r = EmptyString \/ exists c r', r = String c r' /\ (c = "," \/ c = "]" \/ c = "}")%char.
Proof.
  destruct r as [|c r']; [by left|]. simpl. intros H. right. exists c, r'.
  split; [done|].
  apply orb_true_iff in H as [H|H]; [apply orb_true_iff in H as [H|H]|];
    apply Ascii.eqb_eq in H; auto.
Qed.

Lemma take_digits_end (r : string) :
  ends_number r = true -> take_digits r = (Decimal.Nil, r).
Proof.
  intros [->|(c & r' & -> & [->|[->| ->]])]%ends_number_inv; reflexivity.
Qed.

Lemma lex_frac_end (r : string) :
  ends_number r = true -> lex_frac r = (EmptyString, r).
Proof.
  intros [->|(c & r' & -> & [->|[->| ->]])]%ends_number_inv; reflexivity.
Qed.

Lemma lex_exp_end (r : string) :
  ends_number r = true -> lex_exp r = (EmptyString, r).
Proof.
  intros [->|(c & r' & -> & [->|[->| ->]])]%ends_number_inv; reflexivity.
Qed.

Lemma take_digits_text (u : Decimal.uint) (r : string) :
  ends_number r = true -> take_digits (digits_text u ++ r) = (u, r).
Proof.
  intros Hr. unfold digits_text.
  induction u as [|u IH|u IH|u IH|u IH|u IH|u IH|u IH|u IH|u IH|u IH];
    cbn [NilEmpty.string_of_uint];
    rewrite ?append_empty, ?append_cons; cbn [take_digits digit_of];
    [by apply take_digits_end|by rewrite IH..].
Qed.

Lemma nzhead_head (d : Decimal.uint) :
  match Decimal.nzhead d with Decimal.D0 _ => False | _ => True end.
Proof. induction d; simpl; auto. Qed.

Lemma to_uint_head (p : positive) :
  match Pos.to_uint p with
  | Decimal.Nil | Decimal.D0 _ => False
  | _ => True
  end.
Proof.
  pose proof (DecimalPos.Unsigned.to_of (Pos.to_uint p)) as Hnorm.
  rewrite DecimalPos.Unsigned.of_to in Hnorm. simpl in Hnorm.
  pose proof (DecimalPos.Unsigned.to_uint_nonzero p) as Hnz.
  pose proof (DecimalPos.Unsigned.to_uint_nonnil p) as Hnn.
  destruct (Pos.to_uint p) as [|d| | | | | | | | | ] eqn:E; try done.
  unfold Decimal.unorm in Hnorm.
  pose proof (nzhead_head (Decimal.D0 d)) as Hh.
  destruct (Decimal.nzhead (Decimal.D0 d)) eqn:E'; try done.
Qed.

Lemma lex_int_part_text (p : positive) (r : string) :
  ends_number r = true ->
  exists c s, digits_text (Pos.to_uint p) ++ r = String c s /\
    Ascii.eqb c "-" = false /\ is_digit c = true /\
    lex_int_part (String c s) = Some (Pos.to_uint p, r).
Proof.
  intros Hr. pose proof (take_digits_text (Pos.to_uint p) r Hr) as Htake.
  pose proof (to_uint_head p) as Hhead.
  unfold digits_text in *.
  destruct (Pos.to_uint p) as [|d|d|d|d|d|d|d|d|d|d]; try done;
    cbn [NilEmpty.string_of_uint] in *; rewrite append_cons in *;
    eexists _, _; (split; [reflexivity|]); (split; [reflexivity|]);
    (split; [reflexivity|]); unfold lex_int_part;
    match goal with |- context [Ascii.eqb ?a ?b] =>
      change (Ascii.eqb a b) with false end;
    cbv iota; by rewrite <- Htake.
Qed.

Lemma string_of_uint_pos (p : positive) :
  NilZero.string_of_uint (Pos.to_uint p) = digits_text (Pos.to_uint p).
Proof.
  pose proof (to_uint_head p). unfold NilZero.string_of_uint.
  by destruct (Pos.to_uint p).
Qed.

Lemma lex_number_print (z : Z) (r : string) :
  ends_number r = true ->
  lex_number (print_int z ++ r) = Some (T_int z, r).
Proof.
  intros Hr. unfold print_int. destruct z as [|p|p].
  - change (Z.to_int 0) with (Decimal.Pos (Decimal.D0 Decimal.Nil)).
    change (NilZero.string_of_int (Decimal.Pos (Decimal.D0 Decimal.Nil)))
      with (String "0" EmptyString).
    rewrite append_cons, append_empty. unfold lex_number.
    change (lex_int_part (String "0" r)) with (Some (Decimal.D0 Decimal.Nil, r)).
    cbv iota beta.
    rewrite (lex_frac_end r Hr), (lex_exp_end r Hr). reflexivity.
  - change (Z.to_int (Z.pos p)) with (Decimal.Pos (Pos.to_uint p)).
    cbn [NilZero.string_of_int]. rewrite string_of_uint_pos.
    destruct (lex_int_part_text p r Hr) as (c & s & Heq & Hminus & Hdig & Hlex).
    rewrite Heq. unfold lex_number.
    assert (match String c s with
            | String "-" r0 => (true, r0)
            | _ => (false, String c s)
            end = (false, String c s)) as ->.
    { destruct c as [[] [] [] [] [] [] [] []]; try reflexivity.
      discriminate Hminus. }
    rewrite Hlex, (lex_frac_end r Hr), (lex_exp_end r Hr).
    cbn [String.eqb andb]. unfold Z.of_uint.
    by rewrite DecimalPos.Unsigned.of_to.
  - change (Z.to_int (Z.neg p)) with (Decimal.Neg (Pos.to_uint p)).
    cbn [NilZero.string_of_int]. rewrite string_of_uint_pos.
    destruct (lex_int_part_text p r Hr) as (c & s & Heq & Hminus & Hdig & Hlex).
    rewrite append_cons, Heq. unfold lex_number.
    rewrite Hlex, (lex_frac_end r Hr), (lex_exp_end r Hr).
    cbn [String.eqb andb]. unfold Z.of_uint.
    by rewrite DecimalPos.Unsigned.of_to.
Qed.

(** *** The lexer *)

Lemma closing_ends_number (ts : list token) :
  closing (head ts) = true -> ends_number (render ts) = true.
Proof. by destruct ts as [|[] ts]. Qed.

Lemma skip_ws_idem (s : string) : skip_ws (skip_ws s) = skip_ws s.
Proof.
  induction s as [|c s IH]; [reflexivity|].
  cbn [skip_ws]. destruct (is_ws c) eqn:E; [done|].
  cbn [skip_ws]. by rewrite E.
Qed.

Lemma lex_skip_ws (f : nat) (s : string) : lex f (skip_ws s) = lex f s.
Proof. destruct f; [reflexivity|]. cbn [lex]. by rewrite skip_ws_idem. Qed.

Lemma lex_space (f : nat) (r : string) : lex f (String " " r) = lex f r.
Proof. by rewrite <- (lex_skip_ws f (String " " r)), <- (lex_skip_ws f r). Qed.

Lemma lex_cons (f : nat) (c : ascii) (s : string) :
  is_ws c = false ->
  lex (S f) (String c s) =
    match lex_token (String c s) with
    | Some (t, rest) =>
        match lex f rest with
        | Some ts => Some (t :: ts)
        | None => None
        end
    | None => None
    end.
Proof. intros Hc. cbn [lex skip_ws]. by rewrite Hc. Qed.

Lemma lex_token_number (c : ascii) (s : string) (found : token * string) :
  is_digit c = true \/ c = "-"%char ->
  lex_number (String c s) = Some found ->
  is_ws c = false /\ lex_token (String c s) = Some found.
Proof.
  intros Hc Hnum.
  destruct c as [[] [] [] [] [] [] [] []];
    try (destruct Hc as [Hc|Hc]; discriminate Hc);
    (split; [reflexivity|]); unfold lex_token;
    cbn [Ascii.eqb Bool.eqb strip_prefix]; by rewrite Hnum.
Qed.

Lemma lex_token_int (z : Z) (r : string) :
  ends_number r = true ->
  exists c s, print_int z ++ r = String c s /\ is_ws c = false /\
    lex_token (String c s) = Some (T_int z, r).
Proof.
  intros Hr. pose proof (lex_number_print z r Hr) as Hnum.
  unfold print_int in *. destruct z as [|p|p].
  - exists "0"%char, r. split; [reflexivity|]. by apply lex_token_number; [left|].
  - change (Z.to_int (Z.pos p)) with (Decimal.Pos (Pos.to_uint p)) in *.
    cbn [NilZero.string_of_int] in *. rewrite string_of_uint_pos in *.
    destruct (lex_int_part_text p r Hr) as (c & s & Heq & _ & Hdig & _).
    rewrite Heq in *. exists c, s. split; [done|].
    by apply lex_token_number; [left|].
  - change (Z.to_int (Z.neg p)) with (Decimal.Neg (Pos.to_uint p)) in *.
    cbn [NilZero.string_of_int] in *. rewrite append_cons in *.
    eexists _, _. split; [reflexivity|]. by apply lex_token_number; [right|].
Qed.

Lemma lex_step (t : token) (r : string) (f : nat) :
  token_ok t r ->
  lex (S f) (render_token t ++ r) =
    match lex f r with
    | Some ts => Some (t :: ts)
    | None => None
    end.
Proof.
  intros Hok. destruct t; cbn [render_token token_ok] in *;
    rewrite ?append_cons, ?append_empty;
    try (rewrite lex_cons by reflexivity;
         unfold lex_token; cbn [Ascii.eqb Bool.eqb strip_prefix];
         rewrite ?lex_space; reflexivity).
  - destruct (lex_token_int z r Hok) as (c & s & -> & Hws & Hlex).
    by rewrite (lex_cons _ _ _ Hws), Hlex.
  - done.
  - unfold quote. rewrite append_cons, append_assoc, append_cons, append_empty.
    rewrite lex_cons by reflexivity.
    unfold lex_token. cbn [Ascii.eqb Bool.eqb dquote].
    change (lex_string (escape s ++ String "034" r))
      with (lex_string (escape s ++ String dquote r)).
    by rewrite (lex_string_escape s r Hok).
Qed.

Lemma tok_ok_token_ok (t : token) (ts : list token) :
  tok_ok t (head ts) = true -> token_ok t (render ts).
Proof.
  destruct t; cbn [tok_ok token_ok]; try done.
  apply closing_ends_number.
Qed.

Lemma lex_render (ts : list token) (f : nat) :
  well_delimited ts = true -> List.length ts < f ->
  lex f (render ts) = Some ts.
Proof.
  revert f. induction ts as [|t ts IH]; intros f Hwd Hf.
  - destruct f; [lia|reflexivity].
  - destruct f as [|f]; [simpl in Hf; lia|].
    cbn [well_delimited] in Hwd. apply andb_true_iff in Hwd as [Ht Hwd].
    cbn [render]. rewrite (lex_step t (render ts) f (tok_ok_token_ok _ _ Ht)).
    rewrite IH; [done|done|simpl in Hf; lia].
Qed.

Lemma length_append (a b : string) :
  String.length (a ++ b) = String.length a + String.length b.
Proof.
  induction a as [|c a IH]; [reflexivity|].
  rewrite append_cons. simpl. by rewrite IH.
Qed.

Lemma render_token_length (t : token) (next : option token) :
  tok_ok t next = true -> 1 <= String.length (render_token t).
Proof.
  destruct t; cbn [tok_ok render_token]; try (simpl; lia); try done.
  intros _. destruct (lex_token_int z EmptyString eq_refl) as (c & s & Heq & _).
  assert (print_int z = String c s) as ->.
  { rewrite <- Heq. clear. induction (print_int z) as [|a p IH]; [done|].
    by rewrite append_cons, <- IH. }
  simpl. lia.
Qed.

Lemma render_length (ts : list token) :
  well_delimited ts = true -> List.length ts <= String.length (render ts).
Proof.
  induction ts as [|t ts IH]; [done|].
  cbn [well_delimited render]. intros [Ht Hwd]%andb_true_iff.
  rewrite length_append. pose proof (render_token_length _ _ Ht).
  specialize (IH Hwd). simpl. lia.
Qed.

(** *** The parser *)

Lemma value_nested_ind (P : value -> Prop) :
  P Null -> (forall b, P (Bool b)) -> (forall z, P (Int z)) ->
  (forall f, P (Float f)) -> (forall s, P (Str s)) ->
  (forall l, Forall P l -> P (Arr l)) ->
  (forall m, Forall (fun kv => P kv.2) m -> P (Obj m)) ->
  (forall c, P (Opaque c)) ->
  forall v, P v.
Proof.
  intros HNull HBool HInt HFloat HStr HArr HObj HOpaque.
  fix IH 1.
  intros [|b|z|f|s|l|m|c];
    [apply HNull|apply HBool|apply HInt|apply HFloat|apply HStr| |
     |apply HOpaque].
  - apply HArr. induction l as [|x l IHl]; constructor; [apply IH|exact IHl].
  - apply HObj. induction m as [|[k x] m IHm]; constructor;
      [apply IH|exact IHm].
Qed.

Lemma dict_set_fresh (k : text) (v : value) (d : list (text * value)) :
  k ∉ map fst d -> dict_set k v d = (d ++ [(k, v)])%list.
Proof.
  induction d as [|[k' v'] d IH]; [reflexivity|].
  intros Hk. cbn [dict_set]. rewrite bool_decide_eq_false_2.
  - rewrite IH; [reflexivity|]. intros Hin. apply Hk. simpl.
    apply elem_of_cons. by right.
  - intros ->. apply Hk. simpl. apply elem_of_cons. by left.
Qed.

Lemma dict_of_distinct (l : list (text * value)) :
  keys_distinct (map fst l) = true -> dict_of l = l.
Proof.
  unfold dict_of.
  enough (forall acc,
            (forall k, k ∈ map fst l -> k ∉ map fst acc) ->
            keys_distinct (map fst l) = true ->
            foldl (fun d kv => dict_set kv.1 kv.2 d) acc l = (acc ++ l)%list)
    as Hgen.
  { intros Hl. apply (Hgen [] ); [|done]. intros k _ Hin.
    by apply elem_of_nil in Hin. }
  induction l as [|[k v] l IH]; intros acc Hacc Hl.
  - by rewrite List.app_nil_r.
  - cbn [map fst keys_distinct] in Hl.
    apply andb_true_iff in Hl as [Hk%negb_true_iff%bool_decide_eq_false Hl].
    cbn [foldl fst snd]. rewrite dict_set_fresh.
    + rewrite IH; [by rewrite <- List.app_assoc| |done].
      intros k' Hk'. rewrite map_app. intros [Hin|Hin]%elem_of_app.
      * apply (Hacc k'); [|done]. simpl. apply elem_of_cons. by right.
      * simpl in Hin. apply list_elem_of_singleton in Hin as ->. done.
    + apply Hacc. simpl. apply elem_of_cons. by left.
Qed.

Section Roundtrip.

Variable float_repr : pyfloat -> string.
Variable float_of_literal : string -> pyfloat.

#[local] Abbreviation roundtrips := (Json.roundtrips float_repr float_of_literal).

Lemma elements_with_cons (tok : value -> option (list token))
    (x : value) (l : list value) :
  elements_with tok (x :: l) =
    match tok x, elements_with tok l with
    | Some tx, Some tl =>
        Some (tx ++ match l with [] => tl | _ => T_comma :: tl end)%list
    | _, _ => None
    end.
Proof. reflexivity. Qed.

Lemma pairs_with_cons (tok : value -> option (list token))
    (k : text) (x : value) (l : list (text * value)) :
  pairs_with tok ((k, x) :: l) =
    match tok x, pairs_with tok l with
    | Some tx, Some tl =>
        Some (T_str k :: T_colon :: tx
                ++ match l with [] => tl | _ => T_comma :: tl end)%list
    | _, _ => None
    end.
Proof. reflexivity. Qed.

Lemma starts_value_app (ts next : list token) :
  starts_value ts = true -> starts_value (ts ++ next) = true.
Proof. by destruct ts as [|[] ts]. Qed.

Lemma elements_roundtrip (l : list value) :
  Forall roundtrips l -> forallb representable l = true ->
  exists tse,
    elements_with (tokens float_repr) l = Some tse /\
    (forall next, well_delimited next = true ->
       well_delimited (tse ++ next) = true) /\
    match l with
    | [] => tse = [T_rbracket]
    | _ =>
        starts_value tse = true /\
        forall fuel r, List.length tse < fuel ->
          parse_elements float_of_literal fuel (tse ++ r) = Some (l, r)
    end.
Proof.
  induction 1 as [|x l Hx _ IH]; intros Hrep.
  - exists [T_rbracket]. by repeat split.
  - cbn [forallb] in Hrep. apply andb_true_iff in Hrep as [Hrx Hrl].
    destruct (Hx Hrx) as (tx & Htx & Hsx & Hwx & Hpx).
    destruct (IH Hrl) as (tl & Htl & Hwl & Hpl).
    rewrite elements_with_cons, Htx, Htl. eexists. split; [reflexivity|].
    destruct l as [|y l].
    + subst tl. repeat split.
      * intros next Hnext. rewrite <- List.app_assoc. by apply Hwx.
      * by apply starts_value_app.
      * intros fuel r Hf. rewrite length_app in Hf. simpl in Hf.
        destruct fuel as [|fuel]; [lia|]. cbn [parse_elements].
        rewrite <- List.app_assoc. cbn [app].
        rewrite Hpx by lia. reflexivity.
    + destruct Hpl as [Hsl Hpl]. repeat split.
      * intros next Hnext. rewrite <- List.app_assoc.
        apply Hwx; [reflexivity|]. cbn [app well_delimited tok_ok].
        by apply Hwl.
      * by apply starts_value_app.
      * intros fuel r Hf. rewrite length_app in Hf. simpl in Hf.
        destruct fuel as [|fuel]; [lia|]. cbn [parse_elements].
        rewrite <- List.app_assoc. cbn [app].
        rewrite Hpx by lia. rewrite Hpl by lia. reflexivity.
Qed.

Lemma members_roundtrip (m : list (text * value)) :
  Forall (fun kv => roundtrips kv.2) m ->
  forallb (fun kv => text_ok kv.1 && representable kv.2) m = true ->
  exists tsm,
    pairs_with (tokens float_repr) m = Some tsm /\
    (forall next, well_delimited next = true ->
       well_delimited (tsm ++ next) = true) /\
    match m with
    | [] => tsm = [T_rbrace]
    | _ =>
        (exists k rest, tsm = T_str k :: rest) /\
        forall fuel r, List.length tsm < fuel ->
          parse_members float_of_literal fuel (tsm ++ r) = Some (m, r)
    end.
Proof.
  induction 1 as [|[k x] m Hx _ IH]; intros Hrep.
  - exists [T_rbrace]. by repeat split.
  - cbn [forallb fst snd] in Hrep.
    apply andb_true_iff in Hrep as [[Hk Hrx]%andb_true_iff Hrm].
    cbn [snd] in Hx.
    destruct (Hx Hrx) as (tx & Htx & Hsx & Hwx & Hpx).
    destruct (IH Hrm) as (tm & Htm & Hwm & Hpm).
    rewrite pairs_with_cons, Htx, Htm. eexists. split; [reflexivity|].
    destruct m as [|kv m].
    + subst tm. repeat split.
      * intros next Hnext. cbn [app well_delimited tok_ok head].
        rewrite Hk. cbn [andb]. rewrite <- List.app_assoc. by apply Hwx.
      * by eexists _, _.
      * intros fuel r Hf. cbn [List.length] in Hf. rewrite length_app in Hf.
        simpl in Hf. destruct fuel as [|fuel]; [lia|].
        cbn [app parse_members]. rewrite <- List.app_assoc. cbn [app].
        rewrite Hpx by lia. reflexivity.
    + destruct Hpm as [Hsm Hpm]. repeat split.
      * intros next Hnext. cbn [app well_delimited tok_ok head].
        rewrite Hk. cbn [andb]. rewrite <- List.app_assoc.
        apply Hwx; [reflexivity|]. cbn [app well_delimited tok_ok].
        by apply Hwm.
      * by eexists _, _.
      * intros fuel r Hf. cbn [List.length] in Hf. rewrite length_app in Hf.
        simpl in Hf. destruct fuel as [|fuel]; [lia|].
        cbn [app parse_members]. rewrite <- List.app_assoc. cbn [app].
        rewrite Hpx by lia. rewrite Hpm by lia. reflexivity.
Qed.

Lemma value_roundtrip (v : value) : roundtrips v.
Proof.
  induction v as [|b|z|f|s|l IH|m IH|c] using value_nested_ind;
    intros Hrep; try discriminate Hrep.
  - exists [T_null]. split; [reflexivity|]. repeat split; [done|].
    intros [|fuel] r Hf; [simpl in Hf; lia|reflexivity].
  - exists [if b then T_true else T_false]. split; [by destruct b|].
    repeat split; [by destruct b|by destruct b|].
    intros [|fuel] r Hf; [simpl in Hf; lia|by destruct b].
  - exists [T_int z]. split; [reflexivity|]. repeat split.
    + intros next Hc Hw. cbn [app well_delimited tok_ok]. by rewrite Hc.
    + intros [|fuel] r Hf; [simpl in Hf; lia|reflexivity].
  - exists [T_str s]. split; [reflexivity|]. repeat split.
    + intros next Hc Hw. cbn [app well_delimited tok_ok].
      cbn [representable] in Hrep. by rewrite Hrep.
    + intros [|fuel] r Hf; [simpl in Hf; lia|reflexivity].
  - cbn [representable] in Hrep.
    destruct (elements_roundtrip l IH Hrep) as (tse & Htse & Hw & Hp).
    exists (T_lbracket :: tse). split; [cbn [tokens]; by rewrite Htse|].
    repeat split.
    + intros next _ Hnext. cbn [app well_delimited tok_ok]. by apply Hw.
    + intros [|fuel] r Hf; [simpl in Hf; lia|]. cbn [List.length] in Hf.
      destruct l as [|x l].
      * subst tse. reflexivity.
      * destruct Hp as [Hs Hp]. cbn [app].
        destruct tse as [|t tse]; [discriminate Hs|].
        destruct t; try discriminate Hs; cbn [app parse_value];
          rewrite (app_comm_cons tse r), Hp by lia; reflexivity.
  - cbn [representable] in Hrep. apply andb_true_iff in Hrep as [Hkeys Hrep].
    destruct (members_roundtrip m IH Hrep) as (tsm & Htsm & Hw & Hp).
    exists (T_lbrace :: tsm). split; [cbn [tokens]; by rewrite Htsm|].
    repeat split.
    + intros next _ Hnext. cbn [app well_delimited tok_ok]. by apply Hw.
    + intros [|fuel] r Hf; [simpl in Hf; lia|]. cbn [List.length] in Hf.
      destruct m as [|kv m].
      * subst tsm. reflexivity.
      * destruct Hp as [(k & rest & ->) Hp]. cbn [app parse_value].
        rewrite (app_comm_cons rest r), Hp by lia.
        by rewrite (dict_of_distinct _ Hkeys).
Qed.

Lemma dumps_loads (v : value) :
  representable v = true ->
  exists s, dumps float_repr v = Ok s /\ loads float_of_literal s = Ok v.
Proof.
  intros Hrep. destruct (value_roundtrip v Hrep) as (ts & Htok & _ & Hw & Hp).
  exists (render ts). unfold dumps, loads. rewrite Htok. split; [done|].
  assert (well_delimited ts = true) as Hwd.
  { rewrite <- (List.app_nil_r ts). by apply Hw. }
  rewrite lex_render; [|done|].
  - rewrite <- (List.app_nil_r ts) at 2. rewrite Hp by lia. reflexivity.
  - pose proof (render_length ts Hwd). lia.
Qed.

Lemma elements_serialisable (l : list value) :
  Forall (fun v => is_Some (tokens float_repr v) <-> serialisable v = true) l ->
  is_Some (elements_with (tokens float_repr) l)
  <-> forallb serialisable l = true.
Proof.
  induction 1 as [|x l Hx _ IH].
  - split; [done|by eexists].
  - rewrite elements_with_cons. cbn [forallb]. rewrite andb_true_iff.
    rewrite <- Hx, <- IH.
    destruct (tokens float_repr x), (elements_with (tokens float_repr) l);
      split; try (by intros [? ?]); try (by intros [[? ?] [? ?]]);
      by eexists.
Qed.

Lemma pairs_serialisable (m : list (text * value)) :
  Forall (fun kv => is_Some (tokens float_repr kv.2)
                    <-> serialisable kv.2 = true) m ->
  is_Some (pairs_with (tokens float_repr) m)
  <-> forallb (fun kv => serialisable kv.2) m = true.
Proof.
  induction 1 as [|[k x] m Hx _ IH].
  - split; [done|by eexists].
  - rewrite pairs_with_cons. cbn [forallb]. rewrite andb_true_iff.
    rewrite <- Hx, <- IH. cbn [snd].
    destruct (tokens float_repr x), (pairs_with (tokens float_repr) m);
      split; try (by intros [? ?]); try (by intros [[? ?] [? ?]]);
      by eexists.
Qed.

Lemma tokens_serialisable (v : value) :
  is_Some (tokens float_repr v) <-> serialisable v = true.
Proof.
  induction v as [|b|z|f|s|l IH|m IH|c] using value_nested_ind;
    cbn [tokens serialisable];
    try (split; [done|intros _; by eexists]).
  - by destruct b; (split; [done|intros _; by eexists]).
  - rewrite <- (elements_serialisable l IH).
    destruct (elements_with (tokens float_repr) l);
      split; try (by intros [? ?]); by eexists.
  - rewrite <- (pairs_serialisable m IH).
    destruct (pairs_with (tokens float_repr) m);
      split; try (by intros [? ?]); by eexists.
  - split; [by intros [? ?]|done].
Qed.

End Roundtrip.

(** *** Enough fuel *)

Lemma skip_ws_length (s : string) :
  String.length (skip_ws s) <= String.length s.
Proof.
  induction s as [|c s IH]; [done|].
  cbn [skip_ws]. destruct (is_ws c); simpl; lia.
Qed.

Lemma strip_prefix_length (p s rest : string) :
  strip_prefix p s = Some rest ->
  String.length s = String.length p + String.length rest.
Proof.
  revert s. induction p as [|a p IH]; intros s; cbn [strip_prefix].
  - by intros [= ->].
  - destruct s as [|b s]; [done|]. destruct (Ascii.eqb a b); [|done].
    intros H%IH. simpl. lia.
Qed.

Lemma take_digits_length (s : string) :
  String.length (take_digits s).2 <= String.length s.
Proof.
  induction s as [|c s IH]; [done|].
  cbn [take_digits]. destruct (digit_of c) as [d|]; [|done].
  destruct (take_digits s) as [u' r']. simpl in *. lia.
Qed.

Lemma lex_int_part_length (s : string) (u : Decimal.uint) (rest : string) :
  lex_int_part s = Some (u, rest) ->
  String.length rest < String.length s.
Proof.
  destruct s as [|c s]; [done|]. cbn [lex_int_part].
  destruct (Ascii.eqb c "0"); [intros [= _ <-]; simpl; lia|].
  destruct (is_digit c) eqn:Hc; [|done].
  unfold is_digit in Hc. cbn [take_digits].
  destruct (digit_of c) as [d|]; [|done].
  pose proof (take_digits_length s).
  destruct (take_digits s) as [u' r']. intros [= _ <-]. simpl in *. lia.
Qed.

Lemma lex_frac_length (s : string) :
  String.length (lex_frac s).2 <= String.length s.
Proof.
  unfold lex_frac. destruct s as [|c s]; [done|].
  destruct (Ascii.eqb c ".") eqn:Hc.
  - apply Ascii.eqb_eq in Hc as ->. destruct s as [|d s]; [done|].
    destruct (is_digit d); [|done].
    pose proof (take_digits_length (String d s)).
    destruct (take_digits (String d s)) as [u r]. simpl in *. lia.
  - by destruct c as [[] [] [] [] [] [] [] []].
Qed.

Lemma lex_exp_length (s : string) :
  String.length (lex_exp s).2 <= String.length s.
Proof.
  unfold lex_exp. destruct s as [|e s]; [done|].
  destruct (_ || _)%bool; [|done].
  destruct s as [|c s]; [done|].
  destruct (_ || _)%bool.
  - destruct s as [|c1 s]; [done|]. destruct (is_digit c1); [|done].
    pose proof (take_digits_length (String c1 s)).
    destruct (take_digits (String c1 s)) as [u r]. simpl in *. lia.
  - destruct (is_digit c); [|done].
    pose proof (take_digits_length (String c s)).
    destruct (take_digits (String c s)) as [u r]. simpl in *. lia.
Qed.

Lemma lex_number_length (s : string) (t : token) (rest : string) :
  lex_number s = Some (t, rest) ->
  String.length rest < String.length s.
Proof.
  unfold lex_number.
  set (split := match s with String "-" r => (true, r) | _ => (false, s) end).
  assert (String.length split.2 <= String.length s) as Hsplit.
  { unfold split. destruct s as [|c s]; [done|].
    destruct c as [[] [] [] [] [] [] [] []]; simpl; lia. }
  destruct split as [negative s1]. simpl in Hsplit.
  destruct (lex_int_part s1) as [[u s2]|] eqn:Hint; [|done].
  apply lex_int_part_length in Hint.
  pose proof (lex_frac_length s2) as Hfrac.
  destruct (lex_frac s2) as [frac s3].
  pose proof (lex_exp_length s3) as Hexp.
  destruct (lex_exp s3) as [exp s4]. simpl in *.
  destruct (_ && _)%bool; intros [= _ <-]; lia.
Qed.

Lemma lex_string_length (s : string) :
  forall (u : text) (rest : string),
    lex_string s = Some (u, rest) ->
    String.length rest < String.length s.
Proof.
  remember (String.length s) as n eqn:Hn.
  revert s Hn. induction n as [n IH] using lt_wf_ind. intros s -> u rest.
  destruct s as [|c r]; [done|]. cbn [lex_string].
  destruct (Ascii.eqb c dquote); [intros [= _ <-]; simpl; lia|].
  destruct (Ascii.eqb c backslash).
  - destruct r as [|e r']; [done|]. destruct (Ascii.eqb e "u").
    + destruct r' as [|x1 [|x2 [|x3 [|x4 r'']]]]; try done.
      destruct (unhex4 x1 x2 x3 x4); [|done].
      destruct (lex_string r'') as [[u' rest']|] eqn:Hrec; [|done].
      intros [= _ <-].
      apply (IH (String.length r'')) in Hrec; simpl; [lia|lia|done].
    + destruct (unescape e); [|done].
      destruct (lex_string r') as [[u' rest']|] eqn:Hrec; [|done].
      intros [= _ <-].
      apply (IH (String.length r')) in Hrec; simpl; [lia|lia|done].
  - destruct (_ <? _)%N; [done|].
    destruct (lex_string r) as [[u' rest']|] eqn:Hrec; [|done].
    intros [= _ <-].
    apply (IH (String.length r)) in Hrec; simpl; [lia|lia|done].
Qed.

Lemma lex_token_length (s : string) (t : token) (rest : string) :
  lex_token s = Some (t, rest) ->
  String.length rest < String.length s.
Proof.
  unfold lex_token. destruct s as [|c r]; [done|].
  repeat (match goal with
          | |- context [if Ascii.eqb c ?x then _ else _] =>
              destruct (Ascii.eqb c x);
              [try (intros [= _ <-]; simpl; lia)|]
          end).
  - destruct (lex_string r) as [[u rest']|] eqn:Hstr; [|done].
    intros [= _ <-]. apply lex_string_length in Hstr. simpl. lia.
  - destruct (strip_prefix "null" _) eqn:H1.
    { intros [= _ <-]. apply strip_prefix_length in H1. simpl in *. lia. }
    destruct (strip_prefix "true" _) eqn:H2.
    { intros [= _ <-]. apply strip_prefix_length in H2. simpl in *. lia. }
    destruct (strip_prefix "false" _) eqn:H3.
    { intros [= _ <-]. apply strip_prefix_length in H3. simpl in *. lia. }
    destruct (lex_number _) as [[t' rest']|] eqn:Hnum.
    { intros [= _ <-]. by apply lex_number_length in Hnum. }
    destruct (strip_prefix "NaN" _) eqn:H4.
    { intros [= _ <-]. apply strip_prefix_length in H4. simpl in *. lia. }
    destruct (strip_prefix "Infinity" _) eqn:H5.
    { intros [= _ <-]. apply strip_prefix_length in H5. simpl in *. lia. }
    destruct (strip_prefix "-Infinity" _) eqn:H6; [|done].
    intros [= _ <-]. apply strip_prefix_length in H6. simpl in *. lia.
Qed.

(** A run of the lexer that succeeds with some fuel succeeds with the fuel
    [loads] gives it. *)
Lemma lex_enough (f : nat) (s : string) (ts : list token) :
  lex f s = Some ts ->
  forall f', String.length s < f' -> lex f' s = Some ts.
Proof.
  revert s ts. induction f as [|f IH]; intros s ts; [done|].
  intros Hlex [|f'] Hf'; [lia|]. cbn [lex] in *.
  pose proof (skip_ws_length s) as Hskip.
  destruct (skip_ws s) as [|c r] eqn:Hs; [done|].
  destruct (lex_token (String c r)) as [[t rest]|] eqn:Htok; [|done].
  apply lex_token_length in Htok.
  destruct (lex f rest) as [ts'|] eqn:Hrest; [|done].
  rewrite (IH rest ts' Hrest f'); [done|]. simpl in *. lia.
Qed.

Section ParserFuel.

Variable float_of_literal : string -> pyfloat.

#[local] Abbreviation parse_value := (Json.parse_value float_of_literal).
#[local] Abbreviation parse_elements := (Json.parse_elements float_of_literal).
#[local] Abbreviation parse_members := (Json.parse_members float_of_literal).

(** A run of the parser that succeeds consumes some tokens, and succeeds
    alike with any fuel above their number. *)
Lemma parse_enough (f : nat) :
  (forall ts v r, parse_value f ts = Some (v, r) ->
     enough parse_value ts v r) /\
  (forall ts l r, parse_elements f ts = Some (l, r) ->
     enough parse_elements ts l r) /\
  (forall ts m r, parse_members f ts = Some (m, r) ->
     enough parse_members ts m r).
Proof.
  induction f as [|f (IHv & IHe & IHm)]; [by repeat split|].
  repeat apply conj.
  - intros ts v r Hp. destruct ts as [|t ts]; [done|].
    destruct t; cbn [Json.parse_value] in Hp; try discriminate Hp;
      try (injection Hp as <- <-;
           match goal with |- enough _ (?t :: _) _ _ => exists [t] end;
           split; [done|]; split; [simpl; lia|];
           by intros [|f'] Hf'; [simpl in Hf'; lia|]).
    + (* an object *)
      destruct ts as [|t ts].
      { destruct (parse_members f []) as [[m r']|] eqn:Hm; [|done].
        destruct (IHm _ _ _ Hm) as (used & Hu & Hlen & _).
        destruct used; [simpl in Hlen; lia|done]. }
      destruct t;
        try (destruct (parse_members f (_ :: ts)) as [[m r']|] eqn:Hm;
             [|discriminate Hp]; injection Hp as <- <-;
             destruct (IHm _ _ _ Hm) as (used & Hu & Hlen & Hused);
             exists (T_lbrace :: used); split; [by rewrite Hu|];
             split; [simpl; lia|];
             intros [|f'] Hf'; simpl in Hf'; [lia|];
             cbn [Json.parse_value]; by rewrite Hused by lia).
      injection Hp as <- <-. exists [T_lbrace; T_rbrace]. split; [done|].
      split; [simpl; lia|]. by intros [|f'] Hf'; [simpl in Hf'; lia|].
    + (* a list *)
      destruct ts as [|t ts].
      { destruct (parse_elements f []) as [[l r']|] eqn:He; [|done].
        destruct (IHe _ _ _ He) as (used & Hu & Hlen & _).
        destruct used; [simpl in Hlen; lia|done]. }
      destruct t;
        try (destruct (parse_elements f (_ :: ts)) as [[l r']|] eqn:He;
             [|discriminate Hp]; injection Hp as <- <-;
             destruct (IHe _ _ _ He) as (used & Hu & Hlen & Hused);
             exists (T_lbracket :: used); split; [by rewrite Hu|];
             split; [simpl; lia|];
             intros [|f'] Hf'; simpl in Hf'; [lia|];
             cbn [Json.parse_value]; by rewrite Hused by lia).
      injection Hp as <- <-. exists [T_lbracket; T_rbracket]. split; [done|].
      split; [simpl; lia|]. by intros [|f'] Hf'; [simpl in Hf'; lia|].
  - intros ts l r Hp. cbn [Json.parse_elements] in Hp.
    destruct (parse_value f ts) as [[v r1]|] eqn:Hv; [|done].
    destruct (IHv _ _ _ Hv) as (used & -> & Hlen & Hused).
    destruct r1 as [|t r1]; [done|].
    destruct t; try discriminate Hp.
    + injection Hp as <- <-. exists (used ++ [T_rbracket])%list.
      split; [by rewrite <- List.app_assoc|].
      split; [rewrite length_app; simpl; lia|].
      intros [|f'] Hf'; rewrite length_app in Hf'; simpl in Hf'; [lia|].
      cbn [Json.parse_elements]. by rewrite Hused by lia.
    + destruct (parse_elements f r1) as [[l' r']|] eqn:He; [|done].
      injection Hp as <- <-.
      destruct (IHe _ _ _ He) as (used' & -> & Hlen' & Hused').
      exists (used ++ T_comma :: used')%list.
      split; [by rewrite <- List.app_assoc|].
      split; [rewrite length_app; simpl; lia|].
      intros [|f'] Hf'; rewrite length_app in Hf'; simpl in Hf'; [lia|].
      cbn [Json.parse_elements]. rewrite Hused by lia.
      by rewrite Hused' by lia.
  - intros ts m r Hp. cbn [Json.parse_members] in Hp.
    destruct ts as [|t ts]; [done|]. destruct t; try discriminate Hp.
    destruct ts as [|t ts]; [done|]. destruct t; try discriminate Hp.
    destruct (parse_value f ts) as [[v r1]|] eqn:Hv; [|done].
    destruct (IHv _ _ _ Hv) as (used & -> & Hlen & Hused).
    destruct r1 as [|t r1]; [done|].
    destruct t; try discriminate Hp.
    + injection Hp as <- <-.
      exists (T_str s :: T_colon :: used ++ [T_rbrace])%list.
      split; [simpl; by rewrite <- List.app_assoc|].
      split; [simpl; lia|].
      intros [|f'] Hf'; simpl in Hf'; rewrite length_app in Hf';
        simpl in Hf'; [lia|].
      cbn [Json.parse_members]. by rewrite Hused by lia.
    + destruct (parse_members f r1) as [[m' r']|] eqn:Hm; [|done].
      injection Hp as <- <-.
      destruct (IHm _ _ _ Hm) as (used' & -> & Hlen' & Hused').
      exists (T_str s :: T_colon :: used ++ T_comma :: used')%list.
      split; [simpl; by rewrite <- List.app_assoc|].
      split; [simpl; lia|].
      intros [|f'] Hf'; simpl in Hf'; rewrite length_app in Hf';
        simpl in Hf'; [lia|].
      cbn [Json.parse_members]. rewrite Hused by lia.
      by rewrite Hused' by lia.
Qed.

(** [loads] finds every value that its lexer and parser can find. *)
Lemma loads_enough (f1 f2 : nat) (s : string) (ts : list token) (v : value) :
  lex f1 s = Some ts -> parse_value f2 ts = Some (v, []) ->
  loads float_of_literal s = Ok v.
Proof.
  intros Hlex Hparse. unfold loads.
  rewrite (lex_enough f1 s ts Hlex) by lia.
  destruct (proj1 (parse_enough f2) ts v [] Hparse) as (used & Hu & _ & Hused).
  rewrite List.app_nil_r in Hu. subst used.
  by rewrite Hused by lia.
Qed.

(** [loads] raises exactly on malformed text. *)
Lemma loads_malformed (s : string) :
  loads float_of_literal s = Raise ValueError
  <-> ~ well_formed float_of_literal s.
Proof.
  split.
  - intros Hraise (f1 & f2 & ts & v & Hlex & Hparse).
    by rewrite (loads_enough f1 f2 s ts v Hlex Hparse) in Hraise.
  - intros Hmal. unfold loads.
    destruct (lex _ s) as [ts|] eqn:Hlex; [|done].
    destruct (parse_value _ ts) as [[v [|t r]]|] eqn:Hparse; try done.
    destruct Hmal. by exists (S (String.length s)), (S (List.length ts)), ts, v.
Qed.

End ParserFuel.

End JsonText.

Section Codec.
Import JSONEncoded.

Variable float_repr : pyfloat -> string.
Variable float_of_literal : string -> pyfloat.
Variable dialect : Type.

#[local] Abbreviation process_bind_param :=
  (JSONEncoded.process_bind_param float_repr dialect).
#[local] Abbreviation process_result_value :=
  (JSONEncoded.process_result_value float_of_literal dialect).




End Codec.


(** The stored text of the sample, as [json.dumps] writes it. *)
Example payload_stored :
  JSONEncoded.process_bind_param Samples.sample_float_repr
    Samples.sample_dialect Samples.payload Samples.mysql
  = Ok (Some (String.concat (String Json.dquote EmptyString)
                ["{"; "name"; ": "; "fan \"; "1\"; "\n"; ", "; "levels";
                 ": [0, 12, -3, null, true]}"])).
Proof. vm_compute. reflexivity. Qed.



(** * Further properties

    What the helper layer, the constructors and the table declarations show
    beyond the statements above. *)

(** ** Type compatibility, by runtime type *)

Section TypeCompatibleByType.
Import HelperMixin.

Lemma is_None_type_of (v1 v2 : pyvalue) :
  type_of v1 = type_of v2 -> is_None v1 = is_None v2.
Proof. destruct v1, v2; simpl; congruence. Qed.

(** X1. [type_compatible] looks at the runtime type of the value and at the
    Python type of the column, and at nothing else: two values of one type
    fare alike on two columns of one Python type.  So neither the length of
    a text nor the declared length of a [VARCHAR], neither the size of an
    integer nor the precision of a [DOUBLE] is ever tested. *)
Theorem type_compatible_reads_types_only :
  (forall (v1 v2 : pyvalue) (T1 T2 : column_type),
     type_of v1 = type_of v2 -> python_type T1 = python_type T2 ->
     type_compatible v1 T1 = type_compatible v2 T2) /\
  (forall (s : string) (n : nat), type_compatible (VStr s) (VARCHAR n) = true) /\
  (forall (s : string) (n : nat),
     type_compatible (VUnicode s) (VARCHAR n) = true) /\
  (forall z : Z, type_compatible (VInt z) Integer = true) /\
  (forall (f : pyfloat) (p s : nat),
     type_compatible (VFloat f) (DOUBLE p s) = true).
Proof.
  split; [|by repeat split].
  intros v1 v2 T1 T2 Hv HT. unfold type_compatible, isinstance, type_in.
  by rewrite (is_None_type_of _ _ Hv), HT, Hv.
Qed.

Lemma type_compatible_reads_types_only_witness :
  type_compatible (VStr "a") (VARCHAR 1)
  = type_compatible (VStr "abcdef") (VARCHAR 3).
Proof.
  apply (proj1 type_compatible_reads_types_only); reflexivity.
Defined.

(** X2. The values each kind of column accepts.  A text column ([VARCHAR],
    [Text]) accepts [None], a [str] and a [unicode], and nothing else; a
    date-time column accepts [None] and a [datetime] only, so a date written
    as text is refused; an integer column accepts [None], an [int], a [long]
    and a [bool]. *)
Theorem type_compatible_text_and_datetime (T : column_type) (v : pyvalue) :
  (python_type T = Some t_str ->
     (type_compatible v T = true <->
      v = VNone \/ (exists s, v = VStr s) \/ (exists s, v = VUnicode s))) /\
  (python_type T = Some t_datetime ->
     (type_compatible v T = true <-> v = VNone \/ exists d, v = VDatetime d)) /\
  (python_type T = Some t_int ->
     (type_compatible v T = true <->
      v = VNone \/ (exists n, v = VInt n) \/ (exists n, v = VLong n) \/
      exists b, v = VBool b)).
Proof.
  unfold type_compatible. repeat split.
  all: try (intros Hc; destruct v; rewrite H in Hc; vm_compute in Hc;
            try discriminate; eauto 6; fail).
  all: intros Hv; rewrite H; destruct Hv as [->|Hv]; [reflexivity|];
       repeat (destruct Hv as [Hv|Hv]); destruct Hv as [? ->]; reflexivity.
Qed.

Lemma type_compatible_text_and_datetime_witness :
  type_compatible (VUnicode "on") (VARCHAR 10) = true /\
  type_compatible (VStr "2024-01-15") DateTime = false /\
  type_compatible (VLong 7) Integer = true.
Proof.
  split; [|split].
  - apply (proj1 (type_compatible_text_and_datetime (VARCHAR 10) (VUnicode "on")));
      [reflexivity|]. right; right. by exists "on".
  - destruct (type_compatible (VStr "2024-01-15") DateTime) eqn:E; [|reflexivity].
    apply (proj1 (proj2 (type_compatible_text_and_datetime DateTime _))) in E;
      [|reflexivity].
    destruct E as [E|[d E]]; discriminate E.
  - apply (proj2 (proj2 (type_compatible_text_and_datetime Integer (VLong 7))));
      [reflexivity|]. right; right; left. by exists 7%Z.
Defined.

End TypeCompatibleByType.

(** ** Validation, both ways *)

Section ValidationOutcome.
Import HelperMixin Constructors.

Variable repr : pyvalue -> string.
Variable type_str : column_type -> string.

#[local] Abbreviation check_column := (HelperMixin.check_column repr type_str).
#[local] Abbreviation validate := (HelperMixin.validate repr type_str).
#[local] Abbreviation unexpected_type_message :=
  (HelperMixin.unexpected_type_message repr type_str).

(** The outcome of the loop of [validate] over any columns. *)
Lemma for_each_outcome (self : instance) (cols : list Column) :
  match (for_each check_column cols self).1 with
  | Ok _ => Forall (column_ok self) cols
  | Raise e =>
      exists pre c post, cols = (pre ++ c :: post)%list /\
        Forall (column_ok self) pre /\
        type_compatible (getattr self (name c)) (type_ c) = false /\
        e = InvalidParameter (unexpected_type_message c (getattr self (name c)))
  end.
Proof.
  induction cols as [|c cols IH]; simpl; [constructor|].
  unfold bind.
  destruct (type_compatible (getattr self (name c)) (type_ c)) eqn:Hc.
  - rewrite (check_column_ok repr type_str _ _ Hc).
    destruct (for_each check_column cols self) as [[u|e] s]; simpl in *.
    + by constructor.
    + destruct IH as (pre & c' & post & -> & Hpre & Hc' & ->).
      exists (c :: pre), c', post.
      split; [done|]. split; [by constructor|]. by split.
  - rewrite (check_column_raise repr type_str _ _ Hc). simpl.
    exists [], c, cols. split; [done|]. split; [constructor|]. by split.
Qed.

Lemma validate_ok_iff (self : instance) :
  (validate self).1 = Ok tt <-> Forall (column_ok self) (columns (mapper self)).
Proof.
  rewrite validate_unfold. split.
  - intros E. pose proof (for_each_outcome self (columns (mapper self))) as H.
    by rewrite E in H.
  - intros Hall. by rewrite (for_each_all_ok repr type_str _ _ Hall).
Qed.

(** X3. [validate] returns exactly when every column holds a compatible
    value.  When it raises, the exception is [InvalidParameter] and no
    other, for a column before which every column is compatible, and whose
    own value is not. *)
Theorem validate_exact (self : instance) :
  ((validate self).1 = Ok tt <->
   Forall (column_ok self) (columns (mapper self))) /\
  (forall e : exn,
     (validate self).1 = Raise e ->
     exists (pre post : list Column) (c : Column),
       columns (mapper self) = (pre ++ c :: post)%list /\
       Forall (column_ok self) pre /\
       type_compatible (getattr self (name c)) (type_ c) = false /\
       e = InvalidParameter
             ("column " ++ name c ++ " value " ++ repr (getattr self (name c))
                ++ " type is unexpected: " ++ type_str (type_ c))).
Proof.
  split; [apply validate_ok_iff|].
  rewrite validate_unfold. intros e E.
  pose proof (for_each_outcome self (columns (mapper self))) as H.
  rewrite E in H. destruct H as (pre & c & post & Hcols & Hpre & Hc & ->).
  by exists pre, post, c.
Qed.

Lemma for_each_same_columns (self self' : instance) (cols : list Column) :
  (forall c, c ∈ cols -> getattr self (name c) = getattr self' (name c)) ->
  (for_each check_column cols self).1 = (for_each check_column cols self').1.
Proof.
  induction cols as [|c cols IH]; intros Hsame; [done|].
  simpl. unfold bind.
  assert (getattr self (name c) = getattr self' (name c)) as Hc
    by (apply Hsame; by left).
  destruct (type_compatible (getattr self (name c)) (type_ c)) eqn:Hok.
  - rewrite (check_column_ok repr type_str self c Hok).
    rewrite Hc in Hok. rewrite (check_column_ok repr type_str self' c Hok).
    apply IH. intros c' Hc'. apply Hsame. by right.
  - rewrite (check_column_raise repr type_str self c Hok).
    rewrite Hc in Hok. rewrite (check_column_raise repr type_str self' c Hok).
    simpl. by rewrite Hc.
Qed.

(** X4. [validate] reads the attributes that are columns and no other: two
    instances of one table that agree on the columns have the same outcome,
    so setting an attribute that is no column (a relation, a private entry)
    changes nothing.  And it does not test for [NOT NULL]: an instance
    whose columns are all [None] passes. *)
Theorem validate_reads_columns_only :
  (forall self self' : instance,
     mapper self = mapper self' ->
     (forall c, c ∈ columns (mapper self) ->
        getattr self (name c) = getattr self' (name c)) ->
     (validate self).1 = (validate self').1) /\
  (forall (self : instance) (k : string) (v : pyvalue),
     k ∉ keys (mapper self) ->
     (validate (setattr self k v)).1 = (validate self).1) /\
  (forall self : instance,
     (forall c, c ∈ columns (mapper self) -> getattr self (name c) = VNone) ->
     (validate self).1 = Ok tt).
Proof.
  split; [|split].
  - intros self self' Hm Hsame. rewrite !validate_unfold, <- Hm.
    by apply for_each_same_columns.
  - intros self k v Hk. rewrite !validate_unfold. simpl.
    apply for_each_same_columns. intros c Hc.
    unfold getattr, setattr. simpl. rewrite lookup_insert_ne; [done|].
    intros ->. apply Hk. apply list_elem_of_fmap. by exists c.
  - intros self Hnone. rewrite validate_unfold.
    rewrite (for_each_all_ok repr type_str); [done|].
    apply Forall_forall. intros c Hc. unfold column_ok. by rewrite (Hnone c Hc).
Qed.

End ValidationOutcome.

Section ValidationOutcomeExamples.
Import HelperMixin Models Constructors.

Lemma validate_exact_witness :
  Forall (column_ok Samples.fan_on) (columns (mapper Samples.fan_on)) /\
  exists (pre post : list Column) (c : Column),
    columns (mapper Samples.fan_bad) = (pre ++ c :: post)%list /\
    Forall (column_ok Samples.fan_bad) pre /\
    type_compatible (getattr Samples.fan_bad (name c)) (type_ c) = false /\
    InvalidParameter "column status value 1 type is unexpected: BOOLEAN" =
    InvalidParameter
      ("column " ++ name c ++ " value "
         ++ Samples.sample_repr (getattr Samples.fan_bad (name c))
         ++ " type is unexpected: " ++ Samples.sample_type_str (type_ c)).
Proof.
  split.
  - apply (proj1 (validate_exact Samples.sample_repr Samples.sample_type_str
                    Samples.fan_on)).
    vm_compute. reflexivity.
  - apply (proj2 (validate_exact Samples.sample_repr Samples.sample_type_str
                    Samples.fan_bad)).
    vm_compute. reflexivity.
Defined.

Lemma validate_reads_columns_only_witness :
  (HelperMixin.validate Samples.sample_repr Samples.sample_type_str
     (setattr Samples.fan_bad "gateway" (VEntity 4%positive))).1
  = (HelperMixin.validate Samples.sample_repr Samples.sample_type_str
       Samples.fan_bad).1 /\
  (HelperMixin.validate Samples.sample_repr Samples.sample_type_str
     (mk_instance (mapper_of Resource) ∅)).1 = Ok tt.
Proof.
  pose proof (validate_reads_columns_only Samples.sample_repr
                Samples.sample_type_str) as (_ & Hset & Hnone).
  split.
  - apply Hset. apply (bool_decide_unpack _). vm_compute. exact I.
  - apply Hnone. intros c Hc. reflexivity.
Defined.

End ValidationOutcomeExamples.

(** ** The constructors *)

Section ConstructorFacts.
Import HelperMixin Models Constructors.

(** *** The tables and the constructors, name by name *)

Lemma keys_NoDup (m : model) : NoDup (keys (mapper_of m)).
Proof. destruct m; apply (bool_decide_unpack _); vm_compute; exact I. Qed.

Lemma keys_public (m : model) :
  Forall (fun k => startswith "_" k = false) (keys (mapper_of m)).
Proof. destruct m; apply (bool_decide_unpack _); vm_compute; exact I. Qed.

Lemma init_body_NoDup (m : model) : NoDup (init_body m).*1.
Proof. destruct m; apply (bool_decide_unpack _); vm_compute; exact I. Qed.

Lemma init_body_columns (m : model) :
  Forall (fun k => k ∈ keys (mapper_of m)) (init_body m).*1.
Proof. destruct m; apply (bool_decide_unpack _); vm_compute; exact I. Qed.

Lemma column_public (m : model) (c : Column) :
  c ∈ columns (mapper_of m) -> startswith "_" (name c) = false.
Proof.
  intros Hc. pose proof (keys_public m) as Hp. rewrite Forall_forall in Hp.
  apply Hp, list_elem_of_fmap. by exists c.
Qed.

Lemma find_column_named (cols : list Column) (c : Column) :
  NoDup (map name cols) -> c ∈ cols ->
  find (fun c' => String.eqb (name c') (name c)) cols = Some c.
Proof.
  induction cols as [|c0 cols IH]; intros Hnd Hc; [by apply elem_of_nil in Hc|].
  simpl in Hnd. apply NoDup_cons in Hnd as [Hc0 Hnd]. simpl.
  apply elem_of_cons in Hc as [->|Hc].
  - by rewrite String.eqb_refl.
  - destruct (String.eqb_spec (name c0) (name c)) as [Heq|_]; [|by apply IH].
    exfalso. apply Hc0. rewrite Heq. apply list_elem_of_fmap. by exists c.
Qed.

Lemma column_named_elem (m : model) (c : Column) :
  c ∈ columns (mapper_of m) -> column_named m (name c) = Some c.
Proof. apply find_column_named, keys_NoDup. Qed.

Lemma column_named_Some (m : model) (k : string) (c : Column) :
  column_named m k = Some c -> c ∈ columns (mapper_of m) /\ name c = k.
Proof.
  intros H. apply find_some in H as [Hin Hname].
  split; [by apply list_elem_of_In|]. by apply String.eqb_eq.
Qed.

Lemma stored_parameter_column (m : model) (k p : string) :
  stored_parameter m k = Some p ->
  k ∈ keys (mapper_of m) /\ startswith "_" k = false.
Proof.
  unfold stored_parameter. intros H. apply elem_of_list_to_map_2 in H.
  assert (k ∈ (init_body m).*1) as Hk.
  { apply list_elem_of_fmap. by exists (k, p). }
  pose proof (init_body_columns m) as Hc. rewrite Forall_forall in Hc.
  pose proof (keys_public m) as Hp. rewrite Forall_forall in Hp.
  split; [by apply Hc|by apply Hp, Hc].
Qed.

Lemma default_arguments_compatible (m : model) :
  forallb (fun kp : string * string =>
     match column_named m kp.1 with
     | Some c => type_compatible (argument m ∅ kp.2) (type_ c)
     | None => true
     end) (init_body m) = true.
Proof. destruct m; vm_compute; reflexivity. Qed.

Lemma default_arguments_not_null (m : model) :
  forallb (fun c : Column =>
     nullable c ||
     match stored_parameter m (name c) with
     | Some p => is_None (argument m ∅ p)
     | None => true
     end) (columns (mapper_of m)) = true.
Proof. destruct m; vm_compute; reflexivity. Qed.

Lemma fresh_blank (m : model) : fresh (blank m).
Proof.
  intros k Hk. unfold blank. simpl. apply lookup_insert_None. split; [done|].
  intros <-. discriminate Hk.
Qed.

(** *** The body of a constructor *)

Lemma for_each_assign_ok (locals : gmap string pyvalue)
    (body : list (string * string)) (self : instance) :
  (for_each (assign locals) body self).1 = Ok tt.
Proof.
  revert self. induction body as [|ap body IH]; intros self; [done|apply IH].
Qed.

Lemma for_each_assign_mapper (locals : gmap string pyvalue)
    (body : list (string * string)) (self : instance) :
  mapper (for_each (assign locals) body self).2 = mapper self.
Proof.
  revert self. induction body as [|ap body IH]; intros self; [done|].
  simpl. unfold bind, assign, setattr_m. simpl. by rewrite IH.
Qed.

Lemma for_each_assign_attrs (locals : gmap string pyvalue)
    (body : list (string * string)) (self : instance) (k : string) :
  NoDup body.*1 ->
  attrs (for_each (assign locals) body self).2 !! k =
    match list_to_map (M := gmap string string) body !! k with
    | Some p => Some (default VNone (locals !! p))
    | None => attrs self !! k
    end.
Proof.
  revert self. induction body as [|[a p] body IH]; intros self Hnd; [done|].
  rewrite fmap_cons in Hnd. apply NoDup_cons in Hnd as [Ha Hnd].
  simpl. unfold bind, assign, setattr_m. simpl. rewrite (IH _ Hnd).
  destruct (decide (a = k)) as [->|Hne].
  - rewrite (lookup_insert_eq (list_to_map body)).
    rewrite (not_elem_of_list_to_map_1 _ _ Ha). simpl.
    by rewrite lookup_insert_eq.
  - rewrite (lookup_insert_ne (list_to_map body)) by done.
    destruct (list_to_map body !! k); [done|]. simpl.
    by rewrite lookup_insert_ne.
Qed.

(** *** The binding of the arguments *)

Lemma bind_arguments_outcome (params : list (string * pyvalue))
    (args : list pyvalue) (kwargs : gmap string pyvalue) :
  let accepted :=
    (List.length args <= List.length params)%nat /\
    forall k : string, is_Some (kwargs !! k) ->
      k ∈ drop (List.length args) params.*1 in
  (accepted /\
   bind_arguments params args kwargs =
     Ok (kwargs ∪ (list_to_map (zip params.*1 args) ∪ list_to_map params))) \/
  (~ accepted /\ bind_arguments params args kwargs = Raise TypeError).
Proof.
  unfold bind_arguments.
  destruct (Nat.ltb_spec (List.length params) (List.length args)) as [Hlt|Hle].
  { right. split; [|done]. intros [? _]. lia. }
  destruct (forallb _ _) eqn:Hall.
  - left. split; [|done]. split; [done|].
    intros k Hk. apply elem_of_dict_keys in Hk.
    rewrite forallb_forall in Hall.
    apply list_elem_of_In, Hall in Hk. by apply bool_decide_eq_true in Hk.
  - right. split; [|done]. intros [_ Hkeys].
    apply not_true_iff_false in Hall. apply Hall.
    apply forallb_forall. intros k Hk.
    apply bool_decide_eq_true, Hkeys, elem_of_dict_keys. by apply list_elem_of_In.
Qed.

Lemma init_outcome (m : model) (args : list pyvalue)
    (kwargs : gmap string pyvalue) (self0 : instance) :
  match bind_arguments (init_params m) args kwargs with
  | Ok locals =>
      exists self : instance,
        __init__ m args kwargs self0 = (Ok tt, self) /\
        mapper self = mapper self0 /\
        forall k, attrs self !! k =
          match stored_parameter m k with
          | Some p => Some (default VNone (locals !! p))
          | None => attrs self0 !! k
          end
  | Raise e => __init__ m args kwargs self0 = (Raise e, self0)
  end.
Proof.
  unfold __init__. destruct (bind_arguments _ _ _) as [locals|e]; [|done].
  exists (for_each (assign locals) (init_body m) self0).2.
  split; [|split].
  - pose proof (for_each_assign_ok locals (init_body m) self0) as H.
    destruct (for_each _ _ _) as [r s]. simpl in *. by subst r.
  - apply for_each_assign_mapper.
  - intros k. apply for_each_assign_attrs, init_body_NoDup.
Qed.

Lemma keyword_argument (m : model) (kwargs : gmap string pyvalue) (p : string) :
  default VNone ((kwargs ∪ (list_to_map (zip (init_params m).*1 [])
                            ∪ list_to_map (init_params m))) !! p)
  = argument m kwargs p.
Proof.
  unfold argument. rewrite zip_with_nil_r. simpl. rewrite (left_id _ _).
  destruct (kwargs !! p) as [v|] eqn:E.
  - by rewrite (lookup_union_Some_l _ _ _ _ E).
  - by rewrite (lookup_union_r _ _ _ E).
Qed.

(** What a call with keywords leaves in [__dict__]. *)
Lemma init_keywords (m : model) (kwargs : gmap string pyvalue)
    (self0 self : instance) :
  __init__ m [] kwargs self0 = (Ok tt, self) ->
  mapper self = mapper self0 /\
  forall k, attrs self !! k =
    match stored_parameter m k with
    | Some p => Some (argument m kwargs p)
    | None => attrs self0 !! k
    end.
Proof.
  intros Hinit. pose proof (init_outcome m [] kwargs self0) as H.
  destruct (bind_arguments_outcome (init_params m) [] kwargs)
    as [[_ Hb]|[_ Hb]]; rewrite Hb in H; [|congruence].
  destruct H as (self' & Hinit' & Hm & Hattrs).
  assert (self' = self) as -> by congruence.
  split; [done|]. intros k. rewrite Hattrs.
  destruct (stored_parameter m k); [|done]. by rewrite keyword_argument.
Qed.

Lemma init_getattr (m : model) (kwargs : gmap string pyvalue)
    (self0 self : instance) (k : string) :
  fresh self0 -> __init__ m [] kwargs self0 = (Ok tt, self) ->
  startswith "_" k = false ->
  getattr self k =
    match stored_parameter m k with
    | Some p => argument m kwargs p
    | None => VNone
    end.
Proof.
  intros Hfresh Hinit Hk. apply init_keywords in Hinit as [_ Hattrs].
  unfold getattr. rewrite Hattrs. destruct (stored_parameter m k); [done|].
  by rewrite (Hfresh k Hk).
Qed.

End ConstructorFacts.

Section ConstructedInstances.
Import HelperMixin Models Constructors.

Variable repr : pyvalue -> string.
Variable type_str : column_type -> string.
Variable format_datetime : datetime -> string.

#[local] Abbreviation validate := (HelperMixin.validate repr type_str).
#[local] Abbreviation to_dict := (HelperMixin.to_dict format_datetime).
#[local] Abbreviation render_datetime :=
  (HelperMixin.render_datetime format_datetime).

(** X5. What a constructor accepts and what it cannot set.  A keyword
    that is no parameter of [__init__], and more positional arguments than
    parameters, raise [TypeError] and leave the object as it was;
    positional arguments stand for the keywords of the parameters in the
    order of the signature.  On a new object, the columns that the body
    does not assign are [None] after every call: [id] and [created_at]
    everywhere, [phone] of [User], and [gateway_id] of [Resource], which is
    declared [NOT NULL]. *)
Theorem init_signature :
  (forall (m : model) (args : list pyvalue) (kwargs : gmap string pyvalue)
          (self0 : instance) (k : string),
     is_Some (kwargs !! k) -> k ∉ (init_params m).*1 ->
     __init__ m args kwargs self0 = (Raise TypeError, self0)) /\
  (forall (m : model) (args : list pyvalue) (kwargs : gmap string pyvalue)
          (self0 : instance),
     List.length (init_params m) < List.length args ->
     __init__ m args kwargs self0 = (Raise TypeError, self0)) /\
  (forall (m : model) (args : list pyvalue) (self0 : instance),
     List.length args <= List.length (init_params m) ->
     __init__ m args ∅ self0 =
     __init__ m [] (list_to_map (zip (init_params m).*1 args)) self0) /\
  (forall (m : model) (args : list pyvalue) (kwargs : gmap string pyvalue)
          (self0 self : instance) (c : Column),
     fresh self0 -> __init__ m args kwargs self0 = (Ok tt, self) ->
     c ∈ unset_columns m -> getattr self (name c) = VNone) /\
  (forall m : model,
     map name (unset_columns m) =
       match m with
       | SensorType => ["id"]
       | User => ["id"; "created_at"; "phone"]
       | Resource => ["id"; "created_at"; "gateway_id"]
       | _ => ["id"; "created_at"]
       end) /\
  (exists c : Column,
     c ∈ unset_columns Resource /\ name c = "gateway_id" /\ nullable c = false).
Proof.
  split; [|split; [|split; [|split; [|split]]]].
  - intros m args kwargs self0 k Hk Hnot.
    pose proof (init_outcome m args kwargs self0) as H.
    destruct (bind_arguments_outcome (init_params m) args kwargs)
      as [[[_ Hacc] _]|[_ Hb]]; [|by rewrite Hb in H].
    exfalso. apply Hnot. specialize (Hacc k Hk).
    apply list_elem_of_In. apply list_elem_of_In in Hacc.
    rewrite <- (take_drop (List.length args) (init_params m).*1).
    apply in_or_app. by right.
  - intros m args kwargs self0 Hlen.
    pose proof (init_outcome m args kwargs self0) as H.
    destruct (bind_arguments_outcome (init_params m) args kwargs)
      as [[[Hle _] _]|[_ Hb]]; [lia|by rewrite Hb in H].
  - intros m args self0 Hlen. unfold __init__.
    set (taken := zip (init_params m).*1 args).
    destruct (bind_arguments_outcome (init_params m) args ∅)
      as [[_ ->]|[Hno _]].
    2:{ exfalso. apply Hno. split; [done|].
        intros k [v Hv]. by rewrite lookup_empty in Hv. }
    destruct (bind_arguments_outcome (init_params m) []
                (list_to_map taken : gmap string pyvalue))
      as [[_ ->]|[Hno _]].
    2:{ exfalso. apply Hno. split; [simpl; lia|].
        intros k [v Hv]. apply elem_of_list_to_map_2 in Hv.
        apply elem_of_zip_l in Hv. by rewrite drop_0. }
    fold taken. rewrite zip_with_nil_r. simpl.
    by rewrite !(left_id (∅ : gmap string pyvalue) (∪)).
  - intros m args kwargs self0 self c Hfresh Hinit Hc.
    apply list_elem_of_filter in Hc as [Hc Hin].
    pose proof (init_outcome m args kwargs self0) as H.
    destruct (bind_arguments _ _ _) as [locals|e]; [|congruence].
    destruct H as (self' & Hinit' & _ & Hattrs).
    assert (self' = self) as -> by congruence.
    unfold getattr. rewrite Hattrs. unfold stored_parameter.
    rewrite (not_elem_of_list_to_map_1 _ _ Hc).
    rewrite (Hfresh _ (column_public m c Hin)). done.
  - intros m. by destruct m.
  - exists gateway_fk. split; [|by split].
    apply list_elem_of_filter. split.
    + apply (bool_decide_unpack _). vm_compute. exact I.
    + apply list_elem_of_In. simpl. tauto.
Qed.

(** X6. What [to_dict] shows of a new instance: under each attribute the
    constructor assigns, the argument given for its parameter or the default
    of that parameter, a date-time formatted, and nothing when that value is
    [None]; no other key.  So [id] and [created_at] are absent until the
    row is stored, and the [sensor_type] argument of [SensorType] appears
    under [type]. *)
Theorem init_to_dict (m : model) (kwargs : gmap string pyvalue)
    (self0 self : instance) :
  mapper self0 = mapper_of m -> fresh self0 ->
  __init__ m [] kwargs self0 = (Ok tt, self) ->
  (forall k : string,
     to_dict self !! k =
       match stored_parameter m k with
       | Some p =>
           if is_None (argument m kwargs p) then None
           else Some (render_datetime (argument m kwargs p))
       | None => None
       end) /\
  to_dict self !! "id" = None /\ to_dict self !! "created_at" = None.
Proof.
  intros Hm Hfresh Hinit.
  assert (mapper self = mapper_of m) as Hm'.
  { apply init_keywords in Hinit as [-> _]. done. }
  assert (forall k : string,
     to_dict self !! k =
       match stored_parameter m k with
       | Some p =>
           if is_None (argument m kwargs p) then None
           else Some (render_datetime (argument m kwargs p))
       | None => None
       end) as Hlookup.
  { intros k. rewrite to_dict_lookup, Hm'. unfold projected.
    destruct (startswith "_" k) eqn:Hk.
    - rewrite andb_false_r.
      destruct (stored_parameter m k) as [p|] eqn:Hp; [|done].
      apply stored_parameter_column in Hp as [_ Hp]. congruence.
    - rewrite (init_getattr m kwargs self0 self k Hfresh Hinit Hk).
      destruct (stored_parameter m k) as [p|] eqn:Hp.
      + apply stored_parameter_column in Hp as [Hin _].
        rewrite bool_decide_eq_true_2 by done. simpl.
        by destruct (is_None (argument m kwargs p)).
      + simpl. by rewrite andb_false_r. }
  split; [done|]. rewrite !Hlookup. by destruct m.
Qed.

(** X7. [validate] on a new instance passes exactly when every argument
    is compatible with the column its attribute is, whatever the columns
    the constructor leaves alone.  Built with no argument at all, every
    model passes, although each column declared [NOT NULL] is [None]
    then. *)
Theorem init_validate (m : model) (kwargs : gmap string pyvalue)
    (self0 self : instance) :
  mapper self0 = mapper_of m -> fresh self0 ->
  __init__ m [] kwargs self0 = (Ok tt, self) ->
  ((validate self).1 = Ok tt <->
   forall (k p : string) (c : Column),
     stored_parameter m k = Some p -> column_named m k = Some c ->
     type_compatible (argument m kwargs p) (type_ c) = true) /\
  (kwargs = ∅ ->
   (validate self).1 = Ok tt /\
   forall c : Column,
     c ∈ columns (mapper_of m) -> nullable c = false ->
     getattr self (name c) = VNone).
Proof.
  intros Hm Hfresh Hinit.
  assert (mapper self = mapper_of m) as Hm'.
  { apply init_keywords in Hinit as [-> _]. done. }
  assert (forall c, c ∈ columns (mapper_of m) ->
            getattr self (name c) =
              match stored_parameter m (name c) with
              | Some p => argument m kwargs p
              | None => VNone
              end) as Hget.
  { intros c Hc. apply (init_getattr m kwargs self0 self); [done..|].
    by apply (column_public m). }
  assert ((validate self).1 = Ok tt <->
          forall (k p : string) (c : Column),
            stored_parameter m k = Some p -> column_named m k = Some c ->
            type_compatible (argument m kwargs p) (type_ c) = true) as Hiff.
  { rewrite validate_ok_iff, Hm', Forall_forall. split.
    - intros Hall k p c Hp Hc. apply column_named_Some in Hc as [Hc <-].
      specialize (Hall c Hc). unfold column_ok in Hall.
      by rewrite (Hget c Hc), Hp in Hall.
    - intros Hall c Hc. unfold column_ok. rewrite (Hget c Hc).
      destruct (stored_parameter m (name c)) as [p|] eqn:Hp; [|done].
      apply (Hall (name c) p c Hp). by apply column_named_elem. }
  split; [done|]. intros ->. split.
  - apply Hiff. intros k p c Hp Hc.
    pose proof (default_arguments_compatible m) as Hd.
    rewrite forallb_forall in Hd.
    specialize (Hd (k, p)). simpl in Hd. rewrite Hc in Hd. apply Hd.
    apply list_elem_of_In. by apply elem_of_list_to_map_2.
  - intros c Hc Hnull. rewrite (Hget c Hc).
    pose proof (default_arguments_not_null m) as Hd.
    rewrite forallb_forall in Hd.
    specialize (Hd c (proj1 (list_elem_of_In _ _) Hc)).
    rewrite Hnull in Hd. simpl in Hd.
    destruct (stored_parameter m (name c)) as [p|]; [|done].
    by destruct (argument m ∅ p).
Qed.

(** X8. Storing the defaults keeps a valid instance valid: the value that
    [created_at] receives is a date-time, which its column accepts, and no
    other column is touched.  After it [created_at] is never [None] on a
    model that has the column. *)
Theorem apply_defaults_validate (utc_now : datetime) (m : model)
    (self : instance) :
  mapper self = mapper_of m ->
  (validate self).1 = Ok tt ->
  (validate (apply_defaults utc_now self)).1 = Ok tt /\
  (m <> SensorType ->
   getattr (apply_defaults utc_now self) "created_at" <> VNone).
Proof.
  intros Hm Hok.
  destruct (decide (m = SensorType)) as [->|Hne].
  { rewrite (apply_defaults_sensor_type utc_now self Hm). by split. }
  pose proof (apply_defaults_attrs utc_now m self Hne Hm) as Hattrs.
  split.
  - apply validate_ok_iff in Hok. apply validate_ok_iff.
    change (mapper (apply_defaults utc_now self)) with (mapper self).
    rewrite Forall_forall in Hok. apply Forall_forall. intros c Hc.
    specialize (Hok c Hc). unfold column_ok, getattr in *. rewrite Hattrs.
    destruct (is_None (default VNone (attrs self !! "created_at"))); [|done].
    destruct (decide (name c = "created_at")) as [Hname|Hname].
    + rewrite Hname, lookup_insert_eq. simpl.
      rewrite Hm in Hc. apply column_named_elem in Hc. rewrite Hname in Hc.
      assert (column_named m "created_at" = Some DefaultMixin_created_at) as Hd
        by (by destruct m).
      assert (c = DefaultMixin_created_at) as -> by congruence. reflexivity.
    + by rewrite lookup_insert_ne.
  - intros _. unfold getattr at 1. rewrite Hattrs.
    destruct (is_None (getattr self "created_at")) eqn:E.
    + by rewrite lookup_insert_eq.
    + by apply is_None_false in E.
Qed.

End ConstructedInstances.

Section ConstructedInstancesExamples.
Import HelperMixin Models Constructors.

Lemma init_signature_witness :
  __init__ User [] (<["phone" := VStr "555"]> ∅) (blank User)
    = (Raise TypeError, blank User) /\
  __init__ Resource [] (<["gateway_id" := VInt 1]> ∅) (blank Resource)
    = (Raise TypeError, blank Resource) /\
  __init__ SensorType [VStr "fan"; VStr "x"] ∅ (blank SensorType)
    = (Raise TypeError, blank SensorType) /\
  __init__ Fan [VStr "a"; VBool true] ∅ (blank Fan)
    = __init__ Fan []
        (list_to_map (zip (init_params Fan).*1 [VStr "a"; VBool true]))
        (blank Fan).
Proof.
  pose proof (init_signature) as (Hkw & Hmany & Hpos & _).
  split; [|split; [|split]].
  - apply (Hkw User [] _ _ "phone"); [by eexists|].
    apply (bool_decide_unpack _). vm_compute. exact I.
  - apply (Hkw Resource [] _ _ "gateway_id"); [by eexists|].
    apply (bool_decide_unpack _). vm_compute. exact I.
  - apply Hmany. simpl. lia.
  - apply Hpos. simpl. lia.
Defined.

Lemma init_to_dict_witness :
  HelperMixin.to_dict Samples.sample_format
    (__init__ SensorType [] (<["sensor_type" := VStr "fan"]> ∅)
       (blank SensorType)).2
    !! "type" = Some (VStr "fan") /\
  HelperMixin.to_dict Samples.sample_format
    (__init__ Gateway [] ∅ (blank Gateway)).2 !! "status" = Some (VBool false) /\
  HelperMixin.to_dict Samples.sample_format
    (__init__ Gateway [] ∅ (blank Gateway)).2 !! "id" = None.
Proof.
  pose proof (init_to_dict Samples.sample_format SensorType
                (<["sensor_type" := VStr "fan"]> ∅) (blank SensorType) _
                eq_refl (fresh_blank SensorType) eq_refl) as [H1 _].
  pose proof (init_to_dict Samples.sample_format Gateway ∅ (blank Gateway) _
                eq_refl (fresh_blank Gateway) eq_refl) as [H2 [H3 _]].
  split; [exact (H1 "type")|]. split; [exact (H2 "status")|exact H3].
Defined.

Lemma init_validate_witness :
  (HelperMixin.validate Samples.sample_repr Samples.sample_type_str
     (__init__ Resource [] ∅ (blank Resource)).2).1 = Ok tt /\
  (gateway_fk ∈ columns (mapper_of Resource) /\ nullable gateway_fk = false /\
   getattr (__init__ Resource [] ∅ (blank Resource)).2 "gateway_id" = VNone) /\
  (HelperMixin.validate Samples.sample_repr Samples.sample_type_str
     (__init__ Fan [] (<["status" := VInt 1]> ∅) (blank Fan)).2).1 <> Ok tt.
Proof.
  pose proof (init_validate Samples.sample_repr Samples.sample_type_str
                Resource ∅ (blank Resource)
                (__init__ Resource [] ∅ (blank Resource)).2
                eq_refl (fresh_blank Resource) eq_refl) as [_ Hdef].
  destruct (Hdef eq_refl) as [Hok Hnull].
  assert (gateway_fk ∈ columns (mapper_of Resource)) as Hin.
  { apply list_elem_of_In. simpl. tauto. }
  split; [exact Hok|]. split.
  - split; [exact Hin|]. split; [reflexivity|].
    exact (Hnull gateway_fk Hin eq_refl).
  - pose proof (init_validate Samples.sample_repr Samples.sample_type_str
                  Fan (<["status" := VInt 1]> ∅) (blank Fan)
                  (__init__ Fan [] (<["status" := VInt 1]> ∅) (blank Fan)).2
                  eq_refl (fresh_blank Fan) eq_refl) as [Hiff _].
    intros Hok'. apply (proj1 Hiff) with (k := "status") (p := "status")
                   (c := plain "status" Boolean) in Hok'; [|reflexivity..].
    discriminate Hok'.
Defined.

Lemma apply_defaults_validate_witness :
  (HelperMixin.validate Samples.sample_repr Samples.sample_type_str
     (apply_defaults Samples.instant Samples.fan_on)).1 = Ok tt /\
  getattr (apply_defaults Samples.instant Samples.fan_on) "created_at" <> VNone.
Proof.
  pose proof (apply_defaults_validate Samples.sample_repr Samples.sample_type_str
                Samples.instant Fan Samples.fan_on eq_refl) as H.
  destruct H as [Hok Hset]; [vm_compute; reflexivity|].
  split; [exact Hok|]. by apply Hset.
Defined.

End ConstructedInstancesExamples.

(** ** The flat projection and the attributes *)

Section ProjectionUpdates.
Import HelperMixin Models Constructors References.

Variable format_datetime : datetime -> string.

#[local] Abbreviation to_dict := (HelperMixin.to_dict format_datetime).
#[local] Abbreviation render_datetime :=
  (HelperMixin.render_datetime format_datetime).

Lemma getattr_setattr (self : instance) (k k' : string) (v : pyvalue) :
  getattr (setattr self k v) k' = if decide (k = k') then v else getattr self k'.
Proof.
  unfold getattr, setattr. simpl. destruct (decide (k = k')) as [->|Hne].
  - by rewrite lookup_insert_eq.
  - by rewrite lookup_insert_ne.
Qed.

(** X9. How [to_dict] follows an assignment [self.k = v].  When [k] is a
    public column, the entry under [k] becomes the value, a date-time
    formatted, and goes away when the value is [None]; every other entry
    stays.  When [k] is no column, or is private, nothing changes. *)
Theorem to_dict_setattr (self : instance) (k : string) (v : pyvalue) :
  to_dict (setattr self k v) =
    if bool_decide (k ∈ keys (mapper self)) && negb (startswith "_" k)
    then
      if is_None v then delete k (to_dict self)
      else <[k := render_datetime v]> (to_dict self)
    else to_dict self.
Proof.
  apply map_eq. intros k'.
  rewrite to_dict_lookup. unfold projected. rewrite getattr_setattr. simpl.
  destruct (decide (k = k')) as [<-|Hne].
  - destruct (bool_decide (k ∈ keys (mapper self))) eqn:Hin; simpl.
    + destruct (startswith "_" k) eqn:Hk; simpl.
      * rewrite to_dict_lookup. unfold projected. rewrite Hk. simpl.
        by rewrite andb_false_r.
      * destruct (is_None v).
        -- by rewrite lookup_delete_eq.
        -- by rewrite lookup_insert_eq.
    + rewrite to_dict_lookup. by rewrite Hin.
  - assert (to_dict self !! k' =
            if bool_decide (k' ∈ keys (mapper self))
               && (negb (startswith "_" k') && negb (is_None (getattr self k')))
            then Some (render_datetime (getattr self k')) else None) as Hk'.
    { by rewrite to_dict_lookup. }
    destruct (bool_decide (k ∈ keys (mapper self)) && negb (startswith "_" k));
      [|done].
    destruct (is_None v).
    + by rewrite lookup_delete_ne.
    + by rewrite lookup_insert_ne.
Qed.

Lemma foldl_insert_size {V : Type}
    (step : gmap string V -> string -> gmap string V)
    (cond : string -> bool) (val : string -> V) :
  (forall d key, step d key = if cond key then <[key := val key]> d else d) ->
  forall (ks : list string) (d0 : gmap string V),
    NoDup ks -> (forall k, k ∈ ks -> d0 !! k = None) ->
    size (foldl step d0 ks) = size d0 + List.length (List.filter cond ks).
Proof.
  intros Hstep. induction ks as [|k ks IH]; intros d0 Hnd Hd0; simpl; [lia|].
  apply NoDup_cons in Hnd as [Hk Hnd]. rewrite Hstep.
  destruct (cond k); simpl.
  - rewrite IH; [|done|].
    + rewrite map_size_insert_None; [lia|]. apply Hd0. by left.
    + intros k' Hk'. rewrite lookup_insert_ne by (intros ->; done).
      apply Hd0. by right.
  - apply IH; [done|]. intros k' Hk'. apply Hd0. by right.
Qed.

Lemma relation_attributes_no_column (m : model) :
  Forall (fun r => r ∉ keys (mapper_of m)) (relation_attributes m).
Proof. destruct m; apply (bool_decide_unpack _); vm_compute; exact I. Qed.

(** X10. On the declared tables [to_dict] has one entry for each column
    whose value is not [None], no two columns falling under one key and
    none being skipped for its name; and it never shows an attribute that a
    [relation] or its [backref] gives the class ([gateway], [sensor_type],
    [user], [resource]), whatever that attribute holds. *)
Theorem to_dict_declared (m : model) (self : instance) :
  mapper self = mapper_of m ->
  size (to_dict self) =
    List.length
      (List.filter (fun c => negb (is_None (getattr self (name c))))
         (columns (mapper_of m))) /\
  (forall k : string,
     is_Some (to_dict self !! k) <->
     exists c : Column,
       c ∈ columns (mapper_of m) /\ name c = k /\ getattr self k <> VNone) /\
  (forall r : string, r ∈ relation_attributes m -> to_dict self !! r = None).
Proof.
  intros Hm. split; [|split].
  - unfold HelperMixin.to_dict.
    rewrite (foldl_insert_size _ (projected self)
               (fun key => render_datetime (getattr self key))).
    + rewrite map_size_empty, Hm, Nat.add_0_l. unfold keys.
      assert (Forall (fun c => startswith "_" (name c) = false)
                (columns (mapper_of m))) as Hp.
      { apply Forall_forall. intros c Hc. by apply (column_public m). }
      induction Hp as [|c cols Hc _ IH]; [done|].
      simpl. unfold projected at 1. rewrite Hc. simpl.
      destruct (is_None (getattr self (name c))); simpl; by rewrite IH.
    + intros d key. unfold projected.
      destruct (startswith "_" key); [done|].
      by destruct (is_None (getattr self key)).
    + rewrite Hm. apply keys_NoDup.
    + intros k _. apply lookup_empty.
  - intros k. rewrite to_dict_lookup, Hm. unfold projected. split.
    + destruct (bool_decide (k ∈ keys (mapper_of m))) eqn:Hin; simpl;
        [|by intros [? ?]].
      apply bool_decide_eq_true in Hin.
      apply list_elem_of_fmap in Hin as (c & -> & Hc).
      destruct (startswith "_" (name c)); simpl; [by intros [? ?]|].
      destruct (getattr self (name c)) eqn:Hv; simpl; try (by intros [? ?]);
        intros _; by exists c.
    + intros (c & Hc & <- & Hv).
      rewrite bool_decide_eq_true_2 by (apply list_elem_of_fmap; by exists c).
      rewrite (column_public m c Hc). simpl.
      destruct (getattr self (name c)); try done; by eexists.
  - intros r Hr. rewrite to_dict_lookup, Hm.
    pose proof (relation_attributes_no_column m) as Hno.
    rewrite Forall_forall in Hno.
    by rewrite bool_decide_eq_false_2 by (by apply Hno).
Qed.

End ProjectionUpdates.

Section ProjectionUpdatesExamples.
Import HelperMixin Models Constructors References.

Lemma to_dict_declared_witness :
  size (HelperMixin.to_dict Samples.sample_format Samples.fan_on) = 3 /\
  HelperMixin.to_dict Samples.sample_format Samples.user_3 !! "gateway" = None /\
  HelperMixin.to_dict Samples.sample_format Samples.gateway_4 !! "user" = None.
Proof.
  pose proof (to_dict_declared Samples.sample_format Fan Samples.fan_on eq_refl)
    as (Hsize & _ & _).
  pose proof (to_dict_declared Samples.sample_format User Samples.user_3 eq_refl)
    as (_ & _ & Hu).
  pose proof (to_dict_declared Samples.sample_format Gateway Samples.gateway_4
                eq_refl) as (_ & _ & Hg).
  split; [exact Hsize|]. split.
  - apply Hu. apply (bool_decide_unpack _). vm_compute. exact I.
  - apply Hg. apply (bool_decide_unpack _). vm_compute. exact I.
Defined.

End ProjectionUpdatesExamples.

(** ** The joined projections, at their edges *)

Section JoinedEdges.
Import HelperMixin Models.

Variable format_datetime : datetime -> string.
Variable h : store.

#[local] Abbreviation to_dict := (HelperMixin.to_dict format_datetime).
#[local] Abbreviation render_datetime :=
  (HelperMixin.render_datetime format_datetime).
#[local] Abbreviation join_to_dict :=
  (HelperMixin.join_to_dict format_datetime h).
#[local] Abbreviation join_to_dict_recurse :=
  (HelperMixin.join_to_dict_recurse format_datetime h).
#[local] Abbreviation expand_once := (HelperMixin.expand_once format_datetime h).
#[local] Abbreviation joined_entry := (HelperMixin.joined_entry format_datetime).

Lemma join_to_dict_raises (self : instance) (e : exn) :
  join_to_dict self = Raise e -> e = IndexError /\ is_Some (attrs self !! "").
Proof.
  intros Hr. destruct (attrs self !! "") as [v|] eqn:Hv.
  - split; [|by eexists]. unfold HelperMixin.join_to_dict in Hr.
    rewrite joined_empty_name in Hr by (by rewrite Hv). congruence.
  - destruct (join_to_dict_lookup format_datetime h self Hv) as (d & Hd & _).
    congruence.
Qed.

(** X11. The one failure of the joined projections: [k[0]] on an attribute
    whose name is empty.  [join_to_dict] raises [IndexError] exactly when
    [__dict__] has such an attribute, and raises nothing else;
    [join_to_dict_recurse] raises it then as well, and, in a store where no
    instance has such an attribute, never otherwise. *)
Theorem join_to_dict_empty_name (self : instance) :
  (join_to_dict self = Raise IndexError <-> is_Some (attrs self !! "")) /\
  (forall e : exn, join_to_dict self = Raise e -> e = IndexError) /\
  (forall depth : nat,
     is_Some (attrs self !! "") ->
     join_to_dict_recurse (S depth) self = Some (Raise IndexError)) /\
  (forall (depth : nat) (e : exn),
     store_names_ok h ->
     join_to_dict_recurse depth self = Some (Raise e) ->
     e = IndexError /\ is_Some (attrs self !! "")).
Proof.
  split; [split|split; [|split]].
  - by intros [_ H]%join_to_dict_raises.
  - intros H. unfold HelperMixin.join_to_dict. by rewrite joined_empty_name.
  - by intros e [-> _]%join_to_dict_raises.
  - intros depth H. rewrite join_to_dict_recurse_unfold.
    by rewrite joined_empty_name.
  - intros depth e Hstore Hr.
    destruct (attrs self !! "") as [v|] eqn:Hv.
    + split; [|by eexists]. destruct depth as [|depth]; [done|].
      rewrite join_to_dict_recurse_unfold in Hr.
      rewrite joined_empty_name in Hr by (by rewrite Hv). congruence.
    + by apply (join_to_dict_recurse_no_raise format_datetime h Hstore) in Hr.
Qed.

(** X12. With no relation loaded the two projections agree: when every
    public attribute that holds a value is a column and holds no entity,
    [join_to_dict] returns what [to_dict] returns. *)
Theorem join_to_dict_without_relations (self : instance) :
  attrs self !! "" = None ->
  (forall (k : string) (v : pyvalue),
     attrs self !! k = Some v -> startswith "_" k = false -> v <> VNone ->
     k ∈ keys (mapper self) /\ forall l, v <> VEntity l) ->
  join_to_dict self = Ok (to_dict self).
Proof.
  intros Hname Hcols.
  destruct (join_to_dict_lookup format_datetime h self Hname) as (d & -> & Hd).
  f_equal. apply map_eq. intros k.
  rewrite Hd, to_dict_lookup.
  unfold HelperMixin.joined_entry, projected, getattr.
  destruct (attrs self !! k) as [v|] eqn:Hk; simpl; [|by rewrite !andb_false_r].
  destruct (startswith "_" k) eqn:Hs; simpl; [by rewrite andb_false_r|].
  destruct (is_None v) eqn:Hv; simpl; [by rewrite andb_false_r|].
  apply is_None_false in Hv.
  destruct (Hcols k v Hk Hs Hv) as [Hin Hent].
  rewrite bool_decide_eq_true_2 by done. simpl. f_equal.
  destruct v; try done. by specialize (Hent l).
Qed.

(** X13. What [join_to_dict] returns holds public attributes of the
    instance only, and under none of them [None] or a date-time.  Only the
    value itself is formatted or expanded: a list is copied as it is, with
    the entities and the date-times in it. *)
Theorem join_to_dict_top_level (self : instance) (d : gmap string pyvalue) :
  join_to_dict self = Ok d ->
  (forall (k : string) (v : pyvalue),
     d !! k = Some v ->
     startswith "_" k = false /\ is_Some (attrs self !! k) /\
     v <> VNone /\ forall t, v <> VDatetime t) /\
  (forall (k : string) (l : list pyvalue),
     attrs self !! k = Some (VList l) -> startswith "_" k = false ->
     d !! k = Some (VList l)).
Proof.
  intros Hd.
  assert (attrs self !! "" = None) as Hname.
  { destruct (attrs self !! "") as [v|] eqn:Hv; [|done].
    unfold HelperMixin.join_to_dict in Hd.
    rewrite joined_empty_name in Hd by (by rewrite Hv). done. }
  destruct (join_to_dict_lookup format_datetime h self Hname)
    as (d' & Hd' & Hlook).
  assert (d' = d) as -> by congruence.
  split.
  - intros k v. rewrite Hlook. unfold HelperMixin.joined_entry.
    destruct (attrs self !! k) as [v0|] eqn:Hk; [|done].
    destruct (startswith "_" k); simpl; [done|].
    destruct (is_None v0) eqn:Hv0; simpl; [done|].
    intros [= <-]. split; [done|]. split; [by eexists|].
    destruct v0; simpl in *; try done.
    by destruct (h !! l).
  - intros k l Hk Hs. rewrite Hlook. unfold HelperMixin.joined_entry.
    by rewrite Hk, Hs.
Qed.

(** One pass of the loop of [join_to_dict_recurse] on a key whose value is
    no live instance does what the loop of [join_to_dict] does. *)
Lemma recurse_step_flat
    (rec : instance -> option (result (gmap string pyvalue)))
    (self : instance) (d : gmap string pyvalue) (key : string) :
  (forall l, ~ holds h self key l) ->
  HelperMixin.recurse_step format_datetime h rec self (Some (Ok d)) key =
    Some (Ok (if startswith "_" key then d
              else if is_None (getattr self key) then d
              else <[key := expand_once (render_datetime (getattr self key))]> d)).
Proof.
  intros Hno. unfold HelperMixin.recurse_step.
  destruct (startswith "_" key) eqn:Hs; [done|].
  destruct (is_None (getattr self key)) eqn:Hv; [done|].
  destruct (render_datetime (getattr self key)) eqn:Hr; try done.
  simpl. destruct (h !! l) as [related|] eqn:Hl; [|done].
  exfalso. apply (Hno l). split; [|split; [done|by eexists]].
  by apply (getattr_entity format_datetime).
Qed.

(** X14. [join_to_dict_recurse] descends through attributes that hold an
    instance and through nothing else.  On an instance that holds none
    directly, one call does it all and gives what [join_to_dict] gives, the
    failure on an empty name included; instances inside a list are not
    visited, so a cycle that runs through a list does not keep the call
    from returning. *)
Theorem join_to_dict_recurse_flat (depth : nat) (self : instance) :
  (forall (k : string) (l : loc), ~ holds h self k l) ->
  join_to_dict_recurse (S depth) self = Some (join_to_dict self).
Proof.
  intros Hno. rewrite join_to_dict_recurse_unfold.
  unfold HelperMixin.join_to_dict. destruct (joined self) as [j|e]; [|done].
  generalize (∅ : gmap string pyvalue).
  induction (dict_keys j) as [|key ks IH]; intros d; [done|].
  cbn [foldl]. rewrite recurse_step_flat by (intros l; apply Hno). apply IH.
Qed.

(** X15. A failure below is not swallowed.  When an attribute holds an
    instance that has an attribute of the empty name, [join_to_dict_recurse]
    returns no mapping, however deep the calls may nest; [join_to_dict] on
    the same instance returns one, the inner instance shown by [to_dict],
    which does not read [__dict__]. *)
Theorem join_to_dict_recurse_nested_error (self related : instance)
    (k : string) (l : loc) :
  holds h self k l -> h !! l = Some related -> is_Some (attrs related !! "") ->
  (forall (depth : nat) (d : gmap string pyvalue),
     join_to_dict_recurse depth self <> Some (Ok d)) /\
  (attrs self !! "" = None ->
   exists d : gmap string pyvalue,
     join_to_dict self = Ok d /\ d !! k = Some (VDict (to_dict related))).
Proof.
  intros Hholds Hl Hempty. split.
  - intros [|depth] d Hd; [done|].
    apply join_to_dict_recurse_lookup in Hd as (_ & _ & Hrel).
    destruct (Hrel k l related Hholds Hl) as [d' Hd'].
    destruct depth as [|depth]; [done|].
    rewrite join_to_dict_recurse_unfold in Hd'.
    by rewrite joined_empty_name in Hd'.
  - intros Hname.
    destruct (join_to_dict_lookup format_datetime h self Hname)
      as (d & Hd & Hlook).
    exists d. split; [done|]. rewrite Hlook. unfold HelperMixin.joined_entry.
    destruct Hholds as (Hk & Hs & _). rewrite Hk, Hs. simpl. by rewrite Hl.
Qed.

(** X16. How deep the calls of [join_to_dict_recurse] nest.  With no
    attribute of the empty name about: when every chain of references from
    the instance has at most [n] steps, [n + 1] nested calls are enough for
    it to return; when some chain has [n] steps, [n] nested calls are not
    enough. *)
Theorem join_to_dict_recurse_depth (n : nat) (self : instance) :
  store_names_ok h -> attrs self !! "" = None ->
  (shallow h n self ->
   exists d : gmap string pyvalue,
     join_to_dict_recurse (S n) self = Some (Ok d)) /\
  (deep h n self -> join_to_dict_recurse n self = None).
Proof.
  intros Hstore Hname. split.
  - by apply join_to_dict_recurse_shallow.
  - by apply join_to_dict_recurse_deep.
Qed.

End JoinedEdges.

Section JoinedEdgesExamples.
Import HelperMixin Models.

Lemma join_to_dict_empty_name_witness :
  HelperMixin.join_to_dict Samples.sample_format Samples.chain_store
    Scenarios.nameless = Raise IndexError /\
  HelperMixin.join_to_dict_recurse Samples.sample_format Samples.chain_store 1
    Scenarios.nameless = Some (Raise IndexError) /\
  HelperMixin.join_to_dict Samples.sample_format Samples.chain_store
    Samples.fan_on <> Raise IndexError.
Proof.
  pose proof (join_to_dict_empty_name Samples.sample_format Samples.chain_store
                Scenarios.nameless) as (Hiff & _ & Hrec & _).
  pose proof (join_to_dict_empty_name Samples.sample_format Samples.chain_store
                Samples.fan_on) as (Hfan & _).
  split; [|split].
  - apply Hiff. by eexists.
  - apply Hrec. by eexists.
  - intros Hr. apply Hfan in Hr. destruct Hr as [v Hv]. discriminate Hv.
Defined.

Lemma join_to_dict_without_relations_witness :
  HelperMixin.join_to_dict Samples.sample_format Samples.chain_store Samples.fan_on
    = Ok (HelperMixin.to_dict Samples.sample_format Samples.fan_on).
Proof.
  apply join_to_dict_without_relations; [reflexivity|].
  intros k v Hk _ _. unfold Samples.fan_on in Hk. cbn [attrs] in Hk.
  inv_lookup Hk; (split; [apply (bool_decide_unpack _); vm_compute; exact I|done]).
Defined.

Lemma join_to_dict_top_level_witness :
  exists d : gmap string pyvalue,
    HelperMixin.join_to_dict Samples.sample_format Scenarios.list_store
      Scenarios.gateway_6 = Ok d /\
    d !! "user" = Some (VList [VEntity 7%positive]) /\
    forall (k : string) (v : pyvalue), d !! k = Some v -> v <> VNone.
Proof.
  destruct (join_to_dict_lookup Samples.sample_format Scenarios.list_store
              Scenarios.gateway_6 eq_refl) as (d & Hd & _).
  destruct (join_to_dict_top_level Samples.sample_format Scenarios.list_store
              Scenarios.gateway_6 d Hd) as [Hall Hlist].
  exists d. split; [exact Hd|]. split.
  - apply Hlist; reflexivity.
  - intros k v Hv. by apply (Hall k v).
Defined.

Lemma list_store_no_entity (k : string) (l : loc) :
  ~ holds Scenarios.list_store Scenarios.gateway_6 k l.
Proof.
  intros (Hk & _ & _). unfold Scenarios.gateway_6 in Hk. cbn [attrs] in Hk.
  inv_lookup Hk; discriminate.
Qed.

Lemma join_to_dict_recurse_flat_witness :
  HelperMixin.join_to_dict_recurse Samples.sample_format Scenarios.list_store 1
    Scenarios.gateway_6
  = Some (HelperMixin.join_to_dict Samples.sample_format Scenarios.list_store
            Scenarios.gateway_6).
Proof.
  apply join_to_dict_recurse_flat. exact list_store_no_entity.
Defined.

Lemma join_to_dict_recurse_nested_error_witness :
  (forall (depth : nat) (d : gmap string pyvalue),
     HelperMixin.join_to_dict_recurse Samples.sample_format Scenarios.broken_store
       depth Scenarios.user_9 <> Some (Ok d)) /\
  exists d : gmap string pyvalue,
    HelperMixin.join_to_dict Samples.sample_format Scenarios.broken_store
      Scenarios.user_9 = Ok d /\
    d !! "gateway" =
      Some (VDict (HelperMixin.to_dict Samples.sample_format Scenarios.gateway_8)).
Proof.
  pose proof (join_to_dict_recurse_nested_error Samples.sample_format
                Scenarios.broken_store Scenarios.user_9 Scenarios.gateway_8
                "gateway" 8%positive) as H.
  destruct H as [Hnever Hone].
  - split; [reflexivity|]. split; [reflexivity|]. by eexists.
  - reflexivity.
  - by eexists.
  - split; [exact Hnever|]. apply Hone. reflexivity.
Defined.

Lemma join_to_dict_recurse_depth_witness :
  (exists d : gmap string pyvalue,
     HelperMixin.join_to_dict_recurse Samples.sample_format Samples.chain_store 4
       Samples.user_3 = Some (Ok d)) /\
  HelperMixin.join_to_dict_recurse Samples.sample_format Samples.cycle_store 1000
    Samples.user_5 = None.
Proof.
  split.
  - apply (join_to_dict_recurse_depth Samples.sample_format Samples.chain_store 3
             Samples.user_3 chain_store_names eq_refl).
    apply (acyclic_shallow Samples.chain_store 3 ∅ 3%positive); [reflexivity|..].
    + intros y _. apply chain_store_acyclic.
    + intros x Hx. by apply elem_of_empty in Hx.
    + vm_compute. lia.
  - apply (join_to_dict_recurse_depth Samples.sample_format Samples.cycle_store
             1000 Samples.user_5 cycle_store_names eq_refl).
    apply reaches_cycle_deep. exact cycle_store_cycle.
Defined.

End JoinedEdgesExamples.

(** ** References between the tables *)

Section TableReferences.
Import Models References.

(** X17. The declarations refer to each other soundly.  Every foreign key
    names a declared table and a column of it, of the same type as the
    column that carries the key; the carrying column is [NOT NULL] and the
    key cascades on delete and on update.  Every [relation] names a
    declared class, to whose primary key a foreign key of the declaring
    class points, and neither its name nor its [backref] is the name of a
    column of the class that receives it. *)
Theorem foreign_keys_resolve :
  (forall (m : model) (c : Column) (fk : ForeignKey),
     c ∈ columns (mapper_of m) -> foreign_key c = Some fk ->
     exists (m' : model) (c' : Column),
       referenced fk = Some (m', c') /\
       fk_target fk = table_name m' ++ "." ++ name c' /\
       c' ∈ columns (mapper_of m') /\
       type_ c' = type_ c /\ nullable c = false /\
       fk_ondelete fk = "CASCADE" /\ fk_onupdate fk = "CASCADE") /\
  (forall (m : model) (r : Relation),
     r ∈ declared_relations m ->
     exists (m' : model) (c c' : Column) (fk : ForeignKey),
       model_of_class (rel_target r) = Some m' /\
       c ∈ columns (mapper_of m) /\ foreign_key c = Some fk /\
       referenced fk = Some (m', c') /\ primary_key c' = true /\
       (rel_name r ∉ keys (mapper_of m)) /\
       (rel_backref r ∉ keys (mapper_of m'))).
Proof.
  split.
  - intros m c fk Hc Hfk. apply list_elem_of_In in Hc.
    destruct m; simpl in Hc;
      repeat (destruct Hc as [<-|Hc]; [try discriminate Hfk|]); try done;
      injection Hfk as <-; do 2 eexists;
      (split; [vm_compute; reflexivity|]);
      (split; [reflexivity|]);
      (split; [apply list_elem_of_In; simpl; tauto|by repeat split]).
  - intros m r Hr. apply list_elem_of_In in Hr.
    destruct m; simpl in Hr; try done; destruct Hr as [<-|[]].
    + exists Gateway, gateway_fk, DefaultMixin_id. eexists.
      split; [reflexivity|]. split; [apply list_elem_of_In; simpl; tauto|].
      split; [reflexivity|]. split; [vm_compute; reflexivity|].
      split; [reflexivity|].
      split; apply (bool_decide_unpack _); vm_compute; exact I.
    + exists SensorType, (cascade "sensor_type_id" Integer "sensor_type.id").
      eexists. eexists.
      split; [reflexivity|]. split; [apply list_elem_of_In; simpl; tauto|].
      split; [reflexivity|]. split; [vm_compute; reflexivity|].
      split; [reflexivity|].
      split; apply (bool_decide_unpack _); vm_compute; exact I.
Qed.

Lemma foreign_keys_resolve_witness :
  exists (m' : model) (c' : Column),
    referenced (mk_ForeignKey "resource.uuid" "CASCADE" "CASCADE")
      = Some (m', c') /\
    m' = Resource /\ type_ c' = VARCHAR 40 /\ primary_key c' = false.
Proof.
  pose proof (proj1 foreign_keys_resolve Fan uuid_fk
                (mk_ForeignKey "resource.uuid" "CASCADE" "CASCADE")) as H.
  destruct H as (m' & c' & Href & Htarget & Hin & Htype & _).
  - apply list_elem_of_In. simpl. tauto.
  - reflexivity.
  - exists m', c'. split; [exact Href|].
    vm_compute in Href. injection Href as <- <-. by repeat split.
Defined.

End TableReferences.

(** ** The JSON field codec, one to one *)

Section CodecInjective.
Import Json JSONEncoded.

Variable float_repr : pyfloat -> string.
Variable float_of_literal : string -> pyfloat.
Variable dialect : Type.

#[local] Abbreviation process_bind_param :=
  (JSONEncoded.process_bind_param float_repr dialect).
#[local] Abbreviation process_result_value :=
  (JSONEncoded.process_result_value float_of_literal dialect).


End CodecInjective.

